(** * tcell terminfo screen: input parser, clipboard and cell renderer

    A shallow embedding of [tscreen.go] (package [tcell]): the speculative
    input parser ([collectEventsFromInput] and its sub-parsers), the OSC-52
    clipboard operations, the cell renderer ([drawCell], [draw]) and the
    facade operations guarded by the [fini] flag.

    Conventions.
    - A Go [[]byte] or [string] is a [list byte]; a [bytes.Buffer] is the
      list of its unread bytes.
    - A Go [int] is a [Z]; arithmetic that can overflow goes through
      [wrap64] (two's complement, 64 bits).
    - A Go [map] with integer keys is a [gmap Z _].
    - Writes to the terminal are recorded as a trace of [Output] items.
    - Code of other files and packages (terminfo, the cell buffer, styles,
      the charset transformers, the OS hooks) is taken as a parameter,
      through the class [Collaborators] and the fields of [Terminfo]. *)

From Stdlib Require Import ZArith List Bool Lia.
From Stdlib Require Import Strings.Byte Strings.String.
From stdpp Require Import gmap.
Import ListNotations.
Open Scope Z_scope.

(** ** Bytes and Go integers *)

Definition ESC : byte := x1b.

(** [int(b)] for a byte [b]. *)
Definition b2z (b : byte) : Z := Z.of_N (Byte.to_N b).

(** [byte(v)]: truncation to the low eight bits. *)
Definition z2b (v : Z) : byte :=
  match Byte.of_N (Z.to_N (v mod 256)) with
  | Some b => b
  | None => x00
  end.

(** Two's complement wrap-around of a 64-bit Go [int]. *)
Definition wrap64 (z : Z) : Z := (z + 2 ^ 63) mod 2 ^ 64 - 2 ^ 63.

Definition int_ok (z : Z) : Prop := - 2 ^ 63 <= z < 2 ^ 63.

(** [len(s)] *)
Definition len {A} (s : list A) : Z := Z.of_nat (length s).

(** A byte string written as a Rocq string literal. *)
Definition bytes (s : string) : list byte := list_byte_of_string s.

(** ** Package [strings] / [bytes] *)

(** [strings.HasPrefix(s, prefix)] *)
Fixpoint HasPrefix (s prefix : list byte) : bool :=
  match prefix with
  | [] => true
  | p :: ps =>
      match s with
      | [] => false
      | c :: cs => Byte.eqb c p && HasPrefix cs ps
      end
  end.

(** Offset of the first occurrence of [sep] in [s], if any. *)
Fixpoint index_opt (s sep : list byte) : option nat :=
  if HasPrefix s sep then Some O
  else match s with
       | [] => None
       | _ :: s' => option_map S (index_opt s' sep)
       end.

(** [strings.Index(s, sep)]: -1 when [sep] does not occur. *)
Definition Index (s sep : list byte) : Z :=
  match index_opt s sep with
  | Some n => Z.of_nat n
  | None => -1
  end.

(** [strings.Contains(s, sep)] *)
Definition Contains (s sep : list byte) : bool := 0 <=? Index s sep.

(** [bytes.IndexByte(b, c)] *)
Definition IndexByte (b : list byte) (c : byte) : Z := Index b [c].

(** [strings.Replace(s, "\r", "\n", -1)] and
    [bytes.Replace(b, []byte{'\r'}, []byte{'\n'}, -1)]: both patterns are
    one byte long, so the replacement acts byte by byte. *)
Definition cr2lf (c : byte) : byte := if Byte.eqb c x0d then x0a else c.
Definition ReplaceCRLF (s : list byte) : list byte := map cr2lf s.

(** [b[:n]] and [b[n:]] for [0 <= n <= len(b)]. *)
Definition slice_to {A} (n : Z) (b : list A) : list A := firstn (Z.to_nat n) b.
Definition slice_from {A} (n : Z) (b : list A) : list A := skipn (Z.to_nat n) b.

(** ** Package [encoding/base64], [StdEncoding]

    The standard alphabet of RFC 4648 with [=] padding.  [Decode] skips CR
    and LF, rejects every other byte outside the alphabet, and rejects
    anything but CR and LF after the padding. *)

Definition encodeStd : list byte :=
  bytes "ABCDEFGHIJKLMNOPQRSTUVWXYZabcdefghijklmnopqrstuvwxyz0123456789+/".

Definition padChar : byte := x3d.

(** [enc.encode[v]] *)
Definition enc64 (v : Z) : byte := nth (Z.to_nat v) encodeStd x00.

Fixpoint find_byte (c : byte) (l : list byte) (i : Z) : option Z :=
  match l with
  | [] => None
  | d :: l' => if Byte.eqb c d then Some i else find_byte c l' (i + 1)
  end.

(** [enc.decodeMap[c]]; [None] stands for the entry 0xff. *)
Definition decodeMap (c : byte) : option Z := find_byte c encodeStd 0.

(** The four output bytes of a full three-byte group. *)
Definition encode_val (val : Z) : list byte :=
  [ enc64 (Z.land (Z.shiftr val 18) 63);
    enc64 (Z.land (Z.shiftr val 12) 63);
    enc64 (Z.land (Z.shiftr val 6) 63);
    enc64 (Z.land val 63) ].

(** [base64.StdEncoding.EncodeToString(src)] *)
Fixpoint EncodeToString (src : list byte) : list byte :=
  match src with
  | [] => []
  | [a] =>
      let val := Z.shiftl (b2z a) 16 in
      [ enc64 (Z.land (Z.shiftr val 18) 63);
        enc64 (Z.land (Z.shiftr val 12) 63); padChar; padChar ]
  | [a; b] =>
      let val := Z.lor (Z.shiftl (b2z a) 16) (Z.shiftl (b2z b) 8) in
      [ enc64 (Z.land (Z.shiftr val 18) 63);
        enc64 (Z.land (Z.shiftr val 12) 63);
        enc64 (Z.land (Z.shiftr val 6) 63); padChar ]
  | a :: b :: c :: rest =>
      let val :=
        Z.lor (Z.lor (Z.shiftl (b2z a) 16) (Z.shiftl (b2z b) 8)) (b2z c) in
      encode_val val ++ EncodeToString rest
  end.

Definition is_newline (c : byte) : bool := Byte.eqb c x0a || Byte.eqb c x0d.

Fixpoint skipNewlines (src : list byte) : list byte :=
  match src with
  | [] => []
  | c :: rest => if is_newline c then skipNewlines rest else src
  end.

(** The value assembled from the sextets read so far ([dbuf], at most four,
    missing ones zero) and its first [n] bytes. *)
Definition quantum_val (dbuf : list Z) : Z :=
  Z.lor (Z.lor (Z.lor (Z.shiftl (nth 0 dbuf 0) 18) (Z.shiftl (nth 1 dbuf 0) 12))
               (Z.shiftl (nth 2 dbuf 0) 6))
        (nth 3 dbuf 0).

Definition quantum_bytes (dbuf : list Z) (n : nat) : list byte :=
  let val := quantum_val dbuf in
  firstn n [ z2b (Z.shiftr val 16); z2b (Z.shiftr val 8); z2b val ].

(** [base64.StdEncoding.Decode]: the decoded bytes, or [None] for a
    [CorruptInputError].  The library's loop over [decodeQuantum] is
    written as one pass that carries the sextets of the current quantum. *)
Fixpoint Decode_from (src : list byte) (dbuf : list Z) : option (list byte) :=
  match src with
  | [] => match dbuf with [] => Some [] | _ :: _ => None end
  | c :: rest =>
      match decodeMap c with
      | Some out =>
          let dbuf' := dbuf ++ [out] in
          if Nat.eqb (length dbuf') 4
          then option_map (app (quantum_bytes dbuf' 3)) (Decode_from rest [])
          else Decode_from rest dbuf'
      | None =>
          if is_newline c then Decode_from rest dbuf
          else if negb (Byte.eqb c padChar) then None
          else
            match length dbuf with
            | O | S O => None
            | S (S O) =>
                match skipNewlines rest with
                | [] => None
                | p :: rest' =>
                    if Byte.eqb p padChar
                    then match skipNewlines rest' with
                         | [] => Some (quantum_bytes dbuf 1)
                         | _ :: _ => None
                         end
                    else None
                end
            | _ =>
                match skipNewlines rest with
                | [] => Some (quantum_bytes dbuf 2)
                | _ :: _ => None
                end
            end
      end
  end.

Definition Decode (src : list byte) : option (list byte) := Decode_from src [].


(** ** Keys, modifiers and events

    [Key], [ModMask], [ButtonMask], [Color] and [AttrMask] are integer types
    in Go; a [rune] is a code point.  All are [Z] here. *)

(** [tKeyCode]: a key code and its modifiers (Go fields [key], [mod]). *)
Record tKeyCode := mkKeyCode { kc_key : Z; kc_mod : Z }.

(** An event is recorded as the call of its constructor; the constructors
    themselves live in other files of the package. *)
Inductive Event :=
| NewEventKey (k : Z) (ch : Z) (md : Z) (escseq : list byte)
| NewEventMouse (x y : Z) (btn : Z) (md : Z) (escseq : list byte)
| NewEventPaste (text : list byte) (escseq : list byte)
| NewEventRaw (escseq : list byte)
| NewEventResize (width height : Z).

(** What reaches the terminal: a capability string sent through
    [terminfo.TPuts] (which expands padding), or a string written as it is. *)
Inductive Output :=
| TPutsOut (s : list byte)
| WriteOut (s : list byte).

(** What the charset encoder yields for one rune: the bytes [nb[:dst]] and
    whether [Transform] returned an error. *)
Record EncodeResult := mkEnc { enc_bytes : list byte; enc_err : bool }.

(** What the charset decoder yields for a prefix of the input: [nout],
    [nin], whether the error is [transform.ErrShortSrc], and the rune
    [utf8.DecodeRune] reads from the output. *)
Record DecodeResult := mkDec {
  dec_nout : Z;
  dec_nin : nat;
  dec_short : bool;
  dec_rune : Z
}.

Definition RuneError : Z := 65533.

(** Errors returned by the clipboard operations. *)
Inductive ClipError :=
| ErrNoRegister      (* "No register provided" *)
| ErrInvalidRegister (* "Invalid register" *)
| ErrTruncated.      (* "Text truncated: exceeds 74994 bytes" *)

(** Results of code that can panic or, in this model, run out of fuel. *)
Inductive Result (A : Type) :=
| Ok (a : A)
| Panic
| OutOfFuel.
Arguments Ok {A} a.
Arguments Panic {A}.
Arguments OutOfFuel {A}.

Definition bindR {A B} (r : Result A) (f : A -> Result B) : Result B :=
  match r with
  | Ok a => f a
  | Panic => Panic
  | OutOfFuel => OutOfFuel
  end.

(** ** The capability record (package [terminfo]) *)

Module terminfo.
Record Terminfo := mkTerminfo {
  Colors : Z;
  Mouse : list byte;
  MouseMode : list byte;
  HideCursor : list byte;
  ShowCursor : list byte;
  AttrOff : list byte;
  Clear : list byte;
  ExitCA : list byte;
  ExitKeypad : list byte;
  Bold : list byte;
  Underline : list byte;
  Reverse : list byte;
  Blink : list byte;
  Dim : list byte;
  Italic : list byte;
  StrikeThrough : list byte;
  ResetFgBg : list byte;
  SetFgBgRGB : list byte;
  SetFgRGB : list byte;
  SetBgRGB : list byte;
  SetFgBg : list byte;
  SetFg : list byte;
  SetBg : list byte;
  TParm : list byte -> list Z -> list byte;
  TGoto : Z -> Z -> list byte
}.
End terminfo.
Import (notations) terminfo.

(** ** Collaborators

    Constants, types and operations of the package that [tscreen.go] uses
    and that are defined in other files: key and modifier codes, button
    masks, colours, attributes, styles, the cell buffer and the window-size
    query. *)
Class Collaborators := {
  (* key.go *)
  KeyRune : Z;
  KeyEsc : Z;
  KeyBS : Z;
  KeyTAB : Z;
  KeyESC : Z;
  KeyCR : Z;
  ModNone : Z;
  ModShift : Z;
  ModCtrl : Z;
  ModAlt : Z;
  (* mouse.go *)
  ButtonNone : Z;
  Button1 : Z;
  Button2 : Z;
  Button3 : Z;
  WheelUp : Z;
  WheelDown : Z;
  (* color.go *)
  ColorDefault : Z;
  ColorReset : Z;
  Color_IsRGB : Z -> bool;
  Color_RGB : Z -> Z * Z * Z;
  Color_Valid : Z -> bool;
  FindColor : Z -> list Z -> Z;
  (* attr.go *)
  AttrBold : Z;
  AttrUnderline : Z;
  AttrReverse : Z;
  AttrBlink : Z;
  AttrDim : Z;
  AttrItalic : Z;
  AttrStrikeThrough : Z;
  (* style.go *)
  Style : Type;
  Style_eqb : Style -> Style -> bool;
  StyleDefault : Style;
  styleInvalid : Style;
  Decompose : Style -> Z * Z * Z;
  (* cell.go *)
  CellBuffer : Type;
  cells_Size : CellBuffer -> Z * Z;
  cells_GetContent : CellBuffer -> Z -> Z -> Z * list Z * Style * Z;
  cells_Dirty : CellBuffer -> Z -> Z -> bool;
  cells_SetDirty : CellBuffer -> Z -> Z -> bool -> CellBuffer;
  cells_Fill : CellBuffer -> Z -> Style -> CellBuffer;
  cells_SetContent : CellBuffer -> Z -> Z -> Z -> list Z -> Style -> CellBuffer;
  cells_Resize : CellBuffer -> Z -> Z -> CellBuffer;
  cells_Invalidate : CellBuffer -> CellBuffer;
  (* tscreen_unix.go: the window size, or an error *)
  getWinSize : option (Z * Z)
}.

Section Screen.
Context `{Collaborators}.
Abbreviation Terminfo := terminfo.Terminfo.

(** ** [tScreen]

    The fields the modelled code reads or writes.  [out] and [buf] are the
    traces written to the terminal and to the render buffer; [evch] lists
    the events handed to the event channel; [quit] tells whether the quit
    channel is closed; [finiOnce] whether the [sync.Once] has fired.
    [keycodes] lists the key table in the order a [range] over the map
    visits it: Go leaves that order open, so theorems hold for every order. *)
Record tScreen := mkScreen {
  ti : Terminfo;
  h : Z;
  w : Z;
  fini : bool;
  cells : CellBuffer;
  out : list Output;
  buffering : bool;
  buf : list Output;
  escbuf : list byte;
  paste : bool;
  curstyle : Style;
  style : Style;
  evch : list Event;
  quit : bool;
  keyexist : gmap Z bool;
  keycodes : list (list byte * tKeyCode);
  cx : Z;
  cy : Z;
  mouse : list byte;
  clear : bool;
  cursorx : Z;
  cursory : Z;
  wasbtn : bool;
  acs : gmap Z (list byte);
  encoder : option (Z -> EncodeResult);
  decoder : list byte -> DecodeResult;
  fallback : gmap Z (list byte);
  colors : gmap Z Z;
  palette : list Z;
  truecolor : bool;
  escaped : bool;
  buttondn : bool;
  rawseq : list (list byte);
  finiOnce : bool
}.

Definition set_h (v : Z) (t : tScreen) : tScreen :=
  mkScreen (ti t) v (w t) (fini t) (cells t) (out t) (buffering t) (buf t)
  (escbuf t) (paste t) (curstyle t) (style t) (evch t) (quit t) (keyexist t)
  (keycodes t) (cx t) (cy t) (mouse t) (clear t) (cursorx t) (cursory t)
  (wasbtn t) (acs t) (encoder t) (decoder t) (fallback t) (colors t)
  (palette t) (truecolor t) (escaped t) (buttondn t) (rawseq t) (finiOnce t).

Definition set_w (v : Z) (t : tScreen) : tScreen :=
  mkScreen (ti t) (h t) v (fini t) (cells t) (out t) (buffering t) (buf t)
  (escbuf t) (paste t) (curstyle t) (style t) (evch t) (quit t) (keyexist t)
  (keycodes t) (cx t) (cy t) (mouse t) (clear t) (cursorx t) (cursory t)
  (wasbtn t) (acs t) (encoder t) (decoder t) (fallback t) (colors t)
  (palette t) (truecolor t) (escaped t) (buttondn t) (rawseq t) (finiOnce t).

Definition set_fini (v : bool) (t : tScreen) : tScreen :=
  mkScreen (ti t) (h t) (w t) v (cells t) (out t) (buffering t) (buf t)
  (escbuf t) (paste t) (curstyle t) (style t) (evch t) (quit t) (keyexist t)
  (keycodes t) (cx t) (cy t) (mouse t) (clear t) (cursorx t) (cursory t)
  (wasbtn t) (acs t) (encoder t) (decoder t) (fallback t) (colors t)
  (palette t) (truecolor t) (escaped t) (buttondn t) (rawseq t) (finiOnce t).

Definition set_cells (v : CellBuffer) (t : tScreen) : tScreen :=
  mkScreen (ti t) (h t) (w t) (fini t) v (out t) (buffering t) (buf t)
  (escbuf t) (paste t) (curstyle t) (style t) (evch t) (quit t) (keyexist t)
  (keycodes t) (cx t) (cy t) (mouse t) (clear t) (cursorx t) (cursory t)
  (wasbtn t) (acs t) (encoder t) (decoder t) (fallback t) (colors t)
  (palette t) (truecolor t) (escaped t) (buttondn t) (rawseq t) (finiOnce t).

Definition set_out (v : list Output) (t : tScreen) : tScreen :=
  mkScreen (ti t) (h t) (w t) (fini t) (cells t) v (buffering t) (buf t)
  (escbuf t) (paste t) (curstyle t) (style t) (evch t) (quit t) (keyexist t)
  (keycodes t) (cx t) (cy t) (mouse t) (clear t) (cursorx t) (cursory t)
  (wasbtn t) (acs t) (encoder t) (decoder t) (fallback t) (colors t)
  (palette t) (truecolor t) (escaped t) (buttondn t) (rawseq t) (finiOnce t).

Definition set_buffering (v : bool) (t : tScreen) : tScreen :=
  mkScreen (ti t) (h t) (w t) (fini t) (cells t) (out t) v (buf t) (escbuf
  t) (paste t) (curstyle t) (style t) (evch t) (quit t) (keyexist t)
  (keycodes t) (cx t) (cy t) (mouse t) (clear t) (cursorx t) (cursory t)
  (wasbtn t) (acs t) (encoder t) (decoder t) (fallback t) (colors t)
  (palette t) (truecolor t) (escaped t) (buttondn t) (rawseq t) (finiOnce t).

Definition set_buf (v : list Output) (t : tScreen) : tScreen :=
  mkScreen (ti t) (h t) (w t) (fini t) (cells t) (out t) (buffering t) v
  (escbuf t) (paste t) (curstyle t) (style t) (evch t) (quit t) (keyexist t)
  (keycodes t) (cx t) (cy t) (mouse t) (clear t) (cursorx t) (cursory t)
  (wasbtn t) (acs t) (encoder t) (decoder t) (fallback t) (colors t)
  (palette t) (truecolor t) (escaped t) (buttondn t) (rawseq t) (finiOnce t).

Definition set_escbuf (v : list byte) (t : tScreen) : tScreen :=
  mkScreen (ti t) (h t) (w t) (fini t) (cells t) (out t) (buffering t) (buf
  t) v (paste t) (curstyle t) (style t) (evch t) (quit t) (keyexist t)
  (keycodes t) (cx t) (cy t) (mouse t) (clear t) (cursorx t) (cursory t)
  (wasbtn t) (acs t) (encoder t) (decoder t) (fallback t) (colors t)
  (palette t) (truecolor t) (escaped t) (buttondn t) (rawseq t) (finiOnce t).

Definition set_paste (v : bool) (t : tScreen) : tScreen :=
  mkScreen (ti t) (h t) (w t) (fini t) (cells t) (out t) (buffering t) (buf
  t) (escbuf t) v (curstyle t) (style t) (evch t) (quit t) (keyexist t)
  (keycodes t) (cx t) (cy t) (mouse t) (clear t) (cursorx t) (cursory t)
  (wasbtn t) (acs t) (encoder t) (decoder t) (fallback t) (colors t)
  (palette t) (truecolor t) (escaped t) (buttondn t) (rawseq t) (finiOnce t).

Definition set_curstyle (v : Style) (t : tScreen) : tScreen :=
  mkScreen (ti t) (h t) (w t) (fini t) (cells t) (out t) (buffering t) (buf
  t) (escbuf t) (paste t) v (style t) (evch t) (quit t) (keyexist t)
  (keycodes t) (cx t) (cy t) (mouse t) (clear t) (cursorx t) (cursory t)
  (wasbtn t) (acs t) (encoder t) (decoder t) (fallback t) (colors t)
  (palette t) (truecolor t) (escaped t) (buttondn t) (rawseq t) (finiOnce t).

Definition set_style (v : Style) (t : tScreen) : tScreen :=
  mkScreen (ti t) (h t) (w t) (fini t) (cells t) (out t) (buffering t) (buf
  t) (escbuf t) (paste t) (curstyle t) v (evch t) (quit t) (keyexist t)
  (keycodes t) (cx t) (cy t) (mouse t) (clear t) (cursorx t) (cursory t)
  (wasbtn t) (acs t) (encoder t) (decoder t) (fallback t) (colors t)
  (palette t) (truecolor t) (escaped t) (buttondn t) (rawseq t) (finiOnce t).

Definition set_evch (v : list Event) (t : tScreen) : tScreen :=
  mkScreen (ti t) (h t) (w t) (fini t) (cells t) (out t) (buffering t) (buf
  t) (escbuf t) (paste t) (curstyle t) (style t) v (quit t) (keyexist t)
  (keycodes t) (cx t) (cy t) (mouse t) (clear t) (cursorx t) (cursory t)
  (wasbtn t) (acs t) (encoder t) (decoder t) (fallback t) (colors t)
  (palette t) (truecolor t) (escaped t) (buttondn t) (rawseq t) (finiOnce t).

Definition set_quit (v : bool) (t : tScreen) : tScreen :=
  mkScreen (ti t) (h t) (w t) (fini t) (cells t) (out t) (buffering t) (buf
  t) (escbuf t) (paste t) (curstyle t) (style t) (evch t) v (keyexist t)
  (keycodes t) (cx t) (cy t) (mouse t) (clear t) (cursorx t) (cursory t)
  (wasbtn t) (acs t) (encoder t) (decoder t) (fallback t) (colors t)
  (palette t) (truecolor t) (escaped t) (buttondn t) (rawseq t) (finiOnce t).

Definition set_keyexist (v : gmap Z bool) (t : tScreen) : tScreen :=
  mkScreen (ti t) (h t) (w t) (fini t) (cells t) (out t) (buffering t) (buf
  t) (escbuf t) (paste t) (curstyle t) (style t) (evch t) (quit t) v
  (keycodes t) (cx t) (cy t) (mouse t) (clear t) (cursorx t) (cursory t)
  (wasbtn t) (acs t) (encoder t) (decoder t) (fallback t) (colors t)
  (palette t) (truecolor t) (escaped t) (buttondn t) (rawseq t) (finiOnce t).

Definition set_keycodes (v : list (list byte * tKeyCode)) (t : tScreen) : tScreen :=
  mkScreen (ti t) (h t) (w t) (fini t) (cells t) (out t) (buffering t) (buf
  t) (escbuf t) (paste t) (curstyle t) (style t) (evch t) (quit t) (keyexist
  t) v (cx t) (cy t) (mouse t) (clear t) (cursorx t) (cursory t) (wasbtn t)
  (acs t) (encoder t) (decoder t) (fallback t) (colors t) (palette t)
  (truecolor t) (escaped t) (buttondn t) (rawseq t) (finiOnce t).

Definition set_cx (v : Z) (t : tScreen) : tScreen :=
  mkScreen (ti t) (h t) (w t) (fini t) (cells t) (out t) (buffering t) (buf
  t) (escbuf t) (paste t) (curstyle t) (style t) (evch t) (quit t) (keyexist
  t) (keycodes t) v (cy t) (mouse t) (clear t) (cursorx t) (cursory t)
  (wasbtn t) (acs t) (encoder t) (decoder t) (fallback t) (colors t)
  (palette t) (truecolor t) (escaped t) (buttondn t) (rawseq t) (finiOnce t).

Definition set_cy (v : Z) (t : tScreen) : tScreen :=
  mkScreen (ti t) (h t) (w t) (fini t) (cells t) (out t) (buffering t) (buf
  t) (escbuf t) (paste t) (curstyle t) (style t) (evch t) (quit t) (keyexist
  t) (keycodes t) (cx t) v (mouse t) (clear t) (cursorx t) (cursory t)
  (wasbtn t) (acs t) (encoder t) (decoder t) (fallback t) (colors t)
  (palette t) (truecolor t) (escaped t) (buttondn t) (rawseq t) (finiOnce t).

Definition set_clear (v : bool) (t : tScreen) : tScreen :=
  mkScreen (ti t) (h t) (w t) (fini t) (cells t) (out t) (buffering t) (buf
  t) (escbuf t) (paste t) (curstyle t) (style t) (evch t) (quit t) (keyexist
  t) (keycodes t) (cx t) (cy t) (mouse t) v (cursorx t) (cursory t) (wasbtn
  t) (acs t) (encoder t) (decoder t) (fallback t) (colors t) (palette t)
  (truecolor t) (escaped t) (buttondn t) (rawseq t) (finiOnce t).

Definition set_cursorx (v : Z) (t : tScreen) : tScreen :=
  mkScreen (ti t) (h t) (w t) (fini t) (cells t) (out t) (buffering t) (buf
  t) (escbuf t) (paste t) (curstyle t) (style t) (evch t) (quit t) (keyexist
  t) (keycodes t) (cx t) (cy t) (mouse t) (clear t) v (cursory t) (wasbtn t)
  (acs t) (encoder t) (decoder t) (fallback t) (colors t) (palette t)
  (truecolor t) (escaped t) (buttondn t) (rawseq t) (finiOnce t).

Definition set_cursory (v : Z) (t : tScreen) : tScreen :=
  mkScreen (ti t) (h t) (w t) (fini t) (cells t) (out t) (buffering t) (buf
  t) (escbuf t) (paste t) (curstyle t) (style t) (evch t) (quit t) (keyexist
  t) (keycodes t) (cx t) (cy t) (mouse t) (clear t) (cursorx t) v (wasbtn t)
  (acs t) (encoder t) (decoder t) (fallback t) (colors t) (palette t)
  (truecolor t) (escaped t) (buttondn t) (rawseq t) (finiOnce t).

Definition set_wasbtn (v : bool) (t : tScreen) : tScreen :=
  mkScreen (ti t) (h t) (w t) (fini t) (cells t) (out t) (buffering t) (buf
  t) (escbuf t) (paste t) (curstyle t) (style t) (evch t) (quit t) (keyexist
  t) (keycodes t) (cx t) (cy t) (mouse t) (clear t) (cursorx t) (cursory t)
  v (acs t) (encoder t) (decoder t) (fallback t) (colors t) (palette t)
  (truecolor t) (escaped t) (buttondn t) (rawseq t) (finiOnce t).

Definition set_fallback (v : gmap Z (list byte)) (t : tScreen) : tScreen :=
  mkScreen (ti t) (h t) (w t) (fini t) (cells t) (out t) (buffering t) (buf
  t) (escbuf t) (paste t) (curstyle t) (style t) (evch t) (quit t) (keyexist
  t) (keycodes t) (cx t) (cy t) (mouse t) (clear t) (cursorx t) (cursory t)
  (wasbtn t) (acs t) (encoder t) (decoder t) v (colors t) (palette t)
  (truecolor t) (escaped t) (buttondn t) (rawseq t) (finiOnce t).

Definition set_colors (v : gmap Z Z) (t : tScreen) : tScreen :=
  mkScreen (ti t) (h t) (w t) (fini t) (cells t) (out t) (buffering t) (buf
  t) (escbuf t) (paste t) (curstyle t) (style t) (evch t) (quit t) (keyexist
  t) (keycodes t) (cx t) (cy t) (mouse t) (clear t) (cursorx t) (cursory t)
  (wasbtn t) (acs t) (encoder t) (decoder t) (fallback t) v (palette t)
  (truecolor t) (escaped t) (buttondn t) (rawseq t) (finiOnce t).

Definition set_escaped (v : bool) (t : tScreen) : tScreen :=
  mkScreen (ti t) (h t) (w t) (fini t) (cells t) (out t) (buffering t) (buf
  t) (escbuf t) (paste t) (curstyle t) (style t) (evch t) (quit t) (keyexist
  t) (keycodes t) (cx t) (cy t) (mouse t) (clear t) (cursorx t) (cursory t)
  (wasbtn t) (acs t) (encoder t) (decoder t) (fallback t) (colors t)
  (palette t) (truecolor t) v (buttondn t) (rawseq t) (finiOnce t).

Definition set_buttondn (v : bool) (t : tScreen) : tScreen :=
  mkScreen (ti t) (h t) (w t) (fini t) (cells t) (out t) (buffering t) (buf
  t) (escbuf t) (paste t) (curstyle t) (style t) (evch t) (quit t) (keyexist
  t) (keycodes t) (cx t) (cy t) (mouse t) (clear t) (cursorx t) (cursory t)
  (wasbtn t) (acs t) (encoder t) (decoder t) (fallback t) (colors t)
  (palette t) (truecolor t) (escaped t) v (rawseq t) (finiOnce t).

Definition set_rawseq (v : list (list byte)) (t : tScreen) : tScreen :=
  mkScreen (ti t) (h t) (w t) (fini t) (cells t) (out t) (buffering t) (buf
  t) (escbuf t) (paste t) (curstyle t) (style t) (evch t) (quit t) (keyexist
  t) (keycodes t) (cx t) (cy t) (mouse t) (clear t) (cursorx t) (cursory t)
  (wasbtn t) (acs t) (encoder t) (decoder t) (fallback t) (colors t)
  (palette t) (truecolor t) (escaped t) (buttondn t) v (finiOnce t).

Definition set_finiOnce (v : bool) (t : tScreen) : tScreen :=
  mkScreen (ti t) (h t) (w t) (fini t) (cells t) (out t) (buffering t) (buf
  t) (escbuf t) (paste t) (curstyle t) (style t) (evch t) (quit t) (keyexist
  t) (keycodes t) (cx t) (cy t) (mouse t) (clear t) (cursorx t) (cursory t)
  (wasbtn t) (acs t) (encoder t) (decoder t) (fallback t) (colors t)
  (palette t) (truecolor t) (escaped t) (buttondn t) (rawseq t) v.

(** ** Magic strings *)

Definition pasteEnable : list byte := ESC :: bytes "[?2004h".
Definition pasteDisable : list byte := ESC :: bytes "[?2004l".
Definition pasteBegin : list byte := ESC :: bytes "[200~".
Definition pasteEnd : list byte := ESC :: bytes "[201~".
Definition pasteOSC52Begin : list byte := ESC :: bytes "]52;".
Definition pasteOSC52End : list byte := [ESC; x5c].

(** [fmt.Sprintf(pasteSet, r, str)], [fmt.Sprintf(pasteGet, r)] and
    [fmt.Sprintf(pasteClear, r)] for a byte [r]. *)
Definition pasteSet (r : byte) (str : list byte) : list byte :=
  ESC :: bytes "]52;" ++ [r] ++ bytes ";" ++ str ++ [ESC; x5c].
Definition pasteGet (r : byte) : list byte :=
  ESC :: bytes "]52;" ++ [r] ++ bytes ";?" ++ [ESC; x5c].
Definition pasteClear (r : byte) : list byte :=
  ESC :: bytes "]52;" ++ [r] ++ bytes ";!" ++ [ESC; x5c].

(** ** Input parser *)

(** The state a sub-parser works on: the receiver, the unread input and the
    events collected so far. *)
Definition PS : Type := tScreen * list byte * list Event.

(** [by, _ := buf.ReadByte(); t.escbuf.WriteByte(by)], [n] times.  On an
    empty buffer [ReadByte] reports an error that the code drops, and the
    byte written is zero. *)
Fixpoint readInto (n : nat) (inp esc : list byte) : list byte * list byte :=
  match n with
  | O => (inp, esc)
  | S n' =>
      match inp with
      | [] => readInto n' [] (esc ++ [x00])
      | c :: rest => readInto n' rest (esc ++ [c])
      end
  end.

Definition consume (n : nat) (t : tScreen) (inp : list byte)
  : tScreen * list byte :=
  let '(inp', esc') := readInto n inp (escbuf t) in
  (set_escbuf esc' t, inp').

Definition clip (t : tScreen) (x y : Z) : Z * Z :=
  let '(w, h) := cells_Size (cells t) in
  let x := if x <? 0 then 0 else x in
  let y := if y <? 0 then 0 else y in
  let x := if x >? wrap64 (w - 1) then wrap64 (w - 1) else x in
  let y := if y >? wrap64 (h - 1) then wrap64 (h - 1) else y in
  (x, y).

(** [buildMouseEvent]: the event for the coordinates and button state; it
    updates [wasbtn] and empties [escbuf]. *)
Definition buildMouseEvent (t : tScreen) (x y btn : Z) : tScreen * Event :=
  let sel := Z.land btn 0x43 in
  let '(button, wasbtn') :=
    if sel =? 0 then (Button1, true)
    else if sel =? 1 then (Button3, true)
    else if sel =? 2 then (Button2, true)
    else if sel =? 3 then (ButtonNone, false)
    else if sel =? 0x40
         then ((if negb (wasbtn t) then WheelUp else Button1), wasbtn t)
    else if sel =? 0x41
         then ((if negb (wasbtn t) then WheelDown else Button1), wasbtn t)
    else (ButtonNone, wasbtn t) in
  let md := ModNone in
  let md := if negb (Z.land btn 0x4 =? 0) then Z.lor md ModShift else md in
  let md := if negb (Z.land btn 0x8 =? 0) then Z.lor md ModAlt else md in
  let md := if negb (Z.land btn 0x10 =? 0) then Z.lor md ModCtrl else md in
  let '(x, y) := clip t x y in
  let escseq := escbuf t in
  (set_escbuf [] (set_wasbtn wasbtn' t), NewEventMouse x y button md escseq).

(** Local variables of [parseSgrMouse]. *)
Record sgrVars := mkSgr {
  sg_x : Z; sg_y : Z; sg_btn : Z; sg_state : Z;
  sg_dig : bool; sg_neg : bool; sg_val : Z
}.

Inductive sgrScan :=
| SgrNo                                   (* return false, false *)
| SgrMore                                 (* loop ran off the input *)
| SgrEnd (i : nat) (v : sgrVars) (c : byte). (* 'm' or 'M' at index i *)

Definition in345 (state : Z) : bool :=
  (state =? 3) || (state =? 4) || (state =? 5).

(** The [for i = range b] loop of [parseSgrMouse]; a byte with no [case]
    leaves the variables as they are. *)
Fixpoint sgrLoop (b : list byte) (i : nat) (v : sgrVars) : sgrScan :=
  match b with
  | [] => SgrMore
  | c :: rest =>
      let '(mkSgr x y btn state dig neg val) := v in
      match c with
      | x1b =>
          if negb (state =? 0) then SgrNo
          else sgrLoop rest (S i) (mkSgr x y btn 1 dig neg val)
      | x9b =>
          if negb (state =? 0) then SgrNo
          else sgrLoop rest (S i) (mkSgr x y btn 2 dig neg val)
      | "["%byte =>
          if negb (state =? 1) then SgrNo
          else sgrLoop rest (S i) (mkSgr x y btn 2 dig neg val)
      | "<"%byte =>
          if negb (state =? 2) then SgrNo
          else sgrLoop rest (S i) (mkSgr x y btn 3 false false 0)
      | "-"%byte =>
          if negb (in345 state) then SgrNo
          else if dig || neg then SgrNo
          else sgrLoop rest (S i) (mkSgr x y btn state dig true val)
      | "0"%byte | "1"%byte | "2"%byte | "3"%byte | "4"%byte
      | "5"%byte | "6"%byte | "7"%byte | "8"%byte | "9"%byte =>
          if negb (in345 state) then SgrNo
          else
            let val := wrap64 (val * 10) in
            let val := wrap64 (val + (b2z c - b2z "0"%byte)) in
            sgrLoop rest (S i) (mkSgr x y btn state true neg val)
      | ";"%byte =>
          let val := if neg then wrap64 (- val) else val in
          if state =? 3
          then sgrLoop rest (S i) (mkSgr x y val 4 false false 0)
          else if state =? 4
          then sgrLoop rest (S i) (mkSgr (wrap64 (val - 1)) y btn 5 false false 0)
          else SgrNo
      | "m"%byte | "M"%byte =>
          if negb (state =? 5) then SgrNo
          else
            let val := if neg then wrap64 (- val) else val in
            SgrEnd i (mkSgr x (wrap64 (val - 1)) btn state dig neg val) c
      | _ => sgrLoop rest (S i) v
      end
  end.

Definition parseSgrMouse (s : PS) : bool * bool * PS :=
  let '(t, inp, evs) := s in
  let state := if escaped t then 1 else 0 in
  match sgrLoop inp O (mkSgr 0 0 0 state false false 0) with
  | SgrNo => (false, false, s)
  | SgrMore => (true, false, s)
  | SgrEnd i v c =>
      let btn := sg_btn v in
      let motion := negb (Z.land btn 32 =? 0) in
      let btn := Z.ldiff btn 32 in
      let '(btn, t1) :=
        if Byte.eqb c "m"%byte
        then (Z.ldiff (Z.lor btn 3) 0x40, set_buttondn false t)
        else if motion
        then (if negb (buttondn t)
              then (Z.ldiff (Z.lor btn 3) 0x40, t)
              else (btn, t))
        else (btn, set_buttondn true t) in
      let '(t2, inp2) := consume (S i) t1 inp in
      let '(t3, ev) := buildMouseEvent t2 (sg_x v) (sg_y v) btn in
      (true, true, (t3, inp2, evs ++ [ev]))
  end.

Inductive xtermScan :=
| XtNo
| XtMore
| XtEnd (i : nat) (x y btn : Z).

(** The [for i := range b] loop of [parseXtermMouse]. *)
Fixpoint xtermLoop (b : list byte) (i : nat) (state btn x y : Z) : xtermScan :=
  match b with
  | [] => XtMore
  | c :: rest =>
      if state =? 0 then
        match c with
        | x1b => xtermLoop rest (S i) 1 btn x y
        | x9b => xtermLoop rest (S i) 2 btn x y
        | _ => XtNo
        end
      else if state =? 1 then
        if negb (Byte.eqb c "["%byte) then XtNo
        else xtermLoop rest (S i) 2 btn x y
      else if state =? 2 then
        if negb (Byte.eqb c "M"%byte) then XtNo
        else xtermLoop rest (S i) (state + 1) btn x y
      else if state =? 3 then xtermLoop rest (S i) (state + 1) (b2z c) x y
      else if state =? 4 then
        xtermLoop rest (S i) (state + 1) btn (b2z c - 32 - 1) y
      else if state =? 5 then XtEnd i x (b2z c - 32 - 1) btn
      else xtermLoop rest (S i) state btn x y
  end.

Definition parseXtermMouse (s : PS) : bool * bool * PS :=
  let '(t, inp, evs) := s in
  let state := if escaped t then 1 else 0 in
  match xtermLoop inp O state 0 0 0 with
  | XtNo => (false, false, s)
  | XtMore => (true, false, s)
  | XtEnd i x y btn =>
      let '(t1, inp1) := consume (S i) t inp in
      let '(t2, ev) := buildMouseEvent t1 x y btn in
      (true, true, (t2, inp1, evs ++ [ev]))
  end.

(** The [range t.keycodes] loop of [parseFunctionKey]: the first entry that
    is a prefix of the input, or else whether the input is a prefix of some
    entry seen.  The single-byte ESC entry is skipped. *)
Fixpoint functionKeyLoop (kcs : list (list byte * tKeyCode)) (b : list byte)
    (partial : bool) : bool * option (list byte * tKeyCode) :=
  match kcs with
  | [] => (partial, None)
  | (esc, k) :: rest =>
      if Nat.eqb (length esc) 1 && Byte.eqb (hd x00 esc) ESC
      then functionKeyLoop rest b partial
      else if HasPrefix b esc then (partial, Some (esc, k))
      else functionKeyLoop rest b (if HasPrefix esc b then true else partial)
  end.

Definition parseFunctionKey (s : PS) : bool * bool * PS :=
  let '(t, inp, evs) := s in
  match functionKeyLoop (keycodes t) inp false with
  | (partial, None) => (partial, false, s)
  | (_, Some (esc, k)) =>
      let r := if Nat.eqb (length esc) 1 then b2z (hd x00 inp) else 0 in
      let md := kc_mod k in
      let '(md, t1) :=
        if escaped t then (Z.lor md ModAlt, set_escaped false t)
        else (md, t) in
      let '(t2, inp2) := consume (length esc) t1 inp in
      (true, true,
       (set_escbuf [] t2, inp2,
        evs ++ [NewEventKey (kc_key k) r md (escbuf t2)]))
  end.

(** The [for l := 1; l <= len(b); l++] loop of [parseRune]; [k] counts the
    iterations left.  The key event takes [escbuf] as it is before the bytes
    of the rune are read into it. *)
Fixpoint decodeLoop (k l : nat) (s : PS) : bool * bool * PS :=
  let '(t, inp, evs) := s in
  match k with
  | O => (true, false, s)
  | S k' =>
      let d := decoder t (firstn l inp) in
      if dec_short d then decodeLoop k' (S l) s
      else if negb (dec_nout d =? 0) then
        let r := dec_rune d in
        let '(t1, evs1) :=
          if negb (r =? RuneError) then
            let '(md, t') :=
              if escaped t then (ModAlt, set_escaped false t)
              else (ModNone, t) in
            (set_escbuf [] t', evs ++ [NewEventKey KeyRune r md (escbuf t')])
          else (t, evs) in
        let '(t2, inp2) := consume (dec_nin d) t1 inp in
        (true, true, (t2, inp2, evs1))
      else decodeLoop k' (S l) s
  end.

(** [parseRune]; indexing an empty buffer panics. *)
Definition parseRune (s : PS) : Result (bool * bool * PS) :=
  let '(t, inp, evs) := s in
  match inp with
  | [] => Panic
  | b0 :: _ =>
      if (b2z " "%byte <=? b2z b0) && (b2z b0 <=? 0x7F) then
        let '(md, t1) :=
          if escaped t then (ModAlt, set_escaped false t)
          else (ModNone, t) in
        let '(t2, inp2) := consume 1 t1 inp in
        Ok (true, true,
            (set_escbuf [] t2, inp2,
             evs ++ [NewEventKey KeyRune (b2z b0) md (escbuf t2)]))
      else if b2z b0 <? 0x80 then Ok (false, false, s)
      else Ok (decodeLoop (length inp) 1 s)
  end.

(** [parsePaste]: a run of bytes without ESC, longer than one byte, is a
    paste. *)
Definition parsePaste (s : PS) : Result (bool * PS) :=
  let '(t, inp, evs) := s in
  match inp with
  | [] => Panic
  | b0 :: _ =>
      if negb (Byte.eqb b0 ESC) then
        let esci := IndexByte inp ESC in
        let b := if negb (esci =? -1) then slice_to esci inp else inp in
        if 1 <? len b then
          let '(t1, inp1) := consume (length b) t inp in
          let str := ReplaceCRLF b in
          Ok (true,
              (set_escbuf [] t1, inp1, evs ++ [NewEventPaste str (escbuf t1)]))
        else Ok (false, s)
      else Ok (false, s)
  end.

(** [parseOSC52Paste].  [escbuf] receives the whole buffer as it was on
    entry; a payload that does not decode is dropped with its bytes.  The
    [log.Println] call is left out. *)
Definition parseOSC52Paste (s : PS) : bool * bool * PS :=
  let '(t, inp, evs) := s in
  let str := inp in
  let b := inp in
  let prefixLen := len pasteOSC52Begin + 2 in
  if HasPrefix str pasteOSC52Begin || HasPrefix pasteOSC52Begin str then
    let idx := Index str pasteOSC52End in
    if prefixLen <=? idx then
      let payload := slice_from prefixLen (slice_to idx inp) in
      let inp1 := slice_from (len pasteOSC52End) (slice_from idx inp) in
      let t1 := set_escbuf (escbuf t ++ b) t in
      match Decode payload with
      | None => (true, true, (t1, inp1, evs))
      | Some data =>
          (true, true,
           (set_escbuf [] t1, inp1, evs ++ [NewEventPaste data (escbuf t1)]))
      end
    else (true, false, s)
  else (false, false, s).

Definition parseBracketedPaste (s : PS) : bool * bool * PS :=
  let '(t, inp, evs) := s in
  let str := ReplaceCRLF inp in
  if HasPrefix str pasteBegin || HasPrefix pasteBegin str then
    let idx := Index str pasteEnd in
    if negb (idx =? -1) && (len pasteBegin <=? idx) then
      let n := idx + len pasteEnd in
      let t1 := set_escbuf (escbuf t ++ slice_to n inp) t in
      let text := slice_from (len pasteBegin) (slice_to idx str) in
      (true, true,
       (set_escbuf [] t1, slice_from n inp,
        evs ++ [NewEventPaste text (escbuf t1)]))
    else (true, false, s)
  else (false, false, s).

(** The tail of the scan loop, taken when no sub-parser is partial or the
    quiet time has expired: a registered raw sequence, a lone ESC, an ESC
    that opens an escaped key, or one raw byte. *)
Definition scanFallback (s : PS) : PS :=
  let '(t, inp, res) := s in
  let b := inp in
  if Byte.eqb (hd x00 b) ESC then
    match find (fun r => HasPrefix b r) (rawseq t) with
    | Some r =>
        (set_escbuf [] t, skipn (length r) inp, res ++ [NewEventRaw r])
    | None =>
        let '(t1, res1) :=
          if len b =? 1
          then (set_escaped false (set_escbuf [] t),
                res ++ [NewEventKey KeyEsc 0 ModNone [ESC]])
          else (set_escaped true t, res) in
        let '(t2, inp2) := consume 1 t1 inp in
        (t2, inp2, res1)
    end
  else
    let '(t1, inp1) := consume 1 t inp in
    (set_escbuf [] t1, inp1, res ++ [NewEventRaw (escbuf t1)]).

(** One sub-parser of the committee: stop the pass when it completes, or
    go on with the count of partial matches. *)
Definition attempt (r : bool * bool * PS) (partials : Z)
    (k : Z -> PS -> Result (bool * PS)) : Result (bool * PS) :=
  let '(part, comp, s) := r in
  if comp then Ok (true, s)
  else k (if part then partials + 1 else partials) s.

(** One pass of the [for] loop of [collectEventsFromInput]: [true] for
    [continue], [false] for [return] and [break]. *)
Definition scanStep (expire : bool) (s : PS) : Result (bool * PS) :=
  let '(t, inp, res) := s in
  match inp with
  | [] => Ok (false, (t, [], res))
  | _ :: _ =>
      bindR (if paste t then parsePaste s else Ok (false, s))
        (fun '(pasted, s) =>
      if pasted then Ok (true, s) else
      attempt (parseOSC52Paste s) 0 (fun partials s =>
      attempt (parseBracketedPaste s) partials (fun partials s =>
      bindR (parseRune s) (fun r =>
      attempt r partials (fun partials s =>
      attempt (parseFunctionKey s) partials (fun partials s =>
      let mouseParsers (k : Z -> PS -> Result (bool * PS)) :=
        if negb (Nat.eqb (length (terminfo.Mouse (ti (fst (fst s))))) 0) then
          attempt (parseXtermMouse s) partials (fun partials s =>
          attempt (parseSgrMouse s) partials k)
        else k partials s in
      mouseParsers (fun partials s =>
      if (partials =? 0) || expire then Ok (true, scanFallback s)
      else Ok (false, s))))))))
  end.

Fixpoint collectLoop (fuel : nat) (expire : bool) (s : PS) : Result PS :=
  match fuel with
  | O => OutOfFuel
  | S fuel' =>
      bindR (scanStep expire s) (fun '(again, s') =>
      if again then collectLoop fuel' expire s' else Ok s')
  end.

(** [collectEventsFromInput]: the events extracted from the buffer, with
    the receiver and the unread input afterwards. *)
Definition collectEventsFromInput (fuel : nat) (t : tScreen)
    (inp : list byte) (expire : bool) : Result (list Event * tScreen * list byte) :=
  bindR (collectLoop fuel expire (t, inp, []))
    (fun '(t', inp', res) => Ok (res, t', inp')).

(** ** Output and clipboard *)

Definition TPuts (s : list byte) (t : tScreen) : tScreen :=
  if buffering t then set_buf (buf t ++ [TPutsOut s]) t
  else set_out (out t ++ [TPutsOut s]) t.

Definition writeString (s : list byte) (t : tScreen) : tScreen :=
  if buffering t then set_buf (buf t ++ [WriteOut s]) t
  else set_out (out t ++ [WriteOut s]) t.

Definition GetClipboard (register : list byte) (t : tScreen)
  : tScreen * option ClipError :=
  if len register <=? 0 then (t, Some ErrNoRegister)
  else
    let r := hd x00 register in
    if negb (Byte.eqb r "c"%byte) && negb (Byte.eqb r "p"%byte)
    then (t, Some ErrInvalidRegister)
    else (TPuts (pasteGet r) t, None).

Definition SetClipboard (text register : list byte) (t : tScreen)
  : tScreen * option ClipError :=
  if len register <=? 0 then (t, Some ErrNoRegister)
  else
    let r := hd x00 register in
    if negb (Byte.eqb r "c"%byte) && negb (Byte.eqb r "p"%byte)
    then (t, Some ErrInvalidRegister)
    else
      let t := TPuts (pasteClear r) t in
      let err := if 74994 <=? len text then Some ErrTruncated else None in
      let str := EncodeToString text in
      (TPuts (pasteSet r str) t, err).

(** ** Event channel

    The channel has room for ten events.  [PostEvent] drops the event when
    the channel is full.  [PostEventWait] is the blocking send
    [t.evch <- ev]: with room it queues the event; on a full channel it
    does not return before a receiver has taken an event, which happens
    outside this model and shows here as [None]. *)
Definition PostEvent (ev : Event) (t : tScreen) : tScreen :=
  if len (evch t) <? 10 then set_evch (evch t ++ [ev]) t else t.

Definition PostEventWait (ev : Event) (t : tScreen) : option tScreen :=
  if len (evch t) <? 10 then Some (set_evch (evch t ++ [ev]) t) else None.

(** How [scanInput] ends: every event has been handed over, or the loop
    waits in [PostEventWait] to send [ev], with the events [pending] still
    to hand over after it. *)
Inductive Posted :=
| Sent (t : tScreen) (inp : list byte)
| Blocked (t : tScreen) (ev : Event) (pending : list Event) (inp : list byte).

(** The loop [for _, ev := range evs] of [scanInput]. *)
Fixpoint postParsed (evs : list Event) (t : tScreen) (inp : list byte)
  : Posted :=
  match evs with
  | [] => Sent t inp
  | ev :: rest =>
      match ev with
      | NewEventMouse _ _ _ _ _ => postParsed rest (PostEvent ev t) inp
      | _ =>
          match PostEventWait ev t with
          | Some t' => postParsed rest t' inp
          | None => Blocked t ev rest inp
          end
      end
  end.

(** [scanInput]: the events are handed to the event channel in order. *)
Definition scanInput (fuel : nat) (t : tScreen) (inp : list byte)
    (expire : bool) : Result Posted :=
  bindR (collectEventsFromInput fuel t inp expire)
    (fun '(evs, t', inp') => Ok (postParsed evs t' inp')).

(** The [keychan] branch of [mainLoop]: a chunk of input arrives. *)
Definition mainLoop_keychan (fuel : nat) (t : tScreen) (inp chunk : list byte)
  : Result Posted :=
  scanInput fuel t (inp ++ chunk) false.

(** The [keytimer] branch of [mainLoop]; [expired] tells whether the
    current time is after [keyexpire]. *)
Definition mainLoop_keytimer (fuel : nat) (t : tScreen) (inp : list byte)
    (expired : bool) : Result Posted :=
  if (0 <? len inp) && expired then scanInput fuel t inp true
  else Ok (Sent t inp).

(** ** Renderer *)

Fixpoint bytes_eqb (a b : list byte) : bool :=
  match a, b with
  | [], [] => true
  | c :: a', d :: b' => Byte.eqb c d && bytes_eqb a' b'
  | _, _ => false
  end.

(** [s != ""] *)
Definition nonempty (s : list byte) : bool := negb (Nat.eqb (length s) 0).

Definition encodeRune (t : tScreen) (r : Z) (bf : list byte) : list byte :=
  let '(nb, err) :=
    match encoder t with
    | Some enc => (enc_bytes (enc r), enc_err (enc r))
    | None => ([], false)
    end in
  if err || (len nb =? 0) || Byte.eqb (hd x00 nb) x1a then
    if len bf =? 0 then
      match acs t !! r with
      | Some a => bf ++ a
      | None =>
          match fallback t !! r with
          | Some fb => bf ++ fb
          | None => bf ++ ["?"%byte]
          end
      end
    else bf
  else bf ++ nb.

(** The palette entry for a valid colour, through the cache [colors]. *)
Definition cachedColor (c : Z) (t : tScreen) : Z * tScreen :=
  if Color_Valid c then
    match colors t !! c with
    | Some v => (v, t)
    | None =>
        let v := FindColor c (palette t) in
        (v, set_colors (<[c := v]> (colors t)) t)
    end
  else (c, t).

Definition sendFgBg (fg bg : Z) (t : tScreen) : tScreen :=
  let tinfo := ti t in
  if terminfo.Colors tinfo =? 0 then t
  else
    let t :=
      if (fg =? ColorReset) || (bg =? ColorReset)
      then TPuts (terminfo.ResetFgBg tinfo) t else t in
    if truecolor t && nonempty (terminfo.SetFgBgRGB tinfo)
       && Color_IsRGB fg && Color_IsRGB bg
    then
      let '(r1, g1, b1) := Color_RGB fg in
      let '(r2, g2, b2) := Color_RGB bg in
      TPuts (terminfo.TParm tinfo (terminfo.SetFgBgRGB tinfo)
               [r1; g1; b1; r2; g2; b2]) t
    else
      let '(fg, t) :=
        if truecolor t && Color_IsRGB fg && nonempty (terminfo.SetFgRGB tinfo)
        then
          let '(r, g, b) := Color_RGB fg in
          (ColorDefault,
           TPuts (terminfo.TParm tinfo (terminfo.SetFgRGB tinfo) [r; g; b]) t)
        else (fg, t) in
      let '(bg, t) :=
        if truecolor t && Color_IsRGB bg && nonempty (terminfo.SetBgRGB tinfo)
        then
          let '(r, g, b) := Color_RGB bg in
          (ColorDefault,
           TPuts (terminfo.TParm tinfo (terminfo.SetBgRGB tinfo) [r; g; b]) t)
        else (bg, t) in
      let '(fg, t) := cachedColor fg t in
      let '(bg, t) := cachedColor bg t in
      if Color_Valid fg && Color_Valid bg && nonempty (terminfo.SetFgBg tinfo)
      then
        TPuts (terminfo.TParm tinfo (terminfo.SetFgBg tinfo)
                 [Z.land fg 0xff; Z.land bg 0xff]) t
      else
        let t :=
          if Color_Valid fg && nonempty (terminfo.SetFg tinfo)
          then TPuts (terminfo.TParm tinfo (terminfo.SetFg tinfo)
                        [Z.land fg 0xff]) t
          else t in
        if Color_Valid bg && nonempty (terminfo.SetBg tinfo)
        then TPuts (terminfo.TParm tinfo (terminfo.SetBg tinfo)
                      [Z.land bg 0xff]) t
        else t.

(** [if attrs&a != 0 { t.TPuts(cap) }] *)
Definition attrOn (attrs a : Z) (cap : list byte) (t : tScreen) : tScreen :=
  if negb (Z.land attrs a =? 0) then TPuts cap t else t.

(** The attribute prefix [drawCell] sends when the style changes. *)
Definition sendStyle (st : Style) (t : tScreen) : tScreen :=
  let tinfo := ti t in
  let '(fg, bg, attrs) := Decompose st in
  let t := TPuts (terminfo.AttrOff tinfo) t in
  let t := sendFgBg fg bg t in
  let t := attrOn attrs AttrBold (terminfo.Bold tinfo) t in
  let t := attrOn attrs AttrUnderline (terminfo.Underline tinfo) t in
  let t := attrOn attrs AttrReverse (terminfo.Reverse tinfo) t in
  let t := attrOn attrs AttrBlink (terminfo.Blink tinfo) t in
  let t := attrOn attrs AttrDim (terminfo.Dim tinfo) t in
  let t := attrOn attrs AttrItalic (terminfo.Italic tinfo) t in
  let t := attrOn attrs AttrStrikeThrough (terminfo.StrikeThrough tinfo) t in
  set_curstyle st t.

(** The glyph of a cell: the main rune and its combining runes, encoded. *)
Definition cellString (t : tScreen) (mainc : Z) (combc : list Z) : list byte :=
  fold_left (fun bf r => encodeRune t r bf) combc (encodeRune t mainc []).

(** [drawCell]: the receiver afterwards and the width returned. *)
Definition drawCell (x y : Z) (t : tScreen) : tScreen * Z :=
  let tinfo := ti t in
  let '(mainc, combc, st, width) := cells_GetContent (cells t) x y in
  if negb (cells_Dirty (cells t) x y) then (t, width)
  else
    let t :=
      if negb (cy t =? y) || negb (cx t =? x)
      then set_cy y (set_cx x (TPuts (terminfo.TGoto tinfo x y) t))
      else t in
    let st := if Style_eqb st StyleDefault then style t else st in
    let t := if negb (Style_eqb st (curstyle t)) then sendStyle st t else t in
    let width := if width <? 1 then 1 else width in
    let str := cellString t mainc combc in
    let '(str, t) :=
      if (1 <? width) && bytes_eqb str (bytes "?")
      then (bytes "? ", set_cx (-1) t)
      else (str, t) in
    let '(width, str) :=
      if x >? wrap64 (w t - width) then (1, bytes " ") else (width, str) in
    let t := writeString str t in
    let t := set_cx (wrap64 (cx t + width)) t in
    let t := set_cells (cells_SetDirty (cells t) x y false) t in
    let t := if 1 <? width then set_cx (-1) t else t in
    (t, width).

Definition hideCursor (t : tScreen) : tScreen :=
  if nonempty (terminfo.HideCursor (ti t))
  then TPuts (terminfo.HideCursor (ti t)) t
  else
    let '(cw, ch) := cells_Size (cells t) in
    let t := set_cy ch (set_cx cw t) in
    TPuts (terminfo.TGoto (ti t) (cx t) (cy t)) t.

Definition showCursor (t : tScreen) : tScreen :=
  let x := cursorx t in
  let y := cursory t in
  let '(cw, ch) := cells_Size (cells t) in
  if (x <? 0) || (y <? 0) || (x >=? cw) || (y >=? ch) then hideCursor t
  else
    let t := TPuts (terminfo.TGoto (ti t) x y) t in
    let t := TPuts (terminfo.ShowCursor (ti t)) t in
    set_cy y (set_cx x t).

Definition clearScreen (t : tScreen) : tScreen :=
  let '(fg, bg, _) := Decompose (style t) in
  let t := sendFgBg fg bg t in
  let t := TPuts (terminfo.Clear (ti t)) t in
  set_clear false t.

(** The inner loop of [draw], [for x := 0; x < t.w; x++], from column [x].
    A cell of width zero keeps [x] in place, so the loop takes fuel. *)
Fixpoint drawRow (fuel : nat) (x y : Z) (t : tScreen) : Result tScreen :=
  if negb (x <? w t) then Ok t
  else
    match fuel with
    | O => OutOfFuel
    | S fuel' =>
        let '(t, width) := drawCell x y t in
        let t :=
          if (1 <? width) && (wrap64 (x + 1) <? w t)
          then set_cells (cells_SetDirty (cells t) (wrap64 (x + 1)) y true) t
          else t in
        let x := wrap64 (x + wrap64 (width - 1)) in
        drawRow fuel' (wrap64 (x + 1)) y t
    end.

(** The outer loop of [draw] over the [n] rows from [y] on. *)
Fixpoint drawRows (fuel n : nat) (y : Z) (t : tScreen) : Result tScreen :=
  match n with
  | O => Ok t
  | S n' => bindR (drawRow fuel 0 y t) (drawRows fuel n' (y + 1))
  end.

Definition draw (fuel : nat) (t : tScreen) : Result tScreen :=
  let t := set_cy (-1) (set_cx (-1) t) in
  let t := set_buffering true (set_buf [] t) in
  let t := hideCursor t in
  let t := if clear t then clearScreen t else t in
  bindR (drawRows fuel (Z.to_nat (h t)) 0 t) (fun t =>
  let t := showCursor t in
  let t := set_buf [] (set_out (out t ++ buf t) t) in
  Ok (set_buffering false t)).

Definition resize (t : tScreen) : tScreen :=
  match getWinSize with
  | Some (nw, nh) =>
      if negb (nw =? w t) || negb (nh =? h t) then
        let t := set_cy (-1) (set_cx (-1) t) in
        let t := set_cells (cells_Resize (cells t) nw nh) t in
        let t := set_cells (cells_Invalidate (cells t)) t in
        let t := set_w nw (set_h nh t) in
        PostEvent (NewEventResize nw nh) t
      else t
  | None => t
  end.

(** ** Screen facade *)

Definition SetPaste (p : bool) (t : tScreen) : tScreen := set_paste p t.

Definition RegisterRawSeq (r : list byte) (t : tScreen) : tScreen :=
  set_rawseq (rawseq t ++ [r]) t.

Definition SetStyle (st : Style) (t : tScreen) : tScreen :=
  if negb (fini t) then set_style st t else t.

Definition Fill (r : Z) (st : Style) (t : tScreen) : tScreen :=
  if negb (fini t) then set_cells (cells_Fill (cells t) r st) t else t.

Definition Clear (t : tScreen) : tScreen := Fill (b2z " "%byte) (style t) t.

Definition SetContent (x y : Z) (mainc : Z) (combc : list Z) (st : Style)
    (t : tScreen) : tScreen :=
  if negb (fini t)
  then set_cells (cells_SetContent (cells t) x y mainc combc st) t
  else t.

Definition GetContent (x y : Z) (t : tScreen) : Z * list Z * Style * Z :=
  cells_GetContent (cells t) x y.

Definition ShowCursor (x y : Z) (t : tScreen) : tScreen :=
  set_cursory y (set_cursorx x t).

Definition HideCursor (t : tScreen) : tScreen := ShowCursor (-1) (-1) t.

Definition Show (fuel : nat) (t : tScreen) : Result tScreen :=
  if negb (fini t) then draw fuel (resize t) else Ok t.

Definition Sync (fuel : nat) (t : tScreen) : Result tScreen :=
  let t := set_cy (-1) (set_cx (-1) t) in
  if negb (fini t) then
    let t := resize t in
    let t := set_clear true t in
    let t := set_cells (cells_Invalidate (cells t)) t in
    draw fuel t
  else Ok t.

Definition RegisterRuneFallback (orig : Z) (fb : list byte) (t : tScreen)
  : tScreen :=
  set_fallback (<[orig := fb]> (fallback t)) t.

Definition UnregisterRuneFallback (orig : Z) (t : tScreen) : tScreen :=
  set_fallback (delete orig (fallback t)) t.

(** [finish]; the termios teardown is outside the model. *)
Definition finish (t : tScreen) : tScreen :=
  let tinfo := ti t in
  let t := set_cells (cells_Resize (cells t) 0 0) t in
  let t := TPuts (terminfo.ShowCursor tinfo) t in
  let t := TPuts (terminfo.AttrOff tinfo) t in
  let t := TPuts (terminfo.Clear tinfo) t in
  let t := TPuts (terminfo.ExitCA tinfo) t in
  let t := TPuts (terminfo.ExitKeypad tinfo) t in
  let t := TPuts (terminfo.TParm tinfo (terminfo.MouseMode tinfo) [0]) t in
  let t := TPuts pasteDisable t in
  let t := set_curstyle styleInvalid t in
  let t := set_clear false t in
  let t := set_fini true t in
  set_quit true t.

(** [Fini]: [finish], once. *)
Definition Fini (t : tScreen) : tScreen :=
  if finiOnce t then t else set_finiOnce true (finish t).

(** ** Key table *)

(** [t.keycodes[val]] *)
Fixpoint keycodes_lookup (kcs : list (list byte * tKeyCode)) (val : list byte)
  : option tKeyCode :=
  match kcs with
  | [] => None
  | (e, k) :: rest =>
      if bytes_eqb e val then Some k else keycodes_lookup rest val
  end.

(** [t.keycodes[val] = k] *)
Fixpoint keycodes_store (kcs : list (list byte * tKeyCode)) (val : list byte)
    (k : tKeyCode) : list (list byte * tKeyCode) :=
  match kcs with
  | [] => [(val, k)]
  | (e, k0) :: rest =>
      if bytes_eqb e val then (e, k) :: rest
      else (e, k0) :: keycodes_store rest val k
  end.

Definition prepareKeyMod (key md : Z) (val : list byte) (t : tScreen)
  : tScreen :=
  if nonempty val then
    match keycodes_lookup (keycodes t) val with
    | Some _ => t
    | None =>
        let t := set_keyexist (<[key := true]> (keyexist t)) t in
        set_keycodes (keycodes_store (keycodes t) val (mkKeyCode key md)) t
    end
  else t.

Definition prepareKeyModReplace (key replace md : Z) (val : list byte)
    (t : tScreen) : tScreen :=
  if nonempty val then
    let store (t : tScreen) :=
      let t := set_keyexist (<[key := true]> (keyexist t)) t in
      set_keycodes (keycodes_store (keycodes t) val (mkKeyCode key md)) t in
    match keycodes_lookup (keycodes t) val with
    | Some old => if kc_key old =? replace then store t else t
    | None => store t
    end
  else t.

Definition prepareKey (key : Z) (val : list byte) (t : tScreen) : tScreen :=
  prepareKeyMod key ModNone val t.

(** One round of the last loop of [prepareKeys], for the control byte [i]:
    the byte gets an entry of its own unless a sequence of the table starts
    with it.  ([[]byte(esc)[0]] panics on an empty sequence; the table has
    none, see [keycodes_nonempty].) *)
Definition prepareControlKey (i : Z) (t : tScreen) : tScreen :=
  if existsb (fun e => Byte.eqb (hd x00 (fst e)) (z2b i)) (keycodes t) then t
  else
    let t := set_keyexist (<[i := true]> (keyexist t)) t in
    let md :=
      if (i =? KeyBS) || (i =? KeyTAB) || (i =? KeyESC) || (i =? KeyCR)
      then ModNone else ModCtrl in
    set_keycodes (keycodes_store (keycodes t) [z2b i] (mkKeyCode i md)) t.

(** [for i := 0; i < ' '; i++ { ... }] *)
Definition prepareControlKeys (t : tScreen) : tScreen :=
  fold_left (fun t i => prepareControlKey i t) (map Z.of_nat (seq 0 32)) t.

(** ** Properties the theorems are stated with *)

(** No entry of the key table is the empty sequence: [prepareKeyMod] and
    [prepareKeyModReplace] store no empty [val], and [prepareControlKeys]
    stores one byte each. *)
Definition keycodes_nonempty (kcs : list (list byte * tKeyCode)) : bool :=
  forallb (fun e => nonempty (fst e)) kcs.

(** No entry of the key table, the lone ESC apart, is a prefix of [b]. *)
Definition no_key_prefix (kcs : list (list byte * tKeyCode)) (b : list byte)
  : bool :=
  forallb (fun e => bytes_eqb (fst e) [ESC] || negb (HasPrefix b (fst e))) kcs.

(** No entry of the key table, the lone ESC apart, starts with [b]. *)
Definition no_key_extends (kcs : list (list byte * tKeyCode)) (b : list byte)
  : bool :=
  forallb (fun e => bytes_eqb (fst e) [ESC] || negb (HasPrefix (fst e) b)) kcs.

(** No registered raw sequence is a prefix of [b]. *)
Definition no_rawseq_prefix (rs : list (list byte)) (b : list byte) : bool :=
  forallb (fun r => negb (HasPrefix b r)) rs.

(** The capability record declares mouse support. *)
Definition has_mouse (t : tScreen) : bool :=
  negb (Nat.eqb (length (terminfo.Mouse (ti t))) 0).

Definition is_mouse_event (ev : Event) : bool :=
  match ev with
  | NewEventMouse _ _ _ _ _ => true
  | _ => false
  end.

Definition is_key_event (ev : Event) : bool :=
  match ev with
  | NewEventKey _ _ _ _ => true
  | _ => false
  end.

(** The coordinates of a mouse event lie inside a [sw] by [sh] screen. *)
Definition mouse_in_screen (sw sh : Z) (ev : Event) : Prop :=
  match ev with
  | NewEventMouse x y _ _ _ => 0 <= x <= sw - 1 /\ 0 <= y <= sh - 1
  | _ => True
  end.

End Screen.

(** What a scan leaves: the events and the unread input. *)
Definition parsed {T : Type} (r : Result (list Event * T * list byte))
  : option (list Event * list byte) :=
  match r with
  | Ok (evs, _, rest) => Some (evs, rest)
  | _ => None
  end.

(** ** A concrete screen

    An instance of the collaborators to run the model on: the numeric codes
    of tcell for keys, modifiers and buttons, styles as triples, and a cell
    buffer kept as a function from coordinates to cells. *)

Record Cell := mkCell {
  c_main : Z;
  c_comb : list Z;
  c_style : Z * Z * Z;
  c_width : Z;
  c_dirty : bool
}.

Record Grid := mkGrid {
  g_w : Z;
  g_h : Z;
  g_cell : Z -> Z -> Cell
}.

Definition style3_eqb (a b : Z * Z * Z) : bool :=
  let '(a1, a2, a3) := a in
  let '(b1, b2, b3) := b in
  (a1 =? b1) && (a2 =? b2) && (a3 =? b3).

Definition grid_inside (g : Grid) (x y : Z) : bool :=
  (0 <=? x) && (x <? g_w g) && (0 <=? y) && (y <? g_h g).

Definition grid_update (g : Grid) (x y : Z) (f : Cell -> Cell) : Grid :=
  if grid_inside g x y then
    mkGrid (g_w g) (g_h g)
      (fun x' y' =>
         if (x' =? x) && (y' =? y) then f (g_cell g x y) else g_cell g x' y')
  else g.

(** Runes from U+1100 on count as wide in this instance. *)
Definition rune_width (r : Z) : Z := if 0x1100 <=? r then 2 else 1.

#[export] Instance demo : Collaborators := {|
  KeyRune := 256;
  KeyEsc := 27;
  KeyBS := 8;
  KeyTAB := 9;
  KeyESC := 27;
  KeyCR := 13;
  ModNone := 0;
  ModShift := 1;
  ModCtrl := 2;
  ModAlt := 4;
  ButtonNone := 0;
  Button1 := 1;
  Button2 := 2;
  Button3 := 4;
  WheelUp := 256;
  WheelDown := 512;
  ColorDefault := 0;
  ColorReset := 2 ^ 32 + 255;
  Color_IsRGB := fun c => Z.testbit c 32 && Z.testbit c 33;
  Color_RGB := fun c =>
    (Z.land (Z.shiftr c 16) 255, Z.land (Z.shiftr c 8) 255, Z.land c 255);
  Color_Valid := fun c => Z.testbit c 32;
  FindColor := fun c pal => hd c pal;
  AttrBold := 1;
  AttrBlink := 2;
  AttrReverse := 4;
  AttrUnderline := 8;
  AttrDim := 16;
  AttrItalic := 32;
  AttrStrikeThrough := 64;
  Style := Z * Z * Z;
  Style_eqb := style3_eqb;
  StyleDefault := (0, 0, 0);
  styleInvalid := (0, 0, -1);
  Decompose := fun st => st;
  CellBuffer := Grid;
  cells_Size := fun g => (g_w g, g_h g);
  cells_GetContent := fun g x y =>
    if grid_inside g x y
    then let c := g_cell g x y in (c_main c, c_comb c, c_style c, c_width c)
    else (0, [], (0, 0, 0), 0);
  cells_Dirty := fun g x y =>
    if grid_inside g x y then c_dirty (g_cell g x y) else false;
  cells_SetDirty := fun g x y d =>
    grid_update g x y
      (fun c => mkCell (c_main c) (c_comb c) (c_style c) (c_width c) d);
  cells_Fill := fun g r st =>
    mkGrid (g_w g) (g_h g) (fun _ _ => mkCell r [] st 1 true);
  cells_SetContent := fun g x y mainc combc st =>
    grid_update g x y (fun _ => mkCell mainc combc st (rune_width mainc) true);
  cells_Resize := fun g nw nh => mkGrid nw nh (g_cell g);
  cells_Invalidate := fun g =>
    mkGrid (g_w g) (g_h g)
      (fun x y =>
         let c := g_cell g x y in
         mkCell (c_main c) (c_comb c) (c_style c) (c_width c) true);
  getWinSize := Some (80, 24)
|}.

(** Capabilities in the manner of xterm; parameters are not expanded. *)
Definition demo_ti : terminfo.Terminfo := {|
  terminfo.Colors := 256;
  terminfo.Mouse := ESC :: bytes "[M";
  terminfo.MouseMode := ESC :: bytes "[?1000h";
  terminfo.HideCursor := ESC :: bytes "[?25l";
  terminfo.ShowCursor := ESC :: bytes "[?25h";
  terminfo.AttrOff := ESC :: bytes "[m";
  terminfo.Clear := ESC :: bytes "[H";
  terminfo.ExitCA := ESC :: bytes "[?1049l";
  terminfo.ExitKeypad := ESC :: bytes "[?1l";
  terminfo.Bold := ESC :: bytes "[1m";
  terminfo.Underline := ESC :: bytes "[4m";
  terminfo.Reverse := ESC :: bytes "[7m";
  terminfo.Blink := ESC :: bytes "[5m";
  terminfo.Dim := ESC :: bytes "[2m";
  terminfo.Italic := ESC :: bytes "[3m";
  terminfo.StrikeThrough := ESC :: bytes "[9m";
  terminfo.ResetFgBg := ESC :: bytes "[39;49m";
  terminfo.SetFgBgRGB := [];
  terminfo.SetFgRGB := [];
  terminfo.SetBgRGB := [];
  terminfo.SetFgBg := [];
  terminfo.SetFg := ESC :: bytes "[38m";
  terminfo.SetBg := ESC :: bytes "[48m";
  terminfo.TParm := fun s _ => s;
  terminfo.TGoto := fun x y => ESC :: bytes "[" ++ [z2b y; z2b x] ++ bytes "H"
|}.

(** The same terminal without the mouse capability. *)
Definition demo_ti_nomouse : terminfo.Terminfo := {|
  terminfo.Colors := 256;
  terminfo.Mouse := [];
  terminfo.MouseMode := [];
  terminfo.HideCursor := ESC :: bytes "[?25l";
  terminfo.ShowCursor := ESC :: bytes "[?25h";
  terminfo.AttrOff := ESC :: bytes "[m";
  terminfo.Clear := ESC :: bytes "[H";
  terminfo.ExitCA := ESC :: bytes "[?1049l";
  terminfo.ExitKeypad := ESC :: bytes "[?1l";
  terminfo.Bold := ESC :: bytes "[1m";
  terminfo.Underline := ESC :: bytes "[4m";
  terminfo.Reverse := ESC :: bytes "[7m";
  terminfo.Blink := ESC :: bytes "[5m";
  terminfo.Dim := ESC :: bytes "[2m";
  terminfo.Italic := ESC :: bytes "[3m";
  terminfo.StrikeThrough := ESC :: bytes "[9m";
  terminfo.ResetFgBg := ESC :: bytes "[39;49m";
  terminfo.SetFgBgRGB := [];
  terminfo.SetFgRGB := [];
  terminfo.SetBgRGB := [];
  terminfo.SetFgBg := [];
  terminfo.SetFg := ESC :: bytes "[38m";
  terminfo.SetBg := ESC :: bytes "[48m";
  terminfo.TParm := fun s _ => s;
  terminfo.TGoto := fun x y => ESC :: bytes "[" ++ [z2b y; z2b x] ++ bytes "H"
|}.

(** A key table with the arrow keys, F1, and the control keys that no
    longer sequence starts with. *)
Definition demo_keycodes : list (list byte * tKeyCode) :=
  [ (ESC :: bytes "[A", mkKeyCode 257 0);
    (ESC :: bytes "[B", mkKeyCode 258 0);
    (ESC :: bytes "[C", mkKeyCode 259 0);
    (ESC :: bytes "[D", mkKeyCode 260 0);
    (ESC :: bytes "OP", mkKeyCode 279 0);
    ([x7f], mkKeyCode 127 0);
    ([x01], mkKeyCode 1 2);
    ([x09], mkKeyCode 9 0);
    ([x0d], mkKeyCode 13 0) ].

(** A decoder that reads one byte as a Latin-1 code point, and an encoder
    that knows ASCII only. *)
Definition demo_decoder (src : list byte) : DecodeResult :=
  match src with
  | [] => mkDec 0 0 true 0
  | c :: _ => mkDec 2 1 false (b2z c)
  end.

Definition demo_encoder (r : Z) : EncodeResult :=
  if (0 <=? r) && (r <? 128) then mkEnc [z2b r] false else mkEnc [] true.

Definition blank_grid (gw gh : Z) : Grid :=
  mkGrid gw gh (fun _ _ => mkCell 32 [] (0, 0, 0) 1 true).

(** The screen as [Init] leaves it, 80 columns by 24 rows. *)
Definition demo_screen_on (tinfo : terminfo.Terminfo) : tScreen :=
  {| ti := tinfo; h := 24; w := 80; fini := false;
     cells := blank_grid 80 24;
     out := []; buffering := false; buf := []; escbuf := [];
     paste := false; curstyle := (0, 0, 0); style := (0, 0, 0);
     evch := []; quit := false; keyexist := ∅;
     keycodes := demo_keycodes; cx := -1; cy := -1;
     mouse := terminfo.Mouse tinfo; clear := false;
     cursorx := -1; cursory := -1; wasbtn := false; acs := ∅;
     encoder := Some demo_encoder; decoder := demo_decoder;
     fallback := ∅; colors := ∅; palette := []; truecolor := false;
     escaped := false; buttondn := false; rawseq := [];
     finiOnce := false |}.

Definition demo_screen : tScreen := demo_screen_on demo_ti.
Definition demo_screen_nomouse : tScreen := demo_screen_on demo_ti_nomouse.

(** The two SGR reports of a press and a release at column 10, row 5. *)
Definition sgr_press : list byte := ESC :: bytes "[<0;10;5M".
Definition sgr_release : list byte := ESC :: bytes "[<0;10;5m".

(** The trace the screen currently writes to. *)
Definition written `{Collaborators} (t : tScreen) : list Output :=
  if buffering t then buf t else out t.

Definition is_tputs (o : Output) : bool :=
  match o with
  | TPutsOut _ => true
  | WriteOut _ => false
  end.

(** The register check of the clipboard operations: the first byte of the
    argument is [c] or [p]. *)
Definition register_ok (register : list byte) : bool :=
  match register with
  | [] => false
  | r :: _ => Byte.eqb r "c"%byte || Byte.eqb r "p"%byte
  end.


(** The invariant of a scan on a [sw] by [sh] screen: the cell buffer keeps
    its size and every mouse event collected lies inside the screen. *)
Definition scan_inv `{Collaborators} (sw sh : Z) (s : PS) : Prop :=
  cells_Size (cells (fst (fst s))) = (sw, sh) /\
  Forall (mouse_in_screen sw sh) (snd s).

(** [t'] comes from [t] by steps of the renderer that send capability
    strings only: the screen width, the cached cursor, the cell buffer and
    what the glyph encoding depends on are the same, and the trace has grown
    by [TPuts] items. *)
Definition render_frame `{Collaborators} (t t' : tScreen) : Prop :=
  w t' = w t /\ cx t' = cx t /\ cy t' = cy t /\ cells t' = cells t /\
  encoder t' = encoder t /\ acs t' = acs t /\ fallback t' = fallback t /\
  buffering t' = buffering t /\
  exists pre, written t' = written t ++ pre /\ forallb is_tputs pre = true.

(** The concrete screen with a wide glyph that the encoder cannot
    represent in its last column. *)
Definition demo_wide_at_margin : tScreen :=
  SetContent 79 0 19990 [] (0, 0, 0) demo_screen.

(** ** More of the facade and of the key table *)

(** [HasKey] *)
Definition HasKey `{Collaborators} (k : Z) (t : tScreen) : bool :=
  if k =? KeyRune then true
  else match keyexist t !! k with
       | Some b => b
       | None => false
       end.

(** The key table is a map without the empty sequence: no sequence occurs
    twice in the list that stands for it. *)
Definition keycodes_wf (kcs : list (list byte * tKeyCode)) : Prop :=
  keycodes_nonempty kcs = true /\ NoDup (map fst kcs).

(** Some sequence of the table starts with the byte [c] (the test of the
    inner loop over the control keys). *)
Definition starts_with (c : byte) (kcs : list (list byte * tKeyCode)) : bool :=
  existsb (fun e => Byte.eqb (hd x00 (fst e)) c) kcs.

(** The modifier [prepareKeys] gives the control key [i]. *)
Definition controlMod `{Collaborators} (i : Z) : Z :=
  if (i =? KeyBS) || (i =? KeyTAB) || (i =? KeyESC) || (i =? KeyCR)
  then ModNone else ModCtrl.

(** ** Termination of the scan *)

(** What the scan loop needs to make progress: no key sequence and no
    registered raw sequence is empty, and the decoder reads at least one
    byte whenever it writes a rune. *)
Definition scan_ready `{Collaborators} (t : tScreen) : Prop :=
  keycodes_nonempty (keycodes t) = true /\
  forallb nonempty (rawseq t) = true /\
  (forall src, dec_short (decoder t src) = false ->
     dec_nout (decoder t src) <> 0 -> (1 <= dec_nin (decoder t src))%nat).

(** The fields no sub-parser writes; the event channel is one of them. *)
Definition scan_static `{Collaborators} (t t' : tScreen) : Prop :=
  keycodes t' = keycodes t /\ rawseq t' = rawseq t /\
  decoder t' = decoder t /\ ti t' = ti t /\ paste t' = paste t /\
  evch t' = evch t.

(** A sub-parser that completes has taken at least one byte off the front
    of the input; one that does not complete has changed nothing. *)
Definition advances `{Collaborators} (s : PS) (comp : bool) (s' : PS) : Prop :=
  scan_static (fst (fst s)) (fst (fst s')) /\
  if comp
  then exists k, snd (fst s') = skipn k (snd (fst s)) /\
                 (length (snd (fst s')) < length (snd (fst s)))%nat
  else s' = s.

(** ** Input made of printable bytes *)

(** The test of [parseRune] for a byte that is a rune by itself. *)
Definition printable (c : byte) : bool :=
  (b2z " "%byte <=? b2z c) && (b2z c <=? 0x7F).

(** One rune key per byte; the first one has the modifier [md] and the raw
    bytes [esc] before its own byte. *)
Fixpoint rune_keys `{Collaborators} (md : Z) (esc inp : list byte)
  : list Event :=
  match inp with
  | [] => []
  | c :: rest =>
      NewEventKey KeyRune (b2z c) md (esc ++ [c]) :: rune_keys ModNone [] rest
  end.

(** ** Function keys *)

(** The test of [parseFunctionKey] for the entry it passes over. *)
Definition lone_ESC (e : list byte) : bool :=
  Nat.eqb (length e) 1 && Byte.eqb (hd x00 e) ESC.

(** ** SGR mouse reports *)

Definition is_digit (c : byte) : bool :=
  (b2z "0"%byte <=? b2z c) && (b2z c <=? b2z "9"%byte).

(** The number a string of decimal digits stands for. *)
Definition decimal (ds : list byte) : Z :=
  fold_left (fun v d => v * 10 + (b2z d - b2z "0"%byte)) ds 0.

(** The header of an SGR report with its three numbers, up to the final
    byte. *)
Definition sgr_report (B X Y : list byte) : list byte :=
  ESC :: bytes "[<" ++ B ++ bytes ";" ++ X ++ bytes ";" ++ Y.

(** ** Mouse reports in a row *)

(** [buildMouseEvent] for each report in turn. *)
Fixpoint mouseReports `{Collaborators} (t : tScreen) (reports : list (Z * Z * Z))
  : tScreen * list Event :=
  match reports with
  | [] => (t, [])
  | (x, y, btn) :: rest =>
      let '(t1, ev) := buildMouseEvent t x y btn in
      let '(t2, evs) := mouseReports t1 rest in
      (t2, ev :: evs)
  end.

Definition mouse_button (ev : Event) : option Z :=
  match ev with
  | NewEventMouse _ _ btn _ _ => Some btn
  | _ => None
  end.

Definition is_press (btn : Z) : bool := Z.land btn 0x43 <? 3.
Definition is_release (btn : Z) : bool := Z.land btn 0x43 =? 3.
Definition is_wheel (btn : Z) : bool :=
  (Z.land btn 0x43 =? 0x40) || (Z.land btn 0x43 =? 0x41).

(** ** Event channel *)

Definition not_mouse (ev : Event) : bool := negb (is_mouse_event ev).

(** The value the SGR loop holds after the digits [ds], from [v]. *)
Definition sgr_acc (v : Z) (ds : list byte) : Z :=
  fold_left (fun v d => wrap64 (wrap64 (v * 10) + (b2z d - b2z "0"%byte))) ds v.

(** The events of a list that are no mouse events, in order. *)
Definition kept (evs : list Event) : list Event := List.filter not_mouse evs.

(** The screen and the unread input [scanInput] ends with, and the events
    it still has to send when it waits in [PostEventWait]: the one it waits
    on and, of those after it, the ones that are no mouse events. *)
Definition posted_state `{Collaborators} (r : Posted) : tScreen :=
  match r with
  | Sent t _ => t
  | Blocked t _ _ _ => t
  end.

Definition posted_rest `{Collaborators} (r : Posted) : list byte :=
  match r with
  | Sent _ inp => inp
  | Blocked _ _ _ inp => inp
  end.

Definition waiting `{Collaborators} (r : Posted) : list Event :=
  match r with
  | Sent _ _ => []
  | Blocked _ ev pending _ => ev :: kept pending
  end.

(** ** Runes the terminal can show *)

(** [CanDisplay] *)
Definition CanDisplay `{Collaborators} (r : Z) (checkFallbacks : bool)
    (t : tScreen) : bool :=
  let encoded :=
    match encoder t with
    | Some enc =>
        negb (len (enc_bytes (enc r)) =? 0) && negb (enc_err (enc r))
        && negb (Byte.eqb (hd x00 (enc_bytes (enc r))) x1a)
    | None => false
    end in
  if encoded then true
  else
    match acs t !! r with
    | Some _ => true
    | None =>
        if negb checkFallbacks then false
        else match fallback t !! r with
             | Some _ => true
             | None => false
             end
    end.

(** ** Alternate character set *)

(** [string(b)] for a byte [b]: the UTF-8 encoding of the code point. *)
Definition string_of_byte (b : byte) : list byte :=
  if b2z b <? 0x80 then [b]
  else [z2b (Z.lor 0xC0 (Z.shiftr (b2z b) 6));
        z2b (Z.lor 0x80 (Z.land (b2z b) 0x3F))].

Section AcsMap.
(** [vtACSNames], a table of this package with rune constants of another
    file, and the three capability strings [buildAcsMap] reads. *)
Variable vtACSNames : byte -> option Z.
Variables AltChars EnterAcs ExitAcs : list byte.

(** The loop [for len(acsstr) > 2] of [buildAcsMap]. *)
Fixpoint acsLoop (acsstr : list byte) (m : gmap Z (list byte))
  : gmap Z (list byte) :=
  match acsstr with
  | srcv :: dstv :: ((_ :: _) as rest) =>
      let m :=
        match vtACSNames srcv with
        | Some r => <[r := EnterAcs ++ string_of_byte dstv ++ ExitAcs]> m
        | None => m
        end in
      acsLoop rest m
  | _ => m
  end.

(** [buildAcsMap]: the map it stores in [t.acs]. *)
Definition buildAcsMap : gmap Z (list byte) := acsLoop AltChars empty.

(** The pairs of [acsstr] taken two bytes at a time, the last one
    included. *)
Fixpoint acsPairs (acsstr : list byte) (m : gmap Z (list byte))
  : gmap Z (list byte) :=
  match acsstr with
  | srcv :: dstv :: rest =>
      let m :=
        match vtACSNames srcv with
        | Some r => <[r := EnterAcs ++ string_of_byte dstv ++ ExitAcs]> m
        | None => m
        end in
      acsPairs rest m
  | _ => m
  end.

End AcsMap.

(** ** Drawing *)


(** What [draw] does to a screen with nothing to redraw: besides the
    above, the cell buffer, the size, the capabilities and the cursor asked
    for are the same, and the buffer holds capability strings only. *)
Definition cursor_only `{Collaborators} (t t' : tScreen) : Prop :=
  buffering t' = true /\ out t' = out t /\ cells t' = cells t /\
  w t' = w t /\ h t' = h t /\ ti t' = ti t /\
  cursorx t' = cursorx t /\ cursory t' = cursory t /\
  clear t' = clear t /\
  forallb is_tputs (buf t') = true.



(** The teardown strings of [finish], in the order they are sent. *)
Definition teardown (tinfo : terminfo.Terminfo) : list Output :=
  [TPutsOut (terminfo.ShowCursor tinfo);
   TPutsOut (terminfo.AttrOff tinfo);
   TPutsOut (terminfo.Clear tinfo);
   TPutsOut (terminfo.ExitCA tinfo);
   TPutsOut (terminfo.ExitKeypad tinfo);
   TPutsOut (terminfo.TParm tinfo (terminfo.MouseMode tinfo) [0]);
   TPutsOut pasteDisable].

(** ** More concrete inputs *)

(** The concrete screen with every cell drawn already. *)
Definition demo_clean_screen : tScreen :=
  set_cells (mkGrid 80 24 (fun _ _ => mkCell 32 [] (0, 0, 0) 1 false))
    demo_screen.

(** A table of alternate character names with the single entry [a]. *)
Definition demo_acs_names (c : byte) : option Z :=
  if Byte.eqb c "a"%byte then Some 9618 else None.

(** * Lemmas *)

Arguments Byte.eqb !a !b /.

(** ** Bytes *)

Lemma byte_eqb_refl (c : byte) : Byte.eqb c c = true.
Proof. now apply Byte.byte_dec_lb. Qed.

Lemma byte_eqb_eq (a b : byte) : Byte.eqb a b = true <-> a = b.
Proof.
  split; [apply Byte.byte_dec_bl | apply Byte.byte_dec_lb].
Qed.

Lemma byte_eqb_neq (a b : byte) : a <> b -> Byte.eqb a b = false.
Proof.
  intros Hne. destruct (Byte.eqb a b) eqn:E; [|reflexivity].
  apply byte_eqb_eq in E. contradiction.
Qed.

Lemma b2z_range (c : byte) : 0 <= b2z c < 256.
Proof.
  unfold b2z. pose proof (Byte.to_N_bounded c). lia.
Qed.

Lemma z2b_b2z (c : byte) : z2b (b2z c) = c.
Proof.
  unfold z2b. pose proof (b2z_range c) as Hr.
  rewrite Z.mod_small by lia. unfold b2z.
  rewrite N2Z.id, Byte.of_to_N. reflexivity.
Qed.

Lemma wrap64_small (z : Z) : int_ok z -> wrap64 z = z.
Proof.
  unfold int_ok, wrap64. intros Hz.
  rewrite Z.mod_small by lia. lia.
Qed.

(** ** Prefixes and first occurrences *)

Lemma HasPrefix_nil_r (s : list byte) : HasPrefix s [] = true.
Proof. destruct s; reflexivity. Qed.

Lemma HasPrefix_app (p s : list byte) : HasPrefix (p ++ s) p = true.
Proof.
  induction p as [|c p IH]; [apply HasPrefix_nil_r|].
  cbn [HasPrefix app]. now rewrite byte_eqb_refl, IH.
Qed.

Lemma HasPrefix_spec (s p : list byte) :
  HasPrefix s p = true <-> exists r, s = p ++ r.
Proof.
  revert s. induction p as [|c p IH]; intros s.
  - rewrite HasPrefix_nil_r. split; [exists s; reflexivity | reflexivity].
  - destruct s as [|d s]; cbn [HasPrefix].
    + split; [discriminate | intros [r Hr]; discriminate].
    + rewrite andb_true_iff, byte_eqb_eq, IH. split.
      * intros [-> [r ->]]. exists r. reflexivity.
      * intros [r Hr]. injection Hr as -> ->. split; [reflexivity|eauto].
Qed.

Lemma HasPrefix_length (s p : list byte) :
  HasPrefix s p = true -> (length p <= length s)%nat.
Proof.
  intros Hp. apply HasPrefix_spec in Hp as [r ->].
  rewrite length_app. lia.
Qed.

Lemma index_opt_here (s sep : list byte) :
  HasPrefix s sep = true -> index_opt s sep = Some O.
Proof. intros Hp. destruct s; cbn [index_opt]; now rewrite Hp. Qed.

Lemma index_opt_skip (c : byte) (s sep : list byte) :
  HasPrefix (c :: s) sep = false ->
  index_opt (c :: s) sep = option_map S (index_opt s sep).
Proof. intros Hp. cbn [index_opt]. now rewrite Hp. Qed.

(** The first occurrence lies after a stretch [pre] in which no occurrence
    starts. *)
Lemma index_opt_after (pre s sep : list byte) :
  (forall k, (k < length pre)%nat -> HasPrefix (skipn k pre ++ s) sep = false) ->
  index_opt (pre ++ s) sep =
  option_map (fun n => (length pre + n)%nat) (index_opt s sep).
Proof.
  induction pre as [|c pre IH]; intros Hno.
  - cbn. now destruct (index_opt s sep).
  - cbn [app]. rewrite index_opt_skip by (apply (Hno O); cbn; lia).
    rewrite IH.
    + destruct (index_opt s sep); reflexivity.
    + intros k Hk. apply (Hno (S k)). cbn. lia.
Qed.

Lemma index_opt_None_suffix (s sep : list byte) (k : nat) :
  index_opt s sep = None -> HasPrefix (skipn k s) sep = false.
Proof.
  revert s. induction k as [|k IH]; intros s Hs.
  - cbn [skipn]. destruct s; cbn [index_opt] in Hs;
      destruct (HasPrefix _ sep); congruence.
  - destruct s as [|c s]; cbn [skipn].
    + cbn [index_opt] in Hs. destruct (HasPrefix [] sep); congruence.
    + apply IH. cbn [index_opt] in Hs.
      destruct (HasPrefix (c :: s) sep); [discriminate|].
      destruct (index_opt s sep); [discriminate|reflexivity].
Qed.

Lemma Contains_false (s sep : list byte) :
  Contains s sep = false -> index_opt s sep = None.
Proof.
  unfold Contains, Index. destruct (index_opt s sep); [|reflexivity].
  intros Hc. apply Z.leb_gt in Hc. lia.
Qed.

(** An occurrence that starts with a byte [e] cannot start at a byte that
    differs from [e]. *)
Lemma HasPrefix_head_neq (c e : byte) (s sep : list byte) :
  c <> e -> HasPrefix (c :: s) (e :: sep) = false.
Proof.
  intros Hne. cbn [HasPrefix]. now rewrite byte_eqb_neq.
Qed.

Lemma cr2lf_eqb (c e : byte) :
  e <> x0a -> e <> x0d -> Byte.eqb (cr2lf c) e = Byte.eqb c e.
Proof.
  intros H1 H2. unfold cr2lf. destruct (Byte.eqb c x0d) eqn:E.
  - apply byte_eqb_eq in E. subst c.
    rewrite !byte_eqb_neq; congruence.
  - reflexivity.
Qed.

(** Replacing CR by LF neither creates nor destroys an occurrence of a
    pattern without CR and LF. *)
Lemma HasPrefix_ReplaceCRLF (s p : list byte) :
  Forall (fun e => e <> x0a /\ e <> x0d) p ->
  HasPrefix (ReplaceCRLF s) p = HasPrefix s p.
Proof.
  intros Hp. revert s. induction Hp as [|e p [H1 H2] _ IH]; intros s.
  - now rewrite !HasPrefix_nil_r.
  - destruct s as [|c s]; [reflexivity|].
    cbn [ReplaceCRLF map HasPrefix]. fold (ReplaceCRLF s).
    now rewrite cr2lf_eqb, IH.
Qed.

Lemma index_opt_ReplaceCRLF (s p : list byte) :
  Forall (fun e => e <> x0a /\ e <> x0d) p ->
  index_opt (ReplaceCRLF s) p = index_opt s p.
Proof.
  intros Hp. induction s as [|c s IH].
  - cbn [ReplaceCRLF map index_opt]. reflexivity.
  - change (ReplaceCRLF (c :: s)) with (cr2lf c :: ReplaceCRLF s).
    cbn [index_opt].
    change (cr2lf c :: ReplaceCRLF s) with (ReplaceCRLF (c :: s)).
    now rewrite HasPrefix_ReplaceCRLF, IH.
Qed.

Lemma ReplaceCRLF_app (a b : list byte) :
  ReplaceCRLF (a ++ b) = ReplaceCRLF a ++ ReplaceCRLF b.
Proof. apply map_app. Qed.

Lemma ReplaceCRLF_length (a : list byte) :
  length (ReplaceCRLF a) = length a.
Proof. apply length_map. Qed.

(** A pattern whose first byte does not come back later in it cannot start
    inside [q] and end in a following copy of itself. *)
Lemma HasPrefix_cut (e : byte) (p q u : list byte) :
  Forall (fun d => d <> e) p ->
  HasPrefix (q ++ e :: u) p = HasPrefix q p.
Proof.
  intros Hp. revert q. induction Hp as [|d p Hd _ IH]; intros q.
  - now rewrite !HasPrefix_nil_r.
  - destruct q as [|c q]; cbn [app HasPrefix].
    + rewrite byte_eqb_neq by congruence. reflexivity.
    + now rewrite IH.
Qed.

Lemma HasPrefix_no_straddle (e : byte) (sep q u : list byte) :
  q <> [] ->
  Forall (fun d => d <> e) sep ->
  HasPrefix (q ++ e :: u) (e :: sep) = HasPrefix q (e :: sep).
Proof.
  intros Hq Hsep. destruct q as [|c q]; [contradiction|].
  cbn [app HasPrefix]. now rewrite HasPrefix_cut.
Qed.

Lemma HasPrefix_skipn_neq (e : byte) (sep pre s : list byte) (k : nat) :
  Forall (fun c => c <> e) pre ->
  (k < length pre)%nat ->
  HasPrefix (skipn k pre ++ s) (e :: sep) = false.
Proof.
  intros Hpre. revert k. induction Hpre as [|c pre Hc _ IH]; intros k Hk.
  - cbn in Hk. lia.
  - destruct k as [|k]; cbn [skipn].
    + cbn [app]. now apply HasPrefix_head_neq.
    + apply IH. cbn in Hk. lia.
Qed.

Lemma skipn_nonempty {A} (l : list A) (k : nat) :
  (k < length l)%nat -> skipn k l <> [].
Proof.
  intros Hk Hnil. apply (f_equal (@length A)) in Hnil.
  rewrite length_skipn in Hnil. cbn in Hnil. lia.
Qed.

(** ** Reading bytes into [escbuf] *)

Lemma readInto_enough (n : nat) (inp esc : list byte) :
  (n <= length inp)%nat ->
  readInto n inp esc = (skipn n inp, esc ++ firstn n inp).
Proof.
  revert inp esc. induction n as [|n IH]; intros inp esc Hn.
  - cbn. now rewrite app_nil_r.
  - destruct inp as [|c inp]; [cbn in Hn; lia|].
    cbn [readInto skipn firstn]. rewrite IH by (cbn in Hn; lia).
    now rewrite <- app_assoc.
Qed.

(** ** Base64 *)

Lemma list_ind3 {A} (P : list A -> Prop) :
  P [] ->
  (forall a, P [a]) ->
  (forall a b, P [a; b]) ->
  (forall a b c rest, P rest -> P (a :: b :: c :: rest)) ->
  forall l, P l.
Proof.
  intros H0 H1 H2 H3.
  assert (Hall : forall n l, (length l <= n)%nat -> P l).
  { induction n as [|n IH]; intros l Hl.
    - destruct l; [exact H0 | cbn in Hl; lia].
    - destruct l as [|a [|b [|c rest]]]; auto.
      apply H3, IH. cbn in Hl. lia. }
  intros l. apply (Hall (length l)). lia.
Qed.

Lemma encodeStd_no_ESC : Forall (fun c => c <> ESC) encodeStd.
Proof. repeat constructor; discriminate. Qed.

Lemma enc64_no_ESC (v : Z) : enc64 v <> ESC.
Proof.
  unfold enc64.
  destruct (nth_in_or_default (Z.to_nat v) encodeStd x00) as [Hin | ->].
  - exact (proj1 (List.Forall_forall _ _) encodeStd_no_ESC _ Hin).
  - discriminate.
Qed.

Lemma EncodeToString_no_ESC (src : list byte) :
  Forall (fun c => c <> ESC) (EncodeToString src).
Proof.
  induction src as [|a|a b|a b c rest IH] using list_ind3;
    cbn [EncodeToString encode_val app];
    repeat constructor; try apply enc64_no_ESC; try discriminate.
  exact IH.
Qed.

Lemma decodeMap_enc64 (v : Z) : 0 <= v < 64 -> decodeMap (enc64 v) = Some v.
Proof.
  intros Hv. rewrite <- (Z2Nat.id v) by lia.
  assert (Hn : (Z.to_nat v < 64)%nat) by lia.
  generalize dependent (Z.to_nat v). clear v Hv. intros n Hn.
  do 64 (destruct n as [|n]; [reflexivity|]). lia.
Qed.

Lemma lor_shiftl_add (hi lo k : Z) :
  0 <= k -> 0 <= lo < 2 ^ k ->
  Z.lor (Z.shiftl hi k) lo = hi * 2 ^ k + lo.
Proof.
  intros Hk Hlo.
  assert (Hland : Z.land (Z.shiftl hi k) lo = 0).
  { apply Z.bits_inj'. intros n Hn. rewrite Z.land_spec, Z.bits_0.
    destruct (Z.lt_ge_cases n k) as [Hlt | Hge].
    - rewrite Z.shiftl_spec_low by lia. reflexivity.
    - rewrite <- (Z.mod_small lo (2 ^ k)) by lia.
      rewrite Z.mod_pow2_bits_high by lia. apply andb_false_r. }
  rewrite <- Z.lxor_lor by exact Hland.
  rewrite <- Z.add_nocarry_lxor by exact Hland.
  now rewrite Z.shiftl_mul_pow2.
Qed.

Lemma land63 (v : Z) : Z.land v 63 = v mod 64.
Proof. change 63 with (Z.ones 6). now rewrite Z.land_ones. Qed.

Lemma lor_add (a b k : Z) :
  0 <= k -> a mod 2 ^ k = 0 -> 0 <= b < 2 ^ k -> Z.lor a b = a + b.
Proof.
  intros Hk Ha Hb.
  assert (Hpow : 0 < 2 ^ k) by (apply Z.pow_pos_nonneg; lia).
  assert (Ea : a = Z.shiftl (a / 2 ^ k) k).
  { rewrite Z.shiftl_mul_pow2 by lia.
    rewrite (Z.div_mod a (2 ^ k)) at 1 by lia. lia. }
  rewrite Ea at 1. rewrite lor_shiftl_add by lia.
  rewrite (Z.div_mod a (2 ^ k)) at 2 by lia. lia.
Qed.

Ltac arith_side := cbn; first [lia | Z.div_mod_to_equations; lia].

(** Turns shifts, masks and disjoint ors of the base64 code into
    arithmetic. *)
Ltac to_arith :=
  rewrite ?land63, ?Z.shiftr_div_pow2, ?Z.shiftl_mul_pow2 by lia;
  change (2 ^ 18) with 262144 in *; change (2 ^ 16) with 65536 in *;
  change (2 ^ 12) with 4096 in *; change (2 ^ 8) with 256 in *;
  change (2 ^ 6) with 64 in *;
  repeat match goal with
  | |- context [Z.lor ?a ?b] =>
      first [ rewrite (lor_add a b 6) by arith_side
            | rewrite (lor_add a b 8) by arith_side
            | rewrite (lor_add a b 12) by arith_side
            | rewrite (lor_add a b 16) by arith_side
            | rewrite (lor_add a b 18) by arith_side ]
  end.

Lemma sextet_range (v : Z) : 0 <= Z.land v 63 < 64.
Proof. rewrite land63. apply Z.mod_pos_bound. lia. Qed.

(** Assembling the four sextets of a 24-bit value gives the value back. *)
Lemma quantum_val_sextets (val : Z) :
  0 <= val < 2 ^ 24 ->
  quantum_val [ Z.land (Z.shiftr val 18) 63; Z.land (Z.shiftr val 12) 63;
                Z.land (Z.shiftr val 6) 63; Z.land val 63 ] = val.
Proof.
  intros Hv. change (2 ^ 24) with 16777216 in Hv.
  unfold quantum_val. cbn [nth].
  to_arith. Z.div_mod_to_equations. lia.
Qed.

Lemma z2b_mod (v : Z) (c : byte) : v mod 256 = b2z c -> z2b v = c.
Proof.
  intros Hv. rewrite <- (z2b_b2z c). unfold z2b.
  rewrite Hv. rewrite (Z.mod_small (b2z c)) by apply b2z_range.
  reflexivity.
Qed.

Ltac dec_step :=
  cbn [Decode_from app];
  rewrite decodeMap_enc64 by apply sextet_range;
  cbn [length app Nat.eqb].

Ltac byte_bounds :=
  repeat match goal with
  | c : byte |- _ =>
      lazymatch goal with
      | H : 0 <= b2z c < 256 |- _ => fail
      | _ => pose proof (b2z_range c)
      end
  end.

Lemma Decode_group (a b c : byte) (rest : list byte) :
  let val := Z.lor (Z.lor (Z.shiftl (b2z a) 16) (Z.shiftl (b2z b) 8)) (b2z c) in
  Decode_from (encode_val val ++ rest) [] =
  option_map (app [a; b; c]) (Decode_from rest []).
Proof.
  intros val. byte_bounds.
  assert (Hval : val = b2z a * 65536 + b2z b * 256 + b2z c).
  { subst val. to_arith. reflexivity. }
  assert (Hr : 0 <= val < 2 ^ 24) by (change (2 ^ 24) with 16777216; lia).
  unfold encode_val. do 4 dec_step.
  match goal with
  | |- context [quantum_bytes ?d 3] =>
      assert (E : quantum_bytes d 3 = [a; b; c]); [|now rewrite E]
  end.
  unfold quantum_bytes. rewrite quantum_val_sextets by exact Hr.
  cbn [firstn]. rewrite Hval.
  repeat f_equal; apply z2b_mod; to_arith; Z.div_mod_to_equations; lia.
Qed.

Lemma Decode_tail1 (a : byte) : Decode (EncodeToString [a]) = Some [a].
Proof.
  byte_bounds. unfold Decode. cbn [EncodeToString]. do 2 dec_step.
  cbn. f_equal. f_equal. apply z2b_mod.
  unfold quantum_val. cbn [nth].
  change (Z.shiftl 0 6) with 0. rewrite !Z.lor_0_r.
  to_arith. Z.div_mod_to_equations. lia.
Qed.

Lemma Decode_tail2 (a b : byte) : Decode (EncodeToString [a; b]) = Some [a; b].
Proof.
  byte_bounds. unfold Decode. cbn [EncodeToString]. do 3 dec_step.
  cbn [Decode_from decodeMap]. cbn.
  unfold quantum_val. cbn [nth]. rewrite !Z.lor_0_r.
  f_equal. f_equal; [|f_equal]; apply z2b_mod; to_arith;
    Z.div_mod_to_equations; lia.
Qed.

(** [Decode] undoes [EncodeToString]. *)
Lemma Decode_EncodeToString (src : list byte) :
  Decode (EncodeToString src) = Some src.
Proof.
  induction src as [|a|a b|a b c rest IH] using list_ind3.
  - reflexivity.
  - apply Decode_tail1.
  - apply Decode_tail2.
  - unfold Decode in *. cbn [EncodeToString].
    rewrite Decode_group, IH. reflexivity.
Qed.

(** ** The two paste protocols *)

Lemma pasteEnd_tail_no_ESC : Forall (fun d => d <> ESC) (bytes "[201~").
Proof. repeat constructor; discriminate. Qed.

Lemma pasteEnd_no_newline : Forall (fun e => e <> x0a /\ e <> x0d) pasteEnd.
Proof. repeat constructor; discriminate. Qed.

(** In [pasteBegin ++ P ++ pasteEnd], with no end marker inside [P], the
    first end marker is the closing one. *)
Lemma index_bracketed (P : list byte) :
  index_opt P pasteEnd = None ->
  index_opt (pasteBegin ++ P ++ pasteEnd) pasteEnd =
  Some (length (pasteBegin ++ P)).
Proof.
  intros HP.
  rewrite index_opt_after.
  - rewrite index_opt_after.
    + rewrite index_opt_here by apply (HasPrefix_app pasteEnd []).
      cbn [option_map]. f_equal. rewrite length_app. lia.
    + intros k Hk.
      change pasteEnd with (ESC :: bytes "[201~").
      rewrite HasPrefix_no_straddle.
      * apply index_opt_None_suffix, HP.
      * now apply skipn_nonempty.
      * apply pasteEnd_tail_no_ESC.
  - intros k Hk. cbn in Hk.
    do 6 (destruct k as [|k]; [reflexivity|]). lia.
Qed.

Lemma ReplaceCRLF_bracketed (P : list byte) :
  ReplaceCRLF (pasteBegin ++ P ++ pasteEnd) =
  pasteBegin ++ ReplaceCRLF P ++ pasteEnd.
Proof. now rewrite !ReplaceCRLF_app. Qed.

Lemma Index_bracketed (P : list byte) :
  Contains P pasteEnd = false ->
  Index (ReplaceCRLF (pasteBegin ++ P ++ pasteEnd)) pasteEnd =
  len (pasteBegin ++ ReplaceCRLF P).
Proof.
  intros HP. unfold Index. rewrite ReplaceCRLF_bracketed, index_bracketed.
  - reflexivity.
  - rewrite index_opt_ReplaceCRLF by apply pasteEnd_no_newline.
    now apply Contains_false.
Qed.

(** The header of an OSC-52 reply for the clipboard register. *)
Lemma pasteSet_split (str : list byte) :
  pasteSet "c"%byte str =
  (ESC :: bytes "]52;c;") ++ str ++ pasteOSC52End.
Proof. reflexivity. Qed.

Lemma index_osc52 (str : list byte) :
  Forall (fun c => c <> ESC) str ->
  index_opt (pasteSet "c"%byte str) pasteOSC52End =
  Some (length ((ESC :: bytes "]52;c;") ++ str)).
Proof.
  intros Hstr.
  change (pasteSet "c"%byte str)
    with (ESC :: (bytes "]52;c;" ++ str) ++ pasteOSC52End).
  rewrite index_opt_skip by reflexivity.
  rewrite index_opt_after.
  - rewrite index_opt_here by apply (HasPrefix_app pasteOSC52End []).
    cbn [option_map]. f_equal. cbn [length app]. rewrite !length_app. cbn. lia.
  - intros k Hk. apply HasPrefix_skipn_neq; [|exact Hk].
    apply Forall_app. split; [|exact Hstr].
    repeat constructor; discriminate.
Qed.

(** ** Slices *)

Lemma len_app {A} (a b : list A) : len (a ++ b) = len a + len b.
Proof. unfold len. rewrite length_app. lia. Qed.

Lemma len_nonneg {A} (a : list A) : 0 <= len a.
Proof. unfold len. lia. Qed.

Lemma slice_to_len_app {A} (a b : list A) : slice_to (len a) (a ++ b) = a.
Proof.
  unfold slice_to, len. rewrite Nat2Z.id. apply take_app_length.
Qed.

Lemma slice_from_len_app {A} (a b : list A) : slice_from (len a) (a ++ b) = b.
Proof.
  unfold slice_from, len. rewrite Nat2Z.id. apply drop_app_length.
Qed.

Lemma slice_to_all {A} (a : list A) : slice_to (len a) a = a.
Proof. unfold slice_to, len. rewrite Nat2Z.id. apply firstn_all. Qed.

Lemma slice_from_all {A} (a : list A) : slice_from (len a) a = [].
Proof. unfold slice_from, len. rewrite Nat2Z.id. apply skipn_all. Qed.

Section ParserFacts.
Context `{Collaborators}.

(** ** Sub-parsers on the paste sequences *)

Lemma parseBracketedPaste_whole (t : tScreen) (P : list byte) (evs : list Event) :
  Contains P pasteEnd = false ->
  parseBracketedPaste (t, pasteBegin ++ P ++ pasteEnd, evs) =
  (true, true,
   (set_escbuf [] t, [],
    evs ++ [NewEventPaste (ReplaceCRLF P)
              (escbuf t ++ pasteBegin ++ P ++ pasteEnd)])).
Proof.
  intros HP. unfold parseBracketedPaste. cbv zeta.
  rewrite Index_bracketed by exact HP.
  rewrite ReplaceCRLF_bracketed, HasPrefix_app. cbn [orb].
  assert (Hidx : (negb (len (pasteBegin ++ ReplaceCRLF P) =? -1)
                  && (len pasteBegin <=? len (pasteBegin ++ ReplaceCRLF P)))
                 = true).
  { rewrite len_app. pose proof (len_nonneg (ReplaceCRLF P)).
    pose proof (len_nonneg pasteBegin).
    apply andb_true_intro. split.
    - apply negb_true_iff, Z.eqb_neq. lia.
    - apply Z.leb_le. lia. }
  rewrite Hidx.
  assert (Hn : len (pasteBegin ++ ReplaceCRLF P) + len pasteEnd =
               len (pasteBegin ++ P ++ pasteEnd)).
  { rewrite !len_app. unfold len. rewrite ReplaceCRLF_length. lia. }
  rewrite Hn, slice_to_all, slice_from_all.
  rewrite (app_assoc pasteBegin (ReplaceCRLF P) pasteEnd), slice_to_len_app.
  change (len pasteBegin) with (len pasteBegin + 0).
  replace (slice_from (len pasteBegin + 0) (pasteBegin ++ ReplaceCRLF P))
    with (ReplaceCRLF P)
    by (rewrite Z.add_0_r; symmetry; apply slice_from_len_app).
  reflexivity.
Qed.

Lemma parseOSC52Paste_echo (t : tScreen) (text : list byte) (evs : list Event) :
  let inp := pasteSet "c"%byte (EncodeToString text) in
  parseOSC52Paste (t, inp, evs) =
  (true, true,
   (set_escbuf [] t, [], evs ++ [NewEventPaste text (escbuf t ++ inp)])).
Proof.
  intros inp. unfold parseOSC52Paste. cbv zeta.
  assert (Hpre : HasPrefix inp pasteOSC52Begin = true) by reflexivity.
  rewrite Hpre. cbn [orb].
  unfold Index. subst inp.
  rewrite index_osc52 by apply EncodeToString_no_ESC.
  fold (len ((ESC :: bytes "]52;c;") ++ EncodeToString text)).
  assert (Hle : (len pasteOSC52Begin + 2 <=?
                 len ((ESC :: bytes "]52;c;") ++ EncodeToString text)) = true).
  { apply Z.leb_le. rewrite len_app.
    pose proof (len_nonneg (EncodeToString text)).
    change (len pasteOSC52Begin) with 5. change (len (ESC :: bytes "]52;c;")) with 7.
    lia. }
  rewrite Hle.
  rewrite pasteSet_split.
  rewrite (app_assoc (ESC :: bytes "]52;c;")), slice_to_len_app, slice_from_len_app.
  change (slice_from (len pasteOSC52Begin + 2)
            ((ESC :: bytes "]52;c;") ++ EncodeToString text))
    with (EncodeToString text).
  rewrite Decode_EncodeToString.
  reflexivity.
Qed.

(** ** Passes of the scan loop *)

Lemma paste_gate_ESC (t : tScreen) (rest : list byte) (evs : list Event) :
  (if paste t then parsePaste (t, ESC :: rest, evs)
   else Ok (false, (t, ESC :: rest, evs))) =
  Ok (false, (t, ESC :: rest, evs)).
Proof. destruct (paste t); reflexivity. Qed.

Lemma scanStep_bracketed (t : tScreen) (P : list byte) (expire : bool)
    (res : list Event) :
  Contains P pasteEnd = false ->
  scanStep expire (t, pasteBegin ++ P ++ pasteEnd, res) =
  Ok (true,
      (set_escbuf [] t, [],
       res ++ [NewEventPaste (ReplaceCRLF P)
                 (escbuf t ++ pasteBegin ++ P ++ pasteEnd)])).
Proof.
  intros HP.
  pose proof (parseBracketedPaste_whole t P res HP) as Hb.
  change (pasteBegin ++ P ++ pasteEnd)
    with (ESC :: bytes "[200~" ++ P ++ pasteEnd) in *.
  unfold scanStep. rewrite paste_gate_ESC. cbn [bindR].
  change (parseOSC52Paste (t, ESC :: bytes "[200~" ++ P ++ pasteEnd, res))
    with (false, false, (t, ESC :: bytes "[200~" ++ P ++ pasteEnd, res)).
  cbn [attempt]. rewrite Hb. reflexivity.
Qed.

Lemma scanStep_osc52 (t : tScreen) (text : list byte) (expire : bool)
    (res : list Event) :
  let inp := pasteSet "c"%byte (EncodeToString text) in
  scanStep expire (t, inp, res) =
  Ok (true,
      (set_escbuf [] t, [], res ++ [NewEventPaste text (escbuf t ++ inp)])).
Proof.
  intros inp.
  pose proof (parseOSC52Paste_echo t text res) as Ho. cbv zeta in Ho.
  fold inp in Ho. subst inp.
  change (pasteSet "c"%byte (EncodeToString text))
    with (ESC :: bytes "]52;c;" ++ EncodeToString text ++ pasteOSC52End) in *.
  unfold scanStep. rewrite paste_gate_ESC. cbn [bindR].
  rewrite Ho. reflexivity.
Qed.

Lemma scanStep_empty (t : tScreen) (expire : bool) (res : list Event) :
  scanStep expire (t, [], res) = Ok (false, (t, [], res)).
Proof. reflexivity. Qed.

(** A pass that empties the buffer is the last but one: the next pass
    returns. *)
Lemma collectLoop_last (fuel : nat) (expire : bool) (s : PS) (t' : tScreen)
    (res' : list Event) :
  scanStep expire s = Ok (true, (t', [], res')) ->
  collectLoop (S (S fuel)) expire s = Ok (t', [], res').
Proof.
  intros Hs. cbn [collectLoop]. rewrite Hs. cbn [bindR].
  rewrite scanStep_empty. reflexivity.
Qed.

Lemma written_TPuts (s : list byte) (t : tScreen) :
  written (TPuts s t) = written t ++ [TPutsOut s].
Proof.
  unfold written, TPuts. destruct (buffering t) eqn:Hb; cbn; now rewrite Hb.
Qed.

Lemma written_writeString (s : list byte) (t : tScreen) :
  written (writeString s t) = written t ++ [WriteOut s].
Proof.
  unfold written, writeString.
  destruct (buffering t) eqn:Hb; cbn; now rewrite Hb.
Qed.

(** C2. For every payload [P] that does not contain the end marker, the
    input [pasteBegin ++ P ++ pasteEnd] gives exactly one event, the paste
    whose text is [P] with every byte CR (0x0d) replaced by LF (0x0a) and
    every other byte as it is; the whole input is consumed into the raw
    bytes of that event and no key event is made from the payload.  This
    holds in every state of the parser, with or without expiry. *)
Theorem C2_bracketed_paste_single_event (t : tScreen) (P : list byte)
    (expire : bool) (fuel : nat) :
  Contains P pasteEnd = false ->
  collectEventsFromInput (S (S fuel)) t (pasteBegin ++ P ++ pasteEnd) expire =
  Ok ([NewEventPaste (map (fun c => if Byte.eqb c x0d then x0a else c) P)
         (escbuf t ++ pasteBegin ++ P ++ pasteEnd)],
      set_escbuf [] t, []).
Proof.
  intros HP. unfold collectEventsFromInput.
  rewrite (collectLoop_last fuel expire _ _ _ (scanStep_bracketed t P expire [] HP)).
  reflexivity.
Qed.

(** C6. For every text, the OSC-52 sequence that [SetClipboard] sends for
    the clipboard register, fed back as input, gives exactly one paste
    event with that text; [SetClipboard] sends that sequence last. *)
Theorem C6_osc52_round_trip (t : tScreen) (text : list byte) (expire : bool)
    (fuel : nat) :
  written (fst (SetClipboard text (bytes "c") t)) =
    written t ++ [TPutsOut (pasteClear "c"%byte);
                  TPutsOut (pasteSet "c"%byte (EncodeToString text))] /\
  collectEventsFromInput (S (S fuel)) t
    (pasteSet "c"%byte (EncodeToString text)) expire =
    Ok ([NewEventPaste text
           (escbuf t ++ pasteSet "c"%byte (EncodeToString text))],
        set_escbuf [] t, []).
Proof.
  split.
  - change (fst (SetClipboard text (bytes "c") t))
      with (TPuts (pasteSet "c"%byte (EncodeToString text))
              (TPuts (pasteClear "c"%byte) t)).
    rewrite !written_TPuts, <- app_assoc. reflexivity.
  - unfold collectEventsFromInput.
    rewrite (collectLoop_last fuel expire _ _ _ (scanStep_osc52 t text expire [])).
    reflexivity.
Qed.

(** ** The key table and the raw sequences *)

Lemma bytes_eqb_eq (a b : list byte) : bytes_eqb a b = true <-> a = b.
Proof.
  revert b. induction a as [|c a IH]; intros [|d b]; cbn [bytes_eqb];
    try (split; [discriminate | congruence]); [tauto|].
  rewrite andb_true_iff, byte_eqb_eq, IH. split.
  - intros [-> ->]. reflexivity.
  - intros E. injection E as -> ->. tauto.
Qed.

Lemma find_rawseq_none (rs : list (list byte)) (b : list byte) :
  no_rawseq_prefix rs b = true -> find (fun r => HasPrefix b r) rs = None.
Proof.
  unfold no_rawseq_prefix.
  induction rs as [|r rs IH]; [reflexivity|].
  cbn [forallb find]. intros Hno.
  apply andb_true_iff in Hno as [Hr Hrs].
  apply negb_true_iff in Hr. rewrite Hr. now apply IH.
Qed.

Lemma functionKeyLoop_none (kcs : list (list byte * tKeyCode)) (b : list byte)
    (partial : bool) :
  no_key_prefix kcs b = true ->
  exists p, functionKeyLoop kcs b partial = (p, None).
Proof.
  revert partial. induction kcs as [|[esc k] kcs IH]; intros partial Hno.
  - exists partial. reflexivity.
  - unfold no_key_prefix in *. cbn [forallb fst] in Hno.
    apply andb_true_iff in Hno as [He Hkcs].
    cbn [functionKeyLoop].
    destruct (Nat.eqb (length esc) 1 && Byte.eqb (hd x00 esc) ESC) eqn:Hskip.
    + now apply IH.
    + apply orb_true_iff in He as [He | He].
      * apply bytes_eqb_eq in He. subst esc. discriminate Hskip.
      * apply negb_true_iff in He. rewrite He. now apply IH.
Qed.

Lemma parseFunctionKey_none (t : tScreen) (inp : list byte) (evs : list Event) :
  no_key_prefix (keycodes t) inp = true ->
  exists p, parseFunctionKey (t, inp, evs) = (p, false, (t, inp, evs)).
Proof.
  intros Hno. unfold parseFunctionKey.
  destruct (functionKeyLoop_none _ _ false Hno) as [p Hp].
  rewrite Hp. now exists p.
Qed.

(** A table without the empty sequence has no entry, the lone ESC apart,
    that is a prefix of a lone ESC. *)
Lemma keycodes_nonempty_lone_ESC (kcs : list (list byte * tKeyCode)) :
  keycodes_nonempty kcs = true -> no_key_prefix kcs [ESC] = true.
Proof.
  unfold keycodes_nonempty, no_key_prefix.
  induction kcs as [|[esc k] kcs IH]; [reflexivity|].
  cbn [forallb fst]. intros Hne.
  apply andb_true_iff in Hne as [He Hkcs].
  rewrite (IH Hkcs), andb_true_r.
  destruct esc as [|c [|d esc]]; [discriminate He | |].
  - cbn [bytes_eqb HasPrefix]. rewrite !andb_true_r.
    destruct (Byte.eqb c ESC) eqn:E; [reflexivity|].
    cbn [orb]. apply negb_true_iff.
    destruct (Byte.eqb ESC c) eqn:E'; [|reflexivity].
    apply byte_eqb_eq in E'. subst c. discriminate E.
  - cbn [bytes_eqb HasPrefix]. now rewrite !andb_false_r.
Qed.

(** [prepareKeyMod] and [prepareKeyModReplace] keep the empty sequence out
    of the key table. *)
Lemma keycodes_store_nonempty (kcs : list (list byte * tKeyCode))
    (val : list byte) (k : tKeyCode) :
  keycodes_nonempty kcs = true -> nonempty val = true ->
  keycodes_nonempty (keycodes_store kcs val k) = true.
Proof.
  unfold keycodes_nonempty. intros Hk Hv.
  induction kcs as [|[e k0] kcs IH].
  - cbn. now rewrite Hv.
  - cbn [forallb fst] in Hk.
    apply andb_true_iff in Hk as [He Hk].
    cbn [keycodes_store]. destruct (bytes_eqb e val);
      cbn [forallb fst]; rewrite He; cbn [andb];
      [exact Hk | now apply IH].
Qed.

Lemma prepareKeyMod_nonempty (key md : Z) (val : list byte) (t : tScreen) :
  keycodes_nonempty (keycodes t) = true ->
  keycodes_nonempty (keycodes (prepareKeyMod key md val t)) = true.
Proof.
  intros Hk. unfold prepareKeyMod.
  destruct (nonempty val) eqn:Hv; [|exact Hk].
  destruct (keycodes_lookup (keycodes t) val); [exact Hk|].
  cbn. now apply keycodes_store_nonempty.
Qed.

Lemma prepareKeyModReplace_nonempty (key replace md : Z) (val : list byte)
    (t : tScreen) :
  keycodes_nonempty (keycodes t) = true ->
  keycodes_nonempty (keycodes (prepareKeyModReplace key replace md val t)) = true.
Proof.
  intros Hk. unfold prepareKeyModReplace.
  destruct (nonempty val) eqn:Hv; [|exact Hk].
  destruct (keycodes_lookup (keycodes t) val) as [old|].
  - destruct (kc_key old =? replace); [|exact Hk].
    cbn. now apply keycodes_store_nonempty.
  - cbn. now apply keycodes_store_nonempty.
Qed.

Lemma prepareControlKeys_nonempty (t : tScreen) :
  keycodes_nonempty (keycodes t) = true ->
  keycodes_nonempty (keycodes (prepareControlKeys t)) = true.
Proof.
  unfold prepareControlKeys. generalize (map Z.of_nat (seq 0 32)).
  intros l. revert t. induction l as [|i l IH]; intros t Hk; [exact Hk|].
  cbn [fold_left]. apply IH. unfold prepareControlKey.
  destruct (existsb _ _); [exact Hk|].
  cbn. now apply keycodes_store_nonempty.
Qed.

(** ** A lone ESC *)

Lemma parseXtermMouse_lone_ESC (t : tScreen) (res : list Event) :
  exists p, parseXtermMouse (t, [ESC], res) = (p, false, (t, [ESC], res)).
Proof.
  unfold parseXtermMouse. destruct (escaped t); eexists; reflexivity.
Qed.

Lemma parseSgrMouse_lone_ESC (t : tScreen) (res : list Event) :
  exists p, parseSgrMouse (t, [ESC], res) = (p, false, (t, [ESC], res)).
Proof.
  unfold parseSgrMouse. destruct (escaped t); eexists; reflexivity.
Qed.

Lemma scanStep_lone_ESC_wait (t : tScreen) (res : list Event) :
  keycodes_nonempty (keycodes t) = true ->
  scanStep false (t, [ESC], res) = Ok (false, (t, [ESC], res)).
Proof.
  intros Hk. apply keycodes_nonempty_lone_ESC in Hk.
  destruct (parseFunctionKey_none t [ESC] res Hk) as [p Hp].
  unfold scanStep. rewrite paste_gate_ESC. cbn [bindR].
  change (parseOSC52Paste (t, [ESC], res)) with (true, false, (t, [ESC], res)).
  cbn [attempt].
  change (parseBracketedPaste (t, [ESC], res))
    with (true, false, (t, [ESC], res)).
  cbn [attempt].
  change (parseRune (t, [ESC], res)) with (Ok (false, false, (t, [ESC], res))).
  cbn [bindR attempt]. rewrite Hp. cbn [attempt fst].
  destruct (parseXtermMouse_lone_ESC t res) as [px Hpx].
  destruct (parseSgrMouse_lone_ESC t res) as [ps Hps].
  destruct (Nat.eqb (length (terminfo.Mouse (ti t))) 0); cbn [negb].
  - now destruct p.
  - rewrite Hpx. cbn [attempt]. rewrite Hps. cbn [attempt].
    now destruct p, px, ps.
Qed.

Lemma scanStep_lone_ESC_expired (t : tScreen) (res : list Event) :
  keycodes_nonempty (keycodes t) = true ->
  no_rawseq_prefix (rawseq t) [ESC] = true ->
  scanStep true (t, [ESC], res) =
  Ok (true,
      (set_escbuf [ESC] (set_escaped false t), [],
       res ++ [NewEventKey KeyEsc 0 ModNone [ESC]])).
Proof.
  intros Hk Hr. apply keycodes_nonempty_lone_ESC in Hk.
  destruct (parseFunctionKey_none t [ESC] res Hk) as [p Hp].
  apply find_rawseq_none in Hr.
  assert (Hfb : scanFallback (t, [ESC], res) =
                (set_escbuf [ESC] (set_escaped false t), [],
                 res ++ [NewEventKey KeyEsc 0 ModNone [ESC]])).
  { unfold scanFallback. cbn [hd]. rewrite byte_eqb_refl, Hr. reflexivity. }
  unfold scanStep. rewrite paste_gate_ESC. cbn [bindR].
  change (parseOSC52Paste (t, [ESC], res)) with (true, false, (t, [ESC], res)).
  cbn [attempt].
  change (parseBracketedPaste (t, [ESC], res))
    with (true, false, (t, [ESC], res)).
  cbn [attempt].
  change (parseRune (t, [ESC], res)) with (Ok (false, false, (t, [ESC], res))).
  cbn [bindR attempt]. rewrite Hp. cbn [attempt fst].
  destruct (parseXtermMouse_lone_ESC t res) as [px Hpx].
  destruct (parseSgrMouse_lone_ESC t res) as [ps Hps].
  destruct (Nat.eqb (length (terminfo.Mouse (ti t))) 0); cbn [negb].
  - now rewrite orb_true_r, Hfb.
  - rewrite Hpx. cbn [attempt]. rewrite Hps. cbn [attempt].
    now rewrite orb_true_r, Hfb.
Qed.

(** C1 (amended).  The buffer holds the single byte ESC.  A pass without
    expiry emits nothing and keeps the byte.  A pass with expiry emits the
    single event Key(Esc) with no modifier and raw bytes ESC, and consumes
    the byte, provided no registered raw sequence is a prefix of the buffer.
    Neither the paste mode nor the [escaped] flag matters. *)
Theorem C1_lone_ESC_resolves_on_expiry (t : tScreen) (fuel : nat) :
  keycodes_nonempty (keycodes t) = true ->
  no_rawseq_prefix (rawseq t) [ESC] = true ->
  collectEventsFromInput (S fuel) t [ESC] false = Ok ([], t, [ESC]) /\
  collectEventsFromInput (S (S fuel)) t [ESC] true =
    Ok ([NewEventKey KeyEsc 0 ModNone [ESC]],
        set_escbuf [ESC] (set_escaped false t), []).
Proof.
  intros Hk Hr. split.
  - unfold collectEventsFromInput. cbn [collectLoop].
    rewrite scanStep_lone_ESC_wait by exact Hk. reflexivity.
  - unfold collectEventsFromInput.
    rewrite (collectLoop_last fuel true _ _ _
               (scanStep_lone_ESC_expired t [] Hk Hr)).
    reflexivity.
Qed.

(** ** Mouse events stay inside the screen *)

Lemma clip_bounds (t : tScreen) (x y sw sh : Z) :
  cells_Size (cells t) = (sw, sh) ->
  1 <= sw -> 1 <= sh -> int_ok sw -> int_ok sh ->
  0 <= fst (clip t x y) <= sw - 1 /\ 0 <= snd (clip t x y) <= sh - 1.
Proof.
  intros Hsz Hw Hh Hiw Hih. unfold clip. rewrite Hsz.
  rewrite !wrap64_small by (unfold int_ok in *; lia).
  cbn [fst snd].
  destruct (x <? 0) eqn:Ex, (y <? 0) eqn:Ey;
    repeat match goal with
    | |- context [?a >? ?b] => destruct (Z.gtb_spec a b)
    end;
    rewrite ?Z.ltb_lt, ?Z.ltb_ge in *; lia.
Qed.

Lemma clip_inside (t : tScreen) (x y sw sh : Z) :
  cells_Size (cells t) = (sw, sh) ->
  int_ok sw -> int_ok sh ->
  0 <= x <= sw - 1 -> 0 <= y <= sh - 1 ->
  clip t x y = (x, y).
Proof.
  intros Hsz Hiw Hih Hx Hy. unfold clip. rewrite Hsz.
  rewrite !wrap64_small by (unfold int_ok in *; lia).
  destruct (Z.ltb_spec x 0), (Z.ltb_spec y 0); try lia.
  destruct (Z.gtb_spec x (sw - 1)), (Z.gtb_spec y (sh - 1)); try lia.
  reflexivity.
Qed.

Lemma consume_escbuf (n : nat) (t : tScreen) (inp : list byte) :
  exists esc, fst (consume n t inp) = set_escbuf esc t.
Proof.
  unfold consume. destruct (readInto n inp (escbuf t)) as [inp' esc'].
  now exists esc'.
Qed.

Lemma consume_enough (n : nat) (t : tScreen) (inp : list byte) :
  (n <= length inp)%nat ->
  consume n t inp = (set_escbuf (escbuf t ++ firstn n inp) t, skipn n inp).
Proof.
  intros Hn. unfold consume. now rewrite readInto_enough.
Qed.

Lemma buildMouseEvent_state (t : tScreen) (x y btn : Z) :
  exists wb, fst (buildMouseEvent t x y btn) = set_escbuf [] (set_wasbtn wb t).
Proof.
  unfold buildMouseEvent.
  repeat match goal with
  | |- context [if ?c then _ else _] => destruct c
  end;
  destruct (clip t x y); eexists; reflexivity.
Qed.

Lemma buildMouseEvent_in_screen (t : tScreen) (x y btn sw sh : Z) :
  cells_Size (cells t) = (sw, sh) ->
  1 <= sw -> 1 <= sh -> int_ok sw -> int_ok sh ->
  mouse_in_screen sw sh (snd (buildMouseEvent t x y btn)).
Proof.
  intros Hsz Hw Hh Hiw Hih.
  pose proof (clip_bounds t x y sw sh Hsz Hw Hh Hiw Hih) as Hc.
  unfold buildMouseEvent.
  destruct (clip t x y) as [x' y'].
  repeat match goal with
  | |- context [if ?c then _ else _] => destruct c
  end; exact Hc.
Qed.

Section ScanInvariant.
Variables sw sh : Z.
Hypothesis Hw : 1 <= sw.
Hypothesis Hh : 1 <= sh.
Hypothesis Hiw : int_ok sw.
Hypothesis Hih : int_ok sh.

Lemma scan_inv_mouse (t t0 : tScreen) (inp inp' : list byte)
    (evs : list Event) (x y btn : Z) :
  scan_inv sw sh (t, inp, evs) ->
  cells t0 = cells t ->
  scan_inv sw sh
    (fst (buildMouseEvent t0 x y btn), inp',
     evs ++ [snd (buildMouseEvent t0 x y btn)]).
Proof.
  intros [Hsz Hev] Hcells. cbn [fst snd] in *. split; cbn [fst snd].
  - destruct (buildMouseEvent_state t0 x y btn) as [wb ->]. cbn.
    now rewrite Hcells.
  - apply Forall_app. split; [exact Hev|]. constructor; [|constructor].
    apply buildMouseEvent_in_screen; try assumption. now rewrite Hcells.
Qed.

(** Adding an event that is no mouse event, in a state with the same cell
    buffer, keeps the invariant. *)
Lemma scan_inv_other (t t' : tScreen) (inp inp' : list byte)
    (evs : list Event) (ev : Event) :
  scan_inv sw sh (t, inp, evs) ->
  cells t' = cells t ->
  is_mouse_event ev = false ->
  scan_inv sw sh (t', inp', evs ++ [ev]).
Proof.
  intros [Hsz Hev] Hcells Hnm. cbn [fst snd] in *. split; cbn [fst snd].
  - now rewrite Hcells.
  - apply Forall_app. split; [exact Hev|]. constructor; [|constructor].
    destruct ev; try exact I. discriminate Hnm.
Qed.

Lemma scan_inv_same (t t' : tScreen) (inp inp' : list byte) (evs : list Event) :
  scan_inv sw sh (t, inp, evs) ->
  cells t' = cells t ->
  scan_inv sw sh (t', inp', evs).
Proof.
  intros [Hsz Hev] Hcells. split; cbn [fst snd] in *; [|exact Hev].
  now rewrite Hcells.
Qed.

Lemma consume_cells (n : nat) (t : tScreen) (inp : list byte) :
  cells (fst (consume n t inp)) = cells t.
Proof. destruct (consume_escbuf n t inp) as [esc ->]. reflexivity. Qed.

Lemma parseSgrMouse_inv (s : PS) :
  scan_inv sw sh s -> scan_inv sw sh (snd (parseSgrMouse s)).
Proof.
  destruct s as [[t inp] evs]. intros Hinv. unfold parseSgrMouse.
  destruct (sgrLoop inp 0 _) as [| |i v c]; cbn [snd]; try exact Hinv.
  match goal with
  | |- context [let '(_, _) := ?e in _] => destruct e as [btn t1] eqn:E1
  end.
  assert (Ht1 : cells t1 = cells t).
  { repeat match type of E1 with
    | context [if ?c then _ else _] => destruct c
    end; injection E1 as _ <-; reflexivity. }
  pose proof (consume_cells (S i) t1 inp) as Hc.
  destruct (consume (S i) t1 inp) as [t2 inp2]. cbn [fst] in Hc.
  pose proof (scan_inv_mouse t t2 inp inp2 evs (sg_x v) (sg_y v) btn Hinv) as Hm.
  destruct (buildMouseEvent t2 (sg_x v) (sg_y v) btn) as [t3 ev].
  cbn [snd fst] in *. apply Hm. congruence.
Qed.

Lemma parseXtermMouse_inv (s : PS) :
  scan_inv sw sh s -> scan_inv sw sh (snd (parseXtermMouse s)).
Proof.
  destruct s as [[t inp] evs]. intros Hinv. unfold parseXtermMouse.
  destruct (xtermLoop inp 0 _ 0 0 0) as [| |i x y btn]; cbn [snd];
    try exact Hinv.
  pose proof (consume_cells (S i) t inp) as Hc.
  destruct (consume (S i) t inp) as [t1 inp1]. cbn [fst] in Hc.
  pose proof (scan_inv_mouse t t1 inp inp1 evs x y btn Hinv Hc) as Hm.
  destruct (buildMouseEvent t1 x y btn) as [t2 ev]. exact Hm.
Qed.

Lemma parseFunctionKey_inv (s : PS) :
  scan_inv sw sh s -> scan_inv sw sh (snd (parseFunctionKey s)).
Proof.
  destruct s as [[t inp] evs]. intros Hinv. unfold parseFunctionKey.
  destruct (functionKeyLoop (keycodes t) inp false) as [p [[esc k]|]];
    cbn [snd]; try exact Hinv.
  destruct (escaped t);
    match goal with
    | |- context [consume ?n ?t1 inp] =>
        pose proof (consume_cells n t1 inp) as Hc;
        destruct (consume n t1 inp) as [t2 inp2]
    end; cbn [fst snd] in *;
    (eapply scan_inv_other; [exact Hinv | cbn; exact Hc | reflexivity]).
Qed.

Lemma decodeLoop_inv (k l : nat) (s : PS) :
  scan_inv sw sh s -> scan_inv sw sh (snd (decodeLoop k l s)).
Proof.
  revert l. induction k as [|k IH]; intros l Hinv;
    destruct s as [[t inp] evs]; cbn [decodeLoop]; [exact Hinv|].
  destruct (dec_short _); [apply IH, Hinv|].
  destruct (negb (dec_nout _ =? 0)); [|apply IH, Hinv].
  destruct (negb (dec_rune _ =? RuneError)).
  - destruct (escaped t);
      match goal with
      | |- context [consume ?n ?t1 inp] =>
          pose proof (consume_cells n t1 inp) as Hc;
          destruct (consume n t1 inp) as [t2 inp2]
      end; cbn [fst snd] in *;
      (eapply scan_inv_other; [exact Hinv | exact Hc | reflexivity]).
  - pose proof (consume_cells (dec_nin (decoder t (firstn l inp))) t inp) as Hc.
    destruct (consume _ t inp) as [t2 inp2]. cbn [fst snd] in *.
    eapply scan_inv_same; [exact Hinv | exact Hc].
Qed.

Lemma parseRune_inv (s : PS) (r : bool * bool * PS) :
  scan_inv sw sh s -> parseRune s = Ok r -> scan_inv sw sh (snd r).
Proof.
  destruct s as [[t inp] evs]. intros Hinv. unfold parseRune.
  destruct inp as [|b0 rest]; [discriminate|].
  pose proof (decodeLoop_inv (length (b0 :: rest)) 1 _ Hinv) as Hd.
  set (d := decodeLoop _ _ _) in *. clearbody d.
  destruct (_ && _).
  - destruct (escaped t);
      match goal with
      | |- context [consume ?n ?t1 ?i] =>
          pose proof (consume_cells n t1 i) as Hc;
          destruct (consume n t1 i) as [t2 inp2]
      end; cbn [fst snd] in *; intros [= <-]; cbn [snd];
      (eapply scan_inv_other; [exact Hinv | cbn; exact Hc | reflexivity]).
  - destruct (_ <? _); intros [= <-]; [exact Hinv | exact Hd].
Qed.

Lemma parsePaste_inv (s : PS) (r : bool * PS) :
  scan_inv sw sh s -> parsePaste s = Ok r -> scan_inv sw sh (snd r).
Proof.
  destruct s as [[t inp] evs]. intros Hinv. unfold parsePaste.
  destruct inp as [|b0 rest]; [discriminate|].
  destruct (negb _); [|intros [= <-]; exact Hinv].
  cbv zeta. destruct (1 <? _); [|intros [= <-]; exact Hinv].
  match goal with
  | |- context [consume ?n ?t1 ?i] =>
      pose proof (consume_cells n t1 i) as Hc;
      destruct (consume n t1 i) as [t2 inp2]
  end. cbn [fst snd] in *. intros [= <-]. cbn [snd].
  eapply scan_inv_other; [exact Hinv | cbn; exact Hc | reflexivity].
Qed.

Lemma parseOSC52Paste_inv (s : PS) :
  scan_inv sw sh s -> scan_inv sw sh (snd (parseOSC52Paste s)).
Proof.
  destruct s as [[t inp] evs]. intros Hinv. unfold parseOSC52Paste. cbv zeta.
  destruct (_ || _); [|exact Hinv].
  destruct (_ <=? _); [|exact Hinv].
  destruct (Decode _); cbn [snd].
  - eapply scan_inv_other; [exact Hinv | reflexivity | reflexivity].
  - eapply scan_inv_same; [exact Hinv | reflexivity].
Qed.

Lemma parseBracketedPaste_inv (s : PS) :
  scan_inv sw sh s -> scan_inv sw sh (snd (parseBracketedPaste s)).
Proof.
  destruct s as [[t inp] evs]. intros Hinv. unfold parseBracketedPaste.
  cbv zeta. destruct (_ || _); [|exact Hinv].
  destruct (_ && _); [|exact Hinv]. cbn [snd].
  eapply scan_inv_other; [exact Hinv | reflexivity | reflexivity].
Qed.

Lemma scanFallback_inv (s : PS) :
  scan_inv sw sh s -> scan_inv sw sh (scanFallback s).
Proof.
  destruct s as [[t inp] evs]. intros Hinv. unfold scanFallback. cbv zeta.
  destruct (Byte.eqb _ _).
  - destruct (find _ _).
    + eapply scan_inv_other; [exact Hinv | reflexivity | reflexivity].
    + destruct (len inp =? 1);
        match goal with
        | |- context [consume ?n ?t1 ?i] =>
            pose proof (consume_cells n t1 i) as Hc;
            destruct (consume n t1 i) as [t2 inp2]
        end; cbn [fst snd] in *.
      * eapply scan_inv_other; [exact Hinv | exact Hc | reflexivity].
      * eapply scan_inv_same; [exact Hinv | exact Hc].
  - pose proof (consume_cells 1 t inp) as Hc.
    destruct (consume 1 t inp) as [t2 inp2]. cbn [fst snd] in *.
    eapply scan_inv_other; [exact Hinv | cbn; exact Hc | reflexivity].
Qed.

Lemma attempt_inv (r : bool * bool * PS) (partials : Z)
    (k : Z -> PS -> Result (bool * PS)) (out : bool * PS) :
  scan_inv sw sh (snd r) ->
  (forall p s o, scan_inv sw sh s -> k p s = Ok o -> scan_inv sw sh (snd o)) ->
  attempt r partials k = Ok out -> scan_inv sw sh (snd out).
Proof.
  destruct r as [[part comp] s]. cbn [snd attempt]. intros Hs Hk.
  destruct comp.
  - intros [= <-]. exact Hs.
  - apply Hk, Hs.
Qed.

Lemma scanStep_inv (expire : bool) (s : PS) (o : bool * PS) :
  scan_inv sw sh s -> scanStep expire s = Ok o -> scan_inv sw sh (snd o).
Proof.
  destruct s as [[t inp] evs]. intros Hinv. unfold scanStep.
  destruct inp as [|b0 rest].
  { intros [= <-]. eapply scan_inv_same; [exact Hinv | reflexivity]. }
  set (s := (t, b0 :: rest, evs)) in *.
  assert (Hfinal : forall p s' o', scan_inv sw sh s' ->
            (if (p =? 0) || expire then Ok (true, scanFallback s')
             else Ok (false, s')) = Ok o' -> scan_inv sw sh (snd o')).
  { intros p s' o' Hs'. destruct (_ || _); intros [= <-]; cbn [snd];
      [now apply scanFallback_inv | exact Hs']. }
  match goal with
  | |- bindR ?e _ = _ -> _ => destruct e as [[pasted s1]| |] eqn:Ep
  end; cbn [bindR]; cbv beta iota; try discriminate.
  assert (Hs1 : scan_inv sw sh s1).
  { destruct (paste t).
    - exact (parsePaste_inv s _ Hinv Ep).
    - injection Ep as _ <-. exact Hinv. }
  destruct pasted; [intros [= <-]; exact Hs1|].
  apply attempt_inv; [now apply parseOSC52Paste_inv|].
  intros p2 s2 o2 Hs2. apply attempt_inv; [now apply parseBracketedPaste_inv|].
  intros p3 s3 o3 Hs3.
  match goal with
  | |- bindR ?e _ = _ -> _ => destruct e as [r| |] eqn:Er
  end; cbn [bindR]; cbv beta iota; try discriminate.
  apply attempt_inv; [exact (parseRune_inv s3 r Hs3 Er)|].
  intros p4 s4 o4 Hs4. apply attempt_inv; [now apply parseFunctionKey_inv|].
  intros p5 s5 o5 Hs5.
  destruct (negb _); [|now apply Hfinal].
  apply attempt_inv; [now apply parseXtermMouse_inv|].
  intros p6 s6 o6 Hs6. apply attempt_inv; [now apply parseSgrMouse_inv|].
  exact Hfinal.
Qed.

Lemma collectLoop_inv (fuel : nat) (expire : bool) (s s' : PS) :
  scan_inv sw sh s -> collectLoop fuel expire s = Ok s' -> scan_inv sw sh s'.
Proof.
  revert s. induction fuel as [|fuel IH]; intros s Hinv; [discriminate|].
  cbn [collectLoop].
  destruct (scanStep expire s) as [[again s1]| |] eqn:Es; cbn [bindR];
    try discriminate.
  pose proof (scanStep_inv expire s _ Hinv Es) as Hs1. cbn [snd] in Hs1.
  destruct again; [now apply IH|]. now intros [= <-].
Qed.

End ScanInvariant.

(** C10. On a screen of size [sw] by [sh], both at least 1, the event that
    [buildMouseEvent] makes from any coordinates and button state lies
    inside the screen, and so does every mouse event that a scan of any
    input delivers (X10 and SGR reports alike). *)
Theorem C10_mouse_events_clipped_to_screen (t : tScreen) (sw sh : Z) :
  cells_Size (cells t) = (sw, sh) ->
  1 <= sw -> 1 <= sh -> int_ok sw -> int_ok sh ->
  (forall x y btn,
     mouse_in_screen sw sh (snd (buildMouseEvent t x y btn)) /\
     is_mouse_event (snd (buildMouseEvent t x y btn)) = true) /\
  (forall fuel inp expire evs t' rest,
     collectEventsFromInput fuel t inp expire = Ok (evs, t', rest) ->
     Forall (mouse_in_screen sw sh) evs).
Proof.
  intros Hsz Hw Hh Hiw Hih. split.
  - intros x y btn. split.
    + now apply buildMouseEvent_in_screen.
    + unfold buildMouseEvent. destruct (clip t x y).
      repeat match goal with
      | |- context [if ?c then _ else _] => destruct c
      end; reflexivity.
  - intros fuel inp expire evs t' rest. unfold collectEventsFromInput.
    destruct (collectLoop fuel expire (t, inp, [])) as [[[t1 inp1] res1]| |] eqn:Ec;
      cbn [bindR]; try discriminate.
    intros [= <- <- <-].
    assert (Hinv : scan_inv sw sh (t, inp, [])) by (split; [exact Hsz | constructor]).
    exact (proj2 (collectLoop_inv sw sh Hw Hh Hiw Hih fuel expire _ _ Hinv Ec)).
Qed.

(** ** Mouse reports *)

Lemma buildMouseEvent_press (t : tScreen) (x y sw sh : Z) :
  cells_Size (cells t) = (sw, sh) -> int_ok sw -> int_ok sh ->
  0 <= x <= sw - 1 -> 0 <= y <= sh - 1 ->
  buildMouseEvent t x y 0 =
  (set_escbuf [] (set_wasbtn true t), NewEventMouse x y Button1 ModNone (escbuf t)).
Proof.
  intros Hsz Hiw Hih Hx Hy. unfold buildMouseEvent.
  rewrite (clip_inside t x y sw sh) by assumption. reflexivity.
Qed.

Lemma buildMouseEvent_release (t : tScreen) (x y sw sh : Z) :
  cells_Size (cells t) = (sw, sh) -> int_ok sw -> int_ok sh ->
  0 <= x <= sw - 1 -> 0 <= y <= sh - 1 ->
  buildMouseEvent t x y 3 =
  (set_escbuf [] (set_wasbtn false t),
   NewEventMouse x y ButtonNone ModNone (escbuf t)).
Proof.
  intros Hsz Hiw Hih Hx Hy. unfold buildMouseEvent.
  rewrite (clip_inside t x y sw sh) by assumption. reflexivity.
Qed.

Lemma parseSgrMouse_press (t : tScreen) (rest : list byte) (evs : list Event)
    (sw sh : Z) :
  escaped t = false ->
  cells_Size (cells t) = (sw, sh) -> int_ok sw -> int_ok sh ->
  10 <= sw -> 5 <= sh ->
  parseSgrMouse (t, sgr_press ++ rest, evs) =
  (true, true,
   (set_escbuf [] (set_wasbtn true (set_buttondn true t)), rest,
    evs ++ [NewEventMouse 9 4 Button1 ModNone (escbuf t ++ sgr_press)])).
Proof.
  intros He Hsz Hiw Hih Hw Hh. unfold parseSgrMouse. rewrite He.
  change (sgrLoop (sgr_press ++ rest) 0 (mkSgr 0 0 0 0 false false 0))
    with (SgrEnd 9 (mkSgr 9 4 0 5 true false 5) "M"%byte).
  cbv beta iota zeta.
  change (Byte.eqb "M" "m") with false.
  change (negb (Z.land (sg_btn (mkSgr 9 4 0 5 true false 5)) 32 =? 0)) with false.
  cbv beta iota.
  rewrite consume_enough by (rewrite length_app; cbn; lia).
  change (firstn 10 (sgr_press ++ rest)) with sgr_press.
  change (skipn 10 (sgr_press ++ rest)) with rest.
  change (Z.ldiff (sg_btn (mkSgr 9 4 0 5 true false 5)) 32) with 0.
  cbn [sg_x sg_y].
  rewrite (buildMouseEvent_press _ 9 4 sw sh) by (assumption || lia).
  reflexivity.
Qed.

Lemma parseSgrMouse_release (t : tScreen) (rest : list byte) (evs : list Event)
    (sw sh : Z) :
  escaped t = false ->
  cells_Size (cells t) = (sw, sh) -> int_ok sw -> int_ok sh ->
  10 <= sw -> 5 <= sh ->
  parseSgrMouse (t, sgr_release ++ rest, evs) =
  (true, true,
   (set_escbuf [] (set_wasbtn false (set_buttondn false t)), rest,
    evs ++ [NewEventMouse 9 4 ButtonNone ModNone (escbuf t ++ sgr_release)])).
Proof.
  intros He Hsz Hiw Hih Hw Hh. unfold parseSgrMouse. rewrite He.
  change (sgrLoop (sgr_release ++ rest) 0 (mkSgr 0 0 0 0 false false 0))
    with (SgrEnd 9 (mkSgr 9 4 0 5 true false 5) "m"%byte).
  cbv beta iota zeta.
  change (Byte.eqb "m" "m") with true.
  cbv beta iota.
  rewrite consume_enough by (rewrite length_app; cbn; lia).
  change (firstn 10 (sgr_release ++ rest)) with sgr_release.
  change (skipn 10 (sgr_release ++ rest)) with rest.
  change (Z.ldiff (Z.lor (Z.ldiff (sg_btn (mkSgr 9 4 0 5 true false 5)) 32) 3) 64)
    with 3.
  cbn [sg_x sg_y].
  rewrite (buildMouseEvent_release _ 9 4 sw sh) by (assumption || lia).
  reflexivity.
Qed.

(** A pass over an SGR report (press or release at column 10, row 5) on a
    terminal with mouse support. *)
Lemma scanStep_sgr (t : tScreen) (report rest : list byte) (expire : bool)
    (res : list Event) (r : bool * bool * PS) :
  report = sgr_press \/ report = sgr_release ->
  has_mouse t = true ->
  escaped t = false ->
  no_key_prefix (keycodes t) (report ++ rest) = true ->
  parseSgrMouse (t, report ++ rest, res) = r ->
  fst r = (true, true) ->
  scanStep expire (t, report ++ rest, res) = Ok (true, snd r).
Proof.
  intros Hrep Hm He Hk Hr Hcomp.
  destruct (parseFunctionKey_none t _ res Hk) as [p Hp].
  unfold has_mouse in Hm.
  destruct r as [[part comp] s']. cbn [fst snd] in *.
  injection Hcomp as -> ->.
  destruct Hrep as [-> | ->].
  - change (sgr_press ++ rest) with (ESC :: bytes "[<0;10;5M" ++ rest) in *.
    unfold scanStep. rewrite paste_gate_ESC. cbn [bindR].
    change (parseOSC52Paste (t, ESC :: bytes "[<0;10;5M" ++ rest, res))
      with (false, false, (t, ESC :: bytes "[<0;10;5M" ++ rest, res)).
    cbn [attempt].
    change (parseBracketedPaste (t, ESC :: bytes "[<0;10;5M" ++ rest, res))
      with (false, false, (t, ESC :: bytes "[<0;10;5M" ++ rest, res)).
    cbn [attempt].
    change (parseRune (t, ESC :: bytes "[<0;10;5M" ++ rest, res))
      with (Ok (false, false, (t, ESC :: bytes "[<0;10;5M" ++ rest, res))).
    cbn [bindR attempt]. rewrite Hp. cbn [attempt fst]. rewrite Hm.
    unfold parseXtermMouse at 1. rewrite He.
    change (xtermLoop (ESC :: bytes "[<0;10;5M" ++ rest) 0 0 0 0 0) with XtNo.
    cbn [attempt]. rewrite Hr. reflexivity.
  - change (sgr_release ++ rest) with (ESC :: bytes "[<0;10;5m" ++ rest) in *.
    unfold scanStep. rewrite paste_gate_ESC. cbn [bindR].
    change (parseOSC52Paste (t, ESC :: bytes "[<0;10;5m" ++ rest, res))
      with (false, false, (t, ESC :: bytes "[<0;10;5m" ++ rest, res)).
    cbn [attempt].
    change (parseBracketedPaste (t, ESC :: bytes "[<0;10;5m" ++ rest, res))
      with (false, false, (t, ESC :: bytes "[<0;10;5m" ++ rest, res)).
    cbn [attempt].
    change (parseRune (t, ESC :: bytes "[<0;10;5m" ++ rest, res))
      with (Ok (false, false, (t, ESC :: bytes "[<0;10;5m" ++ rest, res))).
    cbn [bindR attempt]. rewrite Hp. cbn [attempt fst]. rewrite Hm.
    unfold parseXtermMouse at 1. rewrite He.
    change (xtermLoop (ESC :: bytes "[<0;10;5m" ++ rest) 0 0 0 0 0) with XtNo.
    cbn [attempt]. rewrite Hr. reflexivity.
Qed.

(** C3 (amended).  On a terminal whose capability record declares mouse
    support, in a state with [escaped] off, on a screen of at least 10
    columns by 5 rows, and with a key table none of whose sequences (the
    lone ESC apart) is a prefix of the input or of its second report, the
    input of a press report followed by a release report gives exactly two
    mouse events: Button1 at (9, 4) with no modifier, then no button at
    (9, 4) with no modifier. *)
Theorem C3_sgr_press_then_release (t : tScreen) (sw sh : Z) (expire : bool)
    (fuel : nat) :
  has_mouse t = true ->
  escaped t = false ->
  cells_Size (cells t) = (sw, sh) -> int_ok sw -> int_ok sh ->
  10 <= sw -> 5 <= sh ->
  no_key_prefix (keycodes t) (sgr_press ++ sgr_release) = true ->
  no_key_prefix (keycodes t) sgr_release = true ->
  collectEventsFromInput (S (S (S fuel))) t (sgr_press ++ sgr_release) expire =
  Ok ([NewEventMouse 9 4 Button1 ModNone (escbuf t ++ sgr_press);
       NewEventMouse 9 4 ButtonNone ModNone sgr_release],
      set_escbuf [] (set_wasbtn false (set_buttondn false t)), []).
Proof.
  intros Hm He Hsz Hiw Hih Hw Hh Hk1 Hk2.
  unfold collectEventsFromInput. cbn [collectLoop].
  rewrite (scanStep_sgr t sgr_press sgr_release expire [] _
             (or_introl eq_refl) Hm He Hk1
             (parseSgrMouse_press t sgr_release [] sw sh He Hsz Hiw Hih Hw Hh)
             eq_refl).
  cbn [bindR snd].
  set (t1 := set_escbuf [] (set_wasbtn true (set_buttondn true t))).
  rewrite <- (app_nil_r sgr_release) at 1.
  rewrite (scanStep_sgr t1 sgr_release [] expire _ _
             (or_intror eq_refl) Hm He
             ltac:(rewrite app_nil_r; exact Hk2)
             (parseSgrMouse_release t1 [] _ sw sh He Hsz Hiw Hih Hw Hh)
             eq_refl).
  cbn [bindR snd]. rewrite scanStep_empty. reflexivity.
Qed.

(** C4 (amended).  With [escaped] off, ESC [ M followed by three bytes is
    an X10 report: the first byte is the button state as it is (not
    de-biased), the second and third are x and y, each less 33; any proper
    prefix of the six bytes is a partial match. *)
Theorem C4_x10_report_decoding (t : tScreen) (b bx by_ : byte)
    (rest : list byte) (evs : list Event) :
  escaped t = false ->
  (let report := [ESC; "["%byte; "M"%byte; b; bx; by_] in
   let built :=
     buildMouseEvent (set_escbuf (escbuf t ++ report) t)
       (b2z bx - 33) (b2z by_ - 33) (b2z b) in
   parseXtermMouse (t, report ++ rest, evs) =
     (true, true, (fst built, rest, evs ++ [snd built])) /\
   forall k, (k < 6)%nat ->
     parseXtermMouse (t, firstn k report, evs) =
     (true, false, (t, firstn k report, evs))).
Proof.
  intros He. cbv zeta. split.
  - unfold parseXtermMouse. rewrite He.
    change (xtermLoop ([ESC; "["%byte; "M"%byte; b; bx; by_] ++ rest) 0 0 0 0 0)
      with (XtEnd 5 (b2z bx - 32 - 1) (b2z by_ - 32 - 1) (b2z b)).
    cbv beta iota.
    rewrite consume_enough by (rewrite length_app; cbn; lia).
    change (firstn 6 ([ESC; "["%byte; "M"%byte; b; bx; by_] ++ rest))
      with [ESC; "["%byte; "M"%byte; b; bx; by_].
    change (skipn 6 ([ESC; "["%byte; "M"%byte; b; bx; by_] ++ rest)) with rest.
    replace (b2z bx - 32 - 1) with (b2z bx - 33) by lia.
    replace (b2z by_ - 32 - 1) with (b2z by_ - 33) by lia.
    now destruct (buildMouseEvent _ _ _ _).
  - intros k Hk. unfold parseXtermMouse. rewrite He.
    do 6 (destruct k as [|k]; [reflexivity|]). lia.
Qed.

(** ** The [escaped] flag *)

Lemma consume_escaped (n : nat) (t : tScreen) (inp : list byte) :
  escaped (fst (consume n t inp)) = escaped t.
Proof. destruct (consume_escbuf n t inp) as [esc ->]. reflexivity. Qed.

Lemma buildMouseEvent_escaped (t : tScreen) (x y btn : Z) :
  escaped (fst (buildMouseEvent t x y btn)) = escaped t.
Proof. destruct (buildMouseEvent_state t x y btn) as [wb ->]. reflexivity. Qed.

(** A key event of the rune parser carries Alt exactly when the flag was
    set, and clears the flag. *)
Lemma decodeLoop_alt (k l : nat) (t t' : tScreen) (inp inp' : list byte)
    (evs evs' : list Event) (p : bool) :
  decodeLoop k l (t, inp, evs) = (p, true, (t', inp', evs')) ->
  (exists r raw,
     evs' = evs ++ [NewEventKey KeyRune r
                      (if escaped t then ModAlt else ModNone) raw] /\
     escaped t' = false) \/
  (evs' = evs /\ escaped t' = escaped t).
Proof.
  revert l. induction k as [|k IH]; intros l; cbn [decodeLoop];
    [discriminate|].
  destruct (dec_short _); [apply IH|].
  destruct (negb (dec_nout _ =? 0)); [|apply IH].
  destruct (negb (dec_rune _ =? RuneError)).
  - left. destruct (escaped t) eqn:He;
      match goal with
      | H : context [consume ?n ?t1 inp] |- _ =>
          pose proof (consume_escaped n t1 inp) as Hc;
          destruct (consume n t1 inp) as [t2 inp2]
      end; cbn [fst] in Hc; injection H0 as _ <- _ <-;
      eexists _, _; (split; [reflexivity|]); rewrite Hc; cbn; auto.
  - right.
    match goal with
    | H : context [consume ?n ?t1 inp] |- _ =>
        pose proof (consume_escaped n t1 inp) as Hc;
        destruct (consume n t1 inp) as [t2 inp2]
    end. cbn [fst] in Hc. injection H0 as _ <- _ <-. auto.
Qed.

Lemma parseRune_alt (t t' : tScreen) (inp inp' : list byte)
    (evs evs' : list Event) (p : bool) :
  parseRune (t, inp, evs) = Ok (p, true, (t', inp', evs')) ->
  (exists r raw,
     evs' = evs ++ [NewEventKey KeyRune r
                      (if escaped t then ModAlt else ModNone) raw] /\
     escaped t' = false) \/
  (evs' = evs /\ escaped t' = escaped t).
Proof.
  unfold parseRune. destruct inp as [|b0 rest]; [discriminate|].
  pose proof (decodeLoop_alt (length (b0 :: rest)) 1 t t' (b0 :: rest) inp'
                evs evs' p) as Hd.
  set (d := decodeLoop _ _ _) in *. clearbody d.
  destruct (_ && _).
  - intros Hr. left. destruct (escaped t) eqn:He;
      match type of Hr with
      | context [consume ?n ?t1 ?i] =>
          pose proof (consume_escaped n t1 i) as Hc;
          destruct (consume n t1 i) as [t2 inp2]
      end; cbn [fst] in Hc; injection Hr as _ <- _ <-;
      eexists _, _; (split; [reflexivity|]); cbn; rewrite Hc; cbn; auto.
  - destruct (_ <? _); [discriminate|]. intros [= ->]. now apply Hd.
Qed.

(** So does a key event of the function-key parser, on top of the
    modifiers of the table entry. *)
Lemma parseFunctionKey_alt (t t' : tScreen) (inp inp' : list byte)
    (evs evs' : list Event) (p : bool) :
  parseFunctionKey (t, inp, evs) = (p, true, (t', inp', evs')) ->
  exists k r raw,
    evs' = evs ++ [NewEventKey (kc_key k) r
                     (if escaped t then Z.lor (kc_mod k) ModAlt else kc_mod k)
                     raw] /\
    escaped t' = false.
Proof.
  unfold parseFunctionKey.
  destruct (functionKeyLoop (keycodes t) inp false) as [q [[esc k]|]];
    [|discriminate].
  intros Hr. destruct (escaped t) eqn:He;
    match type of Hr with
    | context [consume ?n ?t1 ?i] =>
        pose proof (consume_escaped n t1 i) as Hc;
        destruct (consume n t1 i) as [t2 inp2]
    end; cbn [fst] in Hc; injection Hr as _ <- _ <-;
    eexists _, _, _; (split; [reflexivity|]); cbn; rewrite Hc; cbn; auto.
Qed.

(** The paste and mouse parsers leave the flag as it is. *)
Lemma parsePaste_escaped (t : tScreen) (inp : list byte) (evs : list Event)
    (r : bool * PS) :
  parsePaste (t, inp, evs) = Ok r -> escaped (fst (fst (snd r))) = escaped t.
Proof.
  unfold parsePaste. destruct inp as [|b0 rest]; [discriminate|].
  destruct (negb _); [|now intros [= <-]].
  cbv zeta. destruct (1 <? _); [|now intros [= <-]].
  match goal with
  | |- context [consume ?n ?t1 ?i] =>
      pose proof (consume_escaped n t1 i) as Hc;
      destruct (consume n t1 i) as [t2 inp2]
  end. cbn [fst] in Hc. intros [= <-]. cbn. exact Hc.
Qed.

Lemma parseOSC52Paste_escaped (t : tScreen) (inp : list byte) (evs : list Event) :
  escaped (fst (fst (snd (parseOSC52Paste (t, inp, evs))))) = escaped t.
Proof.
  unfold parseOSC52Paste. cbv zeta.
  destruct (_ || _); [|reflexivity].
  destruct (_ <=? _); [|reflexivity].
  now destruct (Decode _).
Qed.

Lemma parseBracketedPaste_escaped (t : tScreen) (inp : list byte)
    (evs : list Event) :
  escaped (fst (fst (snd (parseBracketedPaste (t, inp, evs))))) = escaped t.
Proof.
  unfold parseBracketedPaste. cbv zeta.
  destruct (_ || _); [|reflexivity].
  now destruct (_ && _).
Qed.

Lemma parseXtermMouse_escaped (t : tScreen) (inp : list byte) (evs : list Event) :
  escaped (fst (fst (snd (parseXtermMouse (t, inp, evs))))) = escaped t.
Proof.
  unfold parseXtermMouse.
  destruct (xtermLoop inp 0 _ 0 0 0) as [| |i x y btn]; try reflexivity.
  pose proof (consume_escaped (S i) t inp) as Hc.
  destruct (consume (S i) t inp) as [t1 inp1]. cbn [fst] in Hc.
  pose proof (buildMouseEvent_escaped t1 x y btn) as Hb.
  destruct (buildMouseEvent t1 x y btn) as [t2 ev]. cbn in *. congruence.
Qed.

Lemma parseSgrMouse_escaped (t : tScreen) (inp : list byte) (evs : list Event) :
  escaped (fst (fst (snd (parseSgrMouse (t, inp, evs))))) = escaped t.
Proof.
  unfold parseSgrMouse.
  destruct (sgrLoop inp 0 _) as [| |i v c]; try reflexivity.
  match goal with
  | |- context [let '(_, _) := ?e in _] => destruct e as [btn t1] eqn:E1
  end.
  assert (Ht1 : escaped t1 = escaped t).
  { repeat match type of E1 with
    | context [if ?c then _ else _] => destruct c
    end; injection E1 as _ <-; reflexivity. }
  pose proof (consume_escaped (S i) t1 inp) as Hc.
  destruct (consume (S i) t1 inp) as [t2 inp2]. cbn [fst] in Hc.
  pose proof (buildMouseEvent_escaped t2 (sg_x v) (sg_y v) btn) as Hb.
  destruct (buildMouseEvent t2 (sg_x v) (sg_y v) btn) as [t3 ev].
  cbn in *. congruence.
Qed.

(** A raw event of the fall-back leaves the flag as it is. *)
Lemma scanFallback_raw_escaped (t t' : tScreen) (inp inp' : list byte)
    (evs : list Event) (raw : list byte) :
  scanFallback (t, inp, evs) = (t', inp', evs ++ [NewEventRaw raw]) ->
  escaped t' = escaped t.
Proof.
  unfold scanFallback. cbv zeta. destruct (Byte.eqb _ _).
  - destruct (find _ _).
    + now intros [= <- _ _].
    + destruct (len inp =? 1);
        match goal with
        | |- context [consume ?n ?t1 ?i] =>
            destruct (consume n t1 i) as [t2 inp2]
        end; intros [= _ _ He].
      * apply app_inv_head in He. discriminate He.
      * apply (f_equal (@length Event)) in He.
        rewrite length_app in He. cbn in He. lia.
  - pose proof (consume_escaped 1 t inp) as Hc.
    destruct (consume 1 t inp) as [t2 inp2]. cbn [fst] in Hc.
    now intros [= <- _ _].
Qed.

(** ** ESC followed by a letter *)

Lemma paste_gate_a (t : tScreen) (evs : list Event) :
  (if paste t then parsePaste (t, ["a"%byte], evs)
   else Ok (false, (t, ["a"%byte], evs))) =
  Ok (false, (t, ["a"%byte], evs)).
Proof. destruct (paste t); reflexivity. Qed.

Lemma scanStep_escaped_a (t : tScreen) (expire : bool) (res : list Event) :
  escaped t = true ->
  scanStep expire (t, ["a"%byte], res) =
  Ok (true,
      (set_escbuf [] (set_escaped false t), [],
       res ++ [NewEventKey KeyRune 97 ModAlt (escbuf t ++ ["a"%byte])])).
Proof.
  intros He. unfold scanStep. rewrite paste_gate_a. cbn [bindR].
  change (parseOSC52Paste (t, ["a"%byte], res))
    with (false, false, (t, ["a"%byte], res)).
  cbn [attempt].
  change (parseBracketedPaste (t, ["a"%byte], res))
    with (false, false, (t, ["a"%byte], res)).
  cbn [attempt].
  unfold parseRune. rewrite He. reflexivity.
Qed.

Lemma scanFallback_ESC_a (t : tScreen) (res : list Event) :
  no_rawseq_prefix (rawseq t) [ESC; "a"%byte] = true ->
  scanFallback (t, [ESC; "a"%byte], res) =
  (set_escbuf (escbuf t ++ [ESC]) (set_escaped true t), ["a"%byte], res).
Proof.
  intros Hr. apply find_rawseq_none in Hr.
  unfold scanFallback. cbn [hd]. rewrite byte_eqb_refl, Hr. reflexivity.
Qed.

(** The pass over ESC and [a]: it either waits (a key sequence or an SGR
    mouse report may still follow) or takes the ESC as the start of an
    escaped key; with expiry it always does the latter. *)
Lemma scanStep_ESC_a (t : tScreen) (expire : bool) (res : list Event) :
  escaped t = false ->
  no_key_prefix (keycodes t) [ESC; "a"%byte] = true ->
  no_rawseq_prefix (rawseq t) [ESC; "a"%byte] = true ->
  exists wait,
    scanStep expire (t, [ESC; "a"%byte], res) =
    (if wait && negb expire then Ok (false, (t, [ESC; "a"%byte], res))
     else Ok (true,
              (set_escbuf (escbuf t ++ [ESC]) (set_escaped true t),
               ["a"%byte], res))).
Proof.
  intros He Hk Hr.
  destruct (parseFunctionKey_none t _ res Hk) as [p Hp].
  pose proof (scanFallback_ESC_a t res Hr) as Hfb.
  unfold scanStep. rewrite paste_gate_ESC. cbn [bindR].
  change (parseOSC52Paste (t, [ESC; "a"%byte], res))
    with (false, false, (t, [ESC; "a"%byte], res)).
  cbn [attempt].
  change (parseBracketedPaste (t, [ESC; "a"%byte], res))
    with (false, false, (t, [ESC; "a"%byte], res)).
  cbn [attempt].
  change (parseRune (t, [ESC; "a"%byte], res))
    with (Ok (false, false, (t, [ESC; "a"%byte], res))).
  cbn [bindR attempt]. rewrite Hp. cbn [attempt fst].
  destruct (Nat.eqb (length (terminfo.Mouse (ti t))) 0); cbn [negb].
  - exists p.
    destruct p, expire;
      first [reflexivity | exact (f_equal (fun x => Ok (true, x)) Hfb)].
  - unfold parseXtermMouse. rewrite He.
    change (xtermLoop [ESC; "a"%byte] 0 0 0 0 0) with XtNo.
    cbn [attempt]. unfold parseSgrMouse. rewrite He.
    change (sgrLoop [ESC; "a"%byte] 0 (mkSgr 0 0 0 0 false false 0))
      with SgrMore.
    cbn [attempt]. exists true.
    destruct p, expire;
      first [reflexivity | exact (f_equal (fun x => Ok (true, x)) Hfb)].
Qed.

Lemma collect_ESC_a (t : tScreen) (expire : bool) (fuel : nat) :
  escaped t = false ->
  no_key_prefix (keycodes t) [ESC; "a"%byte] = true ->
  no_rawseq_prefix (rawseq t) [ESC; "a"%byte] = true ->
  exists wait,
    collectEventsFromInput (S (S (S fuel))) t [ESC; "a"%byte] expire =
    (if wait && negb expire then Ok ([], t, [ESC; "a"%byte])
     else Ok ([NewEventKey KeyRune 97 ModAlt (escbuf t ++ [ESC; "a"%byte])],
              set_escbuf [] (set_escaped false t), [])).
Proof.
  intros He Hk Hr.
  destruct (scanStep_ESC_a t expire [] He Hk Hr) as [wait Hs].
  exists wait. unfold collectEventsFromInput. cbn [collectLoop].
  rewrite Hs. destruct (wait && negb expire); cbn [bindR]; [reflexivity|].
  rewrite scanStep_escaped_a by reflexivity. cbn [bindR].
  rewrite scanStep_empty. cbn.
  now rewrite <- app_assoc.
Qed.

(** C5 (amended).  A key event completed by the rune parser or by the
    function-key parser carries Alt exactly when the [escaped] flag is set,
    and emitting it clears the flag; the Key(Esc) of a lone ESC carries no
    modifier and clears the flag as well.  Paste, mouse and raw events leave
    the flag as it is.  The two bytes ESC and [a], once the quiet time has
    expired, have given exactly one event, the rune [a] with Alt and both
    bytes as raw bytes, provided no key sequence (the lone ESC apart) and no
    raw sequence is a prefix of the input: the main loop has put it in the
    event channel, or waits to send it when the channel is full. *)
Theorem C5_alt_after_escape (t : tScreen) (inp : list byte) (evs : list Event) :
  (forall p t' inp' evs',
     parseRune (t, inp, evs) = Ok (p, true, (t', inp', evs')) ->
     (exists r raw,
        evs' = evs ++ [NewEventKey KeyRune r
                         (if escaped t then ModAlt else ModNone) raw] /\
        escaped t' = false) \/
     (evs' = evs /\ escaped t' = escaped t)) /\
  (forall p t' inp' evs',
     parseFunctionKey (t, inp, evs) = (p, true, (t', inp', evs')) ->
     exists k r raw,
       evs' = evs ++ [NewEventKey (kc_key k) r
                        (if escaped t then Z.lor (kc_mod k) ModAlt
                         else kc_mod k) raw] /\
       escaped t' = false) /\
  (no_rawseq_prefix (rawseq t) [ESC] = true ->
   scanFallback (t, [ESC], evs) =
   (set_escbuf [ESC] (set_escaped false t), [],
    evs ++ [NewEventKey KeyEsc 0 ModNone [ESC]])) /\
  (forall r, parsePaste (t, inp, evs) = Ok r ->
     escaped (fst (fst (snd r))) = escaped t) /\
  escaped (fst (fst (snd (parseOSC52Paste (t, inp, evs))))) = escaped t /\
  escaped (fst (fst (snd (parseBracketedPaste (t, inp, evs))))) = escaped t /\
  escaped (fst (fst (snd (parseXtermMouse (t, inp, evs))))) = escaped t /\
  escaped (fst (fst (snd (parseSgrMouse (t, inp, evs))))) = escaped t /\
  (forall t' inp' raw,
     scanFallback (t, inp, evs) = (t', inp', evs ++ [NewEventRaw raw]) ->
     escaped t' = escaped t) /\
  (escaped t = false ->
   no_key_prefix (keycodes t) [ESC; "a"%byte] = true ->
   no_rawseq_prefix (rawseq t) [ESC; "a"%byte] = true ->
   forall fuel, exists r1,
     mainLoop_keychan (S (S (S fuel))) t [] [ESC; "a"%byte] = Ok r1 /\
     match r1 with
     | Sent t1 inp1 => mainLoop_keytimer (S (S (S fuel))) t1 inp1 true
     | Blocked _ _ _ _ => Ok r1
     end =
     Ok (if len (evch t) <? 10
         then Sent
                (set_evch
                   (evch t ++ [NewEventKey KeyRune 97 ModAlt
                                 (escbuf t ++ [ESC; "a"%byte])])
                   (set_escbuf [] (set_escaped false t)))
                []
         else Blocked (set_escbuf [] (set_escaped false t))
                (NewEventKey KeyRune 97 ModAlt (escbuf t ++ [ESC; "a"%byte]))
                [] [])).
Proof.
  repeat split.
  - intros p t' inp' evs'. apply parseRune_alt.
  - intros p t' inp' evs'. apply parseFunctionKey_alt.
  - intros Hr. apply find_rawseq_none in Hr.
    unfold scanFallback. cbn [hd]. rewrite byte_eqb_refl, Hr. reflexivity.
  - intros r. apply parsePaste_escaped.
  - apply parseOSC52Paste_escaped.
  - apply parseBracketedPaste_escaped.
  - apply parseXtermMouse_escaped.
  - apply parseSgrMouse_escaped.
  - intros t' inp' raw. apply scanFallback_raw_escaped.
  - intros He Hk Hr fuel.
    destruct (collect_ESC_a t false fuel He Hk Hr) as [w Hc1].
    destruct (collect_ESC_a t true fuel He Hk Hr) as [w' Hc2].
    rewrite andb_false_r in Hc2. rewrite andb_true_r in Hc1.
    unfold mainLoop_keychan, mainLoop_keytimer, scanInput. cbn [app].
    rewrite Hc1. destruct w; cbn [bindR postParsed].
    + eexists. split; [reflexivity|].
      change ((0 <? len [ESC; "a"%byte]) && true) with true. cbv iota.
      rewrite Hc2. cbn [bindR postParsed]. unfold PostEventWait.
      change (evch (set_escbuf [] (set_escaped false t))) with (evch t).
      now destruct (len (evch t) <? 10).
    + unfold PostEventWait.
      change (evch (set_escbuf [] (set_escaped false t))) with (evch t).
      destruct (len (evch t) <? 10); eexists; split; reflexivity.
Qed.

(** ** Clipboard *)

(** C8 (amended).  [GetClipboard] and [SetClipboard] look at the first byte
    of the register argument only: they return an error, and send nothing,
    exactly when the argument is empty or its first byte is neither [c] nor
    [p].  Otherwise [GetClipboard] sends the query for that byte and returns
    no error, and [SetClipboard] sends the clear sequence and then the set
    sequence with the base64 of the whole text, and returns the truncation
    notice exactly when the text has 74994 bytes or more. *)
Theorem C8_clipboard_register_and_truncation (t : tScreen)
    (text register : list byte) :
  (register_ok register = false ->
   (exists e, GetClipboard register t = (t, Some e) /\ e <> ErrTruncated) /\
   (exists e, SetClipboard text register t = (t, Some e) /\ e <> ErrTruncated)) /\
  (register_ok register = true ->
   GetClipboard register t = (TPuts (pasteGet (hd x00 register)) t, None) /\
   SetClipboard text register t =
     (TPuts (pasteSet (hd x00 register) (EncodeToString text))
        (TPuts (pasteClear (hd x00 register)) t),
      if 74994 <=? len text then Some ErrTruncated else None)).
Proof.
  unfold register_ok, GetClipboard, SetClipboard.
  destruct register as [|r rest].
  - split; [|discriminate]. intros _.
    split; exists ErrNoRegister; (split; [reflexivity | discriminate]).
  - assert (Hlen : (len (r :: rest) <=? 0) = false).
    { apply Z.leb_gt. unfold len. cbn [length]. lia. }
    rewrite Hlen. cbn [hd].
    destruct (Byte.eqb r "c") eqn:Ec, (Byte.eqb r "p") eqn:Ep; cbn [negb andb orb];
      split; try discriminate; intros _; try (split; reflexivity);
      split; exists ErrInvalidRegister; (split; [reflexivity | discriminate]).
Qed.

(** ** Operations after [Fini] *)

Lemma finish_fini (t : tScreen) : fini (finish t) = true.
Proof. reflexivity. Qed.

Lemma Fini_idempotent (t : tScreen) : Fini (Fini t) = Fini t.
Proof. unfold Fini. destruct (finiOnce t) eqn:E; cbn; now rewrite ?E. Qed.

(** C7 (amended).  Once [fini] is set, [SetStyle], [Fill], [Clear],
    [SetContent] and [Show] leave the screen as it is, and [Sync] only
    resets the cached terminal cursor.  [ShowCursor], [HideCursor],
    [SetPaste] and [RegisterRuneFallback] carry no such guard: they store
    the cursor position, the paste mode and the fallback in every state. *)
Theorem C7_operations_after_fini (t : tScreen) :
  fini t = true ->
  (forall st, SetStyle st t = t) /\
  (forall r st, Fill r st t = t) /\
  Clear t = t /\
  (forall x y mainc combc st, SetContent x y mainc combc st t = t) /\
  (forall fuel, Show fuel t = Ok t) /\
  (forall fuel, Sync fuel t = Ok (set_cy (-1) (set_cx (-1) t))) /\
  (forall x y, cursorx (ShowCursor x y t) = x /\ cursory (ShowCursor x y t) = y) /\
  (cursorx (HideCursor t) = -1 /\ cursory (HideCursor t) = -1) /\
  (forall p, paste (SetPaste p t) = p) /\
  (forall orig fb, fallback (RegisterRuneFallback orig fb t) !! orig = Some fb).
Proof.
  intros Hf.
  unfold SetStyle, Clear, Fill, SetContent, Show, Sync, ShowCursor, HideCursor,
    SetPaste, RegisterRuneFallback, ShowCursor.
  cbn [fini set_cx set_cy]. rewrite Hf. cbn [negb].
  repeat split; intros; try reflexivity.
  cbn. apply lookup_insert_eq.
Qed.

(** ** Drawing a cell *)

Lemma render_frame_refl (t : tScreen) : render_frame t t.
Proof.
  unfold render_frame. repeat split. exists []. now rewrite app_nil_r.
Qed.

Lemma render_frame_TPuts (t t1 : tScreen) (s : list byte) :
  render_frame t t1 -> render_frame t (TPuts s t1).
Proof.
  unfold render_frame.
  intros (Hw & Hcx & Hcy & Hc & He & Ha & Hfb & Hb & pre & Hwr & Hpre).
  assert (Hfields : w (TPuts s t1) = w t1 /\ cx (TPuts s t1) = cx t1 /\
                    cy (TPuts s t1) = cy t1 /\ cells (TPuts s t1) = cells t1 /\
                    encoder (TPuts s t1) = encoder t1 /\
                    acs (TPuts s t1) = acs t1 /\
                    fallback (TPuts s t1) = fallback t1 /\
                    buffering (TPuts s t1) = buffering t1).
  { unfold TPuts. destruct (buffering t1) eqn:Eb; repeat split; exact Eb. }
  destruct Hfields as (-> & -> & -> & -> & -> & -> & -> & ->).
  repeat split; try assumption.
  exists (pre ++ [TPutsOut s]). rewrite written_TPuts, Hwr, app_assoc.
  split; [reflexivity|]. rewrite forallb_app, Hpre. reflexivity.
Qed.

Lemma render_frame_colors (t t1 : tScreen) (m : gmap Z Z) :
  render_frame t t1 -> render_frame t (set_colors m t1).
Proof. exact (fun Hf => Hf). Qed.

Lemma render_frame_curstyle (t t1 : tScreen) (st : Style) :
  render_frame t t1 -> render_frame t (set_curstyle st t1).
Proof. exact (fun Hf => Hf). Qed.

Ltac frame_steps :=
  repeat first
    [ assumption
    | apply render_frame_refl
    | apply render_frame_TPuts
    | apply render_frame_colors
    | apply render_frame_curstyle ].

Lemma cachedColor_frame (t t1 : tScreen) (c : Z) :
  render_frame t t1 -> render_frame t (snd (cachedColor c t1)).
Proof.
  intros Hf. unfold cachedColor.
  destruct (Color_Valid c); [|exact Hf].
  destruct (colors t1 !! c); cbn [snd]; frame_steps.
Qed.

Lemma sendFgBg_frame (t t1 : tScreen) (fg bg : Z) :
  render_frame t t1 -> render_frame t (sendFgBg fg bg t1).
Proof.
  intros Hf. unfold sendFgBg. cbv zeta.
  destruct (terminfo.Colors (ti t1) =? 0); [exact Hf|].
  match goal with
  | |- context [if ?c then TPuts ?s t1 else t1] =>
      set (t2 := if c then TPuts s t1 else t1);
      assert (Hf2 : render_frame t t2) by (subst t2; destruct c; frame_steps);
      clearbody t2
  end.
  destruct (_ && _ && _ && _).
  { destruct (Color_RGB fg) as [[r1 g1] b1], (Color_RGB bg) as [[r2 g2] b2].
    frame_steps. }
  match goal with
  | |- context [let '(_, _) := ?e in _] =>
      assert (Hf3 : render_frame t (snd e));
        [|destruct e as [fg3 t3]; cbn [snd] in Hf3]
  end.
  { destruct (_ && _ && _); [|exact Hf2].
    destruct (Color_RGB fg) as [[r g] b]. cbn [snd]. frame_steps. }
  match goal with
  | |- context [let '(_, _) := ?e in _] =>
      assert (Hf4 : render_frame t (snd e));
        [|destruct e as [bg4 t4]; cbn [snd] in Hf4]
  end.
  { destruct (_ && _ && _); [|exact Hf3].
    destruct (Color_RGB bg) as [[r g] b]. cbn [snd]. frame_steps. }
  pose proof (cachedColor_frame t t4 fg3 Hf4) as Hf5.
  destruct (cachedColor fg3 t4) as [fg5 t5]. cbn [snd] in Hf5.
  pose proof (cachedColor_frame t t5 bg4 Hf5) as Hf6.
  destruct (cachedColor bg4 t5) as [bg6 t6]. cbn [snd] in Hf6.
  destruct (_ && _ && _); [frame_steps|].
  destruct (_ && _); destruct (_ && _); frame_steps.
Qed.

Lemma attrOn_frame (t t1 : tScreen) (attrs a : Z) (cap : list byte) :
  render_frame t t1 -> render_frame t (attrOn attrs a cap t1).
Proof. intros Hf. unfold attrOn. destruct (negb _); frame_steps. Qed.

Lemma sendStyle_frame (t t1 : tScreen) (st : Style) :
  render_frame t t1 -> render_frame t (sendStyle st t1).
Proof.
  intros Hf. unfold sendStyle. destruct (Decompose st) as [[fg bg] attrs].
  cbv zeta. apply render_frame_curstyle.
  repeat apply attrOn_frame. apply sendFgBg_frame. frame_steps.
Qed.

Lemma encodeRune_frame (t t1 : tScreen) (r : Z) (bf : list byte) :
  render_frame t t1 -> encodeRune t1 r bf = encodeRune t r bf.
Proof.
  intros (_ & _ & _ & _ & He & Ha & Hfb & _). unfold encodeRune.
  now rewrite He, Ha, Hfb.
Qed.

Lemma cellString_frame (t t1 : tScreen) (mainc : Z) (combc : list Z) :
  render_frame t t1 -> cellString t1 mainc combc = cellString t mainc combc.
Proof.
  intros Hf. unfold cellString. rewrite (encodeRune_frame t t1) by exact Hf.
  generalize (encodeRune t mainc []). induction combc as [|r combc IH];
    intros bf; cbn [fold_left]; [reflexivity|].
  now rewrite (encodeRune_frame t t1), IH.
Qed.

Lemma writeString_fields (s : list byte) (t : tScreen) :
  cells (writeString s t) = cells t /\ cx (writeString s t) = cx t.
Proof. unfold writeString. destruct (buffering t); split; reflexivity. Qed.

(** C9.  A dirty cell at column [x] of a screen of [w t] columns, whose
    glyph of width [wd] would spill past the right margin ([x > w t - wd]):
    [drawCell] writes a single space for it and not the glyph (whatever
    else it sends is capability strings: cursor motion and attributes),
    returns the width 1, and leaves the cached cursor column one past the
    value it had when the string was written: [x], or -1 when a wide glyph
    had been reduced to a question mark. *)
Theorem C9_glyph_clipped_at_right_margin (t : tScreen) (x y mainc : Z)
    (combc : list Z) (st : Style) (wd : Z) :
  cells_GetContent (cells t) x y = (mainc, combc, st, wd) ->
  cells_Dirty (cells t) x y = true ->
  0 <= x < w t -> int_ok (w t) -> int_ok wd ->
  x > w t - wd ->
  exists t' pre,
    drawCell x y t = (t', 1) /\
    written t' = written t ++ pre ++ [WriteOut (bytes " ")] /\
    forallb is_tputs pre = true /\
    cx t' =
      (if bytes_eqb (cellString t mainc combc) (bytes "?") then -1 else x) + 1.
Proof.
  intros Hget Hdirty Hx Hiw Hiwd Hspill.
  assert (Hwd : 2 <= wd) by lia.
  unfold drawCell. rewrite Hget, Hdirty. cbn [negb]. cbv zeta.
  (* cursor positioning *)
  match goal with
  | |- context [if ?c then set_cy y (set_cx x (TPuts ?s t)) else t] =>
      set (t1 := if c then set_cy y (set_cx x (TPuts s t)) else t);
      assert (H1 : cx t1 = x /\ w t1 = w t /\ buffering t1 = buffering t /\
                   (forall m cs, cellString t1 m cs = cellString t m cs) /\
                   exists pre, written t1 = written t ++ pre /\
                               forallb is_tputs pre = true)
  end.
  { subst t1. destruct (negb (cy t =? y) || negb (cx t =? x)) eqn:Epos.
    - pose proof (render_frame_TPuts t t (terminfo.TGoto (ti t) x y)
                    (render_frame_refl t)) as Hf.
      pose proof Hf as (Hw1 & _ & _ & _ & _ & _ & _ & Hb1 & pre & Hwr & Hpre).
      repeat split; try assumption.
      + intros m cs. apply (cellString_frame t _ m cs Hf).
      + exists pre. split; [exact Hwr | exact Hpre].
    - apply orb_false_iff in Epos as [_ Ecx].
      apply negb_false_iff, Z.eqb_eq in Ecx.
      repeat split; try assumption.
      exists []. now rewrite app_nil_r. }
  clearbody t1. destruct H1 as (Hcx1 & Hw1 & Hb1 & Hstr1 & pre1 & Hwr1 & Hpre1).
  (* style *)
  match goal with
  | |- context [if negb (Style_eqb ?s (curstyle t1)) then sendStyle ?s t1 else t1] =>
      set (t2 := if negb (Style_eqb s (curstyle t1)) then sendStyle s t1 else t1);
      assert (Hf2 : render_frame t1 t2)
        by (subst t2; destruct (negb (Style_eqb s (curstyle t1)));
            [apply sendStyle_frame|]; apply render_frame_refl)
  end.
  clearbody t2.
  destruct Hf2 as (Hw2 & Hcx2 & _ & _ & He2 & Ha2 & Hfb2 & Hb2 & pre2 & Hwr2 & Hpre2).
  assert (Hstr2 : cellString t2 mainc combc = cellString t mainc combc).
  { rewrite <- Hstr1. unfold cellString, encodeRune. now rewrite He2, Ha2, Hfb2. }
  (* width, glyph and clipping *)
  assert (Hw1' : (wd <? 1) = false) by (apply Z.ltb_ge; lia).
  rewrite Hw1'. assert (Hwide : (1 <? wd) = true) by (apply Z.ltb_lt; lia).
  rewrite Hwide, Hstr2. cbn [andb].
  set (q := bytes_eqb (cellString t mainc combc) (bytes "?")).
  set (t3 := if q then set_cx (-1) t2 else t2).
  assert (H3 : cx t3 = (if q then -1 else x) /\ w t3 = w t /\
               written t3 = written t2).
  { subst t3. destruct q; repeat split; cbn; congruence. }
  assert (Hgoal :
    (let '(str, t0) :=
       if q then (bytes "? ", set_cx (-1) t2)
       else (cellString t mainc combc, t2) in
     let '(width, str0) :=
       if x >? wrap64 (w t0 - wd) then (1, bytes " ") else (wd, str) in
     (if 1 <? width
      then set_cx (-1)
             (set_cells (cells_SetDirty
                (cells (set_cx (wrap64 (cx (writeString str0 t0) + width))
                          (writeString str0 t0))) x y false)
                (set_cx (wrap64 (cx (writeString str0 t0) + width))
                   (writeString str0 t0)))
      else set_cells (cells_SetDirty
                (cells (set_cx (wrap64 (cx (writeString str0 t0) + width))
                          (writeString str0 t0))) x y false)
                (set_cx (wrap64 (cx (writeString str0 t0) + width))
                   (writeString str0 t0)),
      width)) =
    (set_cells (cells_SetDirty (cells t3) x y false)
       (set_cx (wrap64 (cx t3 + 1)) (writeString (bytes " ") t3)), 1)).
  { assert (Hclip : forall t0, w t0 = w t -> (x >? wrap64 (w t0 - wd)) = true).
    { intros t0 ->. rewrite wrap64_small by (unfold int_ok in *; lia).
      apply Z.gtb_lt. lia. }
    subst t3. destruct q.
    - rewrite (Hclip (set_cx (-1) t2)) by (cbn; congruence).
      cbv iota beta. change (1 <? 1) with false. cbv iota.
      cbn [cells set_cx].
      destruct (writeString_fields (bytes " ") (set_cx (-1) t2)) as [-> ->].
      reflexivity.
    - rewrite (Hclip t2) by congruence.
      cbv iota beta. change (1 <? 1) with false. cbv iota.
      cbn [cells set_cx].
      destruct (writeString_fields (bytes " ") t2) as [-> ->].
      reflexivity. }
  clearbody t3. destruct H3 as (Hcx3 & Hw3 & Hwr3).
  eexists _, (pre1 ++ pre2). split; [exact Hgoal|]. split; [|split].
  - assert (Hws : written (set_cells (cells_SetDirty (cells t3) x y false)
                     (set_cx (wrap64 (cx t3 + 1)) (writeString (bytes " ") t3))) =
                  written (writeString (bytes " ") t3)).
    { unfold written, writeString. destruct (buffering t3); reflexivity. }
    rewrite Hws, written_writeString, Hwr3, Hwr2, Hwr1.
    now rewrite <- !app_assoc.
  - rewrite forallb_app, Hpre1, Hpre2. reflexivity.
  - assert (Hcxf : cx (set_cells (cells_SetDirty (cells t3) x y false)
                     (set_cx (wrap64 (cx t3 + 1)) (writeString (bytes " ") t3))) =
                   wrap64 (cx t3 + 1)) by reflexivity.
    rewrite Hcxf, Hcx3.
    apply wrap64_small. unfold int_ok in *. destruct q; lia.
Qed.

End ParserFacts.

(** * The model at work on the concrete screen *)

(** ** Counterexamples to the specification as first stated *)

(** C1 as stated fails: when the raw sequence ESC has been registered, the
    lone ESC comes out on expiry as a raw event, not as Key(Esc). *)
Lemma C1_counterexample_registered_raw_ESC :
  paste (RegisterRawSeq [ESC] demo_screen) = false /\
  parsed (collectEventsFromInput 2 (RegisterRawSeq [ESC] demo_screen) [ESC] true)
    = Some ([NewEventRaw [ESC]], []) /\
  parsed (collectEventsFromInput 2 (RegisterRawSeq [ESC] demo_screen) [ESC] true)
    <> Some ([NewEventKey KeyEsc 0 ModNone [ESC]], []).
Proof. repeat split. discriminate. Qed.

(** C3 as stated fails: on a terminal without the mouse capability the two
    reports give key events and no mouse event; so they do, with the mouse
    capability, when the key table has a sequence that is a prefix of the
    reports (here ESC [ <). *)
Lemma C3_counterexample_no_mouse_capability :
  escaped demo_screen_nomouse = false /\
  wasbtn demo_screen_nomouse = false /\
  buttondn demo_screen_nomouse = false /\
  cells_Size (cells demo_screen_nomouse) = (80, 24) /\
  option_map (fun r => filter is_mouse_event (fst r))
    (parsed (collectEventsFromInput 30 demo_screen_nomouse
               (sgr_press ++ sgr_release) false)) = Some [] /\
  option_map (fun r => filter is_mouse_event (fst r))
    (parsed (collectEventsFromInput 30 demo_screen_nomouse
               (sgr_press ++ sgr_release) true)) = Some [] /\
  has_mouse (prepareKey 300 (ESC :: bytes "[<") demo_screen) = true /\
  option_map (fun r => filter is_mouse_event (fst r))
    (parsed (collectEventsFromInput 30
               (prepareKey 300 (ESC :: bytes "[<") demo_screen)
               (sgr_press ++ sgr_release) true)) = Some [].
Proof. repeat split. Qed.

(** C4 as stated fails: for the report ESC [ M 0x20 0x2b 0x26 the parser
    builds the event from the button byte 32 itself, which is Button1 with
    no modifier; with 33 taken off that byte the event would be no button
    with Shift, Alt and Ctrl.  With the [escaped] flag set the report is
    not recognised at all. *)
Lemma C4_counterexample_button_byte_kept :
  snd (snd (parseXtermMouse
              (demo_screen, [ESC; "["%byte; "M"%byte; x20; x2b; x26], []))) =
    [NewEventMouse 10 5 Button1 ModNone [ESC; "["%byte; "M"%byte; x20; x2b; x26]] /\
  snd (buildMouseEvent
         (set_escbuf [ESC; "["%byte; "M"%byte; x20; x2b; x26] demo_screen)
         (b2z x2b - 33) (b2z x26 - 33) (b2z x20 - 33)) =
    NewEventMouse 10 5 ButtonNone
      (Z.lor (Z.lor ModShift ModAlt) ModCtrl)
      [ESC; "["%byte; "M"%byte; x20; x2b; x26] /\
  Button1 <> ButtonNone /\
  fst (parseXtermMouse
         (set_escaped true demo_screen,
          [ESC; "["%byte; "M"%byte; x20; x2b; x26], [])) = (false, false).
Proof. repeat split. discriminate. Qed.

(** C5 as stated fails: after a bare ESC has set the flag, a bracketed
    paste is emitted (an event that is not Key(Esc)) and the flag is still
    set.  Besides, on a terminal with mouse support the two bytes ESC and
    [a] give no event before the quiet time has expired. *)
Lemma C5_counterexample_paste_keeps_escaped :
  match mainLoop_keychan 4 demo_screen []
          (ESC :: pasteBegin ++ bytes "x" ++ pasteEnd) with
  | Ok (Sent t1 rest) =>
      evch t1 =
        [NewEventPaste (bytes "x") (ESC :: pasteBegin ++ bytes "x" ++ pasteEnd)]
      /\ rest = [] /\ escaped t1 = true
  | _ => False
  end /\
  parsed (collectEventsFromInput 4 demo_screen [ESC; "a"%byte] false) =
    Some ([], [ESC; "a"%byte]).
Proof. repeat split. Qed.

(** C7 as stated fails: after [Fini], [ShowCursor], [SetPaste] and
    [RegisterRuneFallback] still change the cursor position, the paste mode
    and the fallbacks. *)
Lemma C7_counterexample_setters_after_fini :
  fini (Fini demo_screen) = true /\
  cursorx (Fini demo_screen) = -1 /\
  cursorx (ShowCursor 3 4 (Fini demo_screen)) = 3 /\
  paste (Fini demo_screen) = false /\
  paste (SetPaste true (Fini demo_screen)) = true /\
  fallback (Fini demo_screen) !! 9472 = None /\
  fallback (RegisterRuneFallback 9472 (bytes "-") (Fini demo_screen)) !! 9472 =
    Some (bytes "-").
Proof. repeat split. Qed.

(** C8 as stated fails: the register argument [cx] is neither [c] nor [p],
    yet both operations accept it and return no error. *)
Lemma C8_counterexample_longer_register :
  bytes "cx" <> bytes "c" /\ bytes "cx" <> bytes "p" /\
  snd (GetClipboard (bytes "cx") demo_screen) = None /\
  snd (SetClipboard (bytes "hi") (bytes "cx") demo_screen) = None /\
  out (fst (SetClipboard (bytes "hi") (bytes "cx") demo_screen)) =
    [TPutsOut (pasteClear "c"%byte);
     TPutsOut (pasteSet "c"%byte (bytes "aGk="))].
Proof. repeat split; discriminate. Qed.

(** ** The theorems at concrete inputs *)

(** The scenario of the specification: the paste of [hello CR LF world]
    has the text [hello LF LF world]. *)
Lemma C2_witness_hello_world :
  Contains (bytes "hello" ++ [x0d; x0a] ++ bytes "world") pasteEnd = false /\
  collectEventsFromInput 2 demo_screen
    (pasteBegin ++ (bytes "hello" ++ [x0d; x0a] ++ bytes "world") ++ pasteEnd)
    false =
  Ok ([NewEventPaste
         (bytes "hello" ++ [x0a; x0a] ++ bytes "world")
         (escbuf demo_screen ++
          pasteBegin ++ (bytes "hello" ++ [x0d; x0a] ++ bytes "world") ++ pasteEnd)],
      set_escbuf [] demo_screen, []).
Proof.
  split; [reflexivity|].
  apply (C2_bracketed_paste_single_event demo_screen
           (bytes "hello" ++ [x0d; x0a] ++ bytes "world") false 0).
  reflexivity.
Defined.

Example bracketed_paste_text :
  ReplaceCRLF (bytes "hello" ++ [x0d; x0a] ++ bytes "world") =
  bytes "hello" ++ [x0a; x0a] ++ bytes "world".
Proof. reflexivity. Qed.

Example osc52_hello :
  pasteSet "c"%byte (EncodeToString (bytes "hello")) =
    ESC :: bytes "]52;c;aGVsbG8=" ++ [ESC; x5c] /\
  parsed (collectEventsFromInput 2 demo_screen
            (ESC :: bytes "]52;c;aGVsbG8=" ++ [ESC; x5c]) false) =
    Some ([NewEventPaste (bytes "hello")
             (ESC :: bytes "]52;c;aGVsbG8=" ++ [ESC; x5c])], []).
Proof. split; reflexivity. Qed.

Lemma C1_witness_demo_screen :
  keycodes_nonempty (keycodes demo_screen) = true /\
  no_rawseq_prefix (rawseq demo_screen) [ESC] = true /\
  collectEventsFromInput 1 demo_screen [ESC] false = Ok ([], demo_screen, [ESC]) /\
  collectEventsFromInput 2 demo_screen [ESC] true =
    Ok ([NewEventKey KeyEsc 0 ModNone [ESC]],
        set_escbuf [ESC] (set_escaped false demo_screen), []).
Proof.
  split; [reflexivity|]. split; [reflexivity|].
  apply (C1_lone_ESC_resolves_on_expiry demo_screen 0); reflexivity.
Defined.

Lemma C3_witness_demo_screen :
  has_mouse demo_screen = true /\
  escaped demo_screen = false /\
  cells_Size (cells demo_screen) = (80, 24) /\
  no_key_prefix (keycodes demo_screen) (sgr_press ++ sgr_release) = true /\
  no_key_prefix (keycodes demo_screen) sgr_release = true /\
  collectEventsFromInput 3 demo_screen (sgr_press ++ sgr_release) false =
  Ok ([NewEventMouse 9 4 Button1 ModNone (escbuf demo_screen ++ sgr_press);
       NewEventMouse 9 4 ButtonNone ModNone sgr_release],
      set_escbuf [] (set_wasbtn false (set_buttondn false demo_screen)), []).
Proof.
  repeat (split; [reflexivity|]).
  apply (C3_sgr_press_then_release demo_screen 80 24 false 0);
    try reflexivity; unfold int_ok; lia.
Defined.

Lemma C4_witness_demo_screen :
  escaped demo_screen = false /\
  parseXtermMouse
    (demo_screen, [ESC; "["%byte; "M"%byte; x20; x2b; x26] ++ [], []) =
  (true, true,
   (fst (buildMouseEvent
           (set_escbuf (escbuf demo_screen ++
                        [ESC; "["%byte; "M"%byte; x20; x2b; x26]) demo_screen)
           (b2z x2b - 33) (b2z x26 - 33) (b2z x20)),
    [],
    [] ++ [snd (buildMouseEvent
                 (set_escbuf (escbuf demo_screen ++
                              [ESC; "["%byte; "M"%byte; x20; x2b; x26])
                    demo_screen)
                 (b2z x2b - 33) (b2z x26 - 33) (b2z x20))])).
Proof.
  split; [reflexivity|].
  apply (C4_x10_report_decoding demo_screen x20 x2b x26 [] []).
  reflexivity.
Defined.

Lemma C5_witness_demo_screen :
  escaped demo_screen = false /\
  no_key_prefix (keycodes demo_screen) [ESC; "a"%byte] = true /\
  no_rawseq_prefix (rawseq demo_screen) [ESC; "a"%byte] = true /\
  mainLoop_keychan 3 demo_screen [] [ESC; "a"%byte] =
    Ok (Sent demo_screen [ESC; "a"%byte]) /\
  exists r1,
    mainLoop_keychan 3 demo_screen [] [ESC; "a"%byte] = Ok r1 /\
    match r1 with
    | Sent t1 inp1 => mainLoop_keytimer 3 t1 inp1 true
    | Blocked _ _ _ _ => Ok r1
    end =
    Ok (if len (evch demo_screen) <? 10
        then Sent
               (set_evch
                  (evch demo_screen ++
                   [NewEventKey KeyRune 97 ModAlt
                      (escbuf demo_screen ++ [ESC; "a"%byte])])
                  (set_escbuf [] (set_escaped false demo_screen)))
               []
        else Blocked (set_escbuf [] (set_escaped false demo_screen))
               (NewEventKey KeyRune 97 ModAlt
                  (escbuf demo_screen ++ [ESC; "a"%byte]))
               [] []).
Proof.
  repeat (split; [reflexivity|]).
  apply (C5_alt_after_escape demo_screen [] []); reflexivity.
Defined.

Lemma C7_witness_after_Fini :
  fini (Fini demo_screen) = true /\
  SetStyle (1, 2, 3) (Fini demo_screen) = Fini demo_screen /\
  Show 10 (Fini demo_screen) = Ok (Fini demo_screen) /\
  Sync 10 (Fini demo_screen) = Ok (set_cy (-1) (set_cx (-1) (Fini demo_screen))).
Proof.
  split; [reflexivity|].
  pose proof (C7_operations_after_fini (Fini demo_screen) eq_refl)
    as (Hstyle & _ & _ & _ & Hshow & Hsync & _).
  split; [apply Hstyle|]. split; [apply Hshow | apply Hsync].
Defined.

Lemma C8_witness_clipboard :
  register_ok (bytes "p") = true /\
  register_ok (bytes "x") = false /\
  SetClipboard (bytes "hello") (bytes "p") demo_screen =
    (TPuts (pasteSet "p"%byte (EncodeToString (bytes "hello")))
       (TPuts (pasteClear "p"%byte) demo_screen),
     if 74994 <=? len (bytes "hello") then Some ErrTruncated else None) /\
  exists e,
    GetClipboard (bytes "x") demo_screen = (demo_screen, Some e) /\
    e <> ErrTruncated.
Proof.
  split; [reflexivity|]. split; [reflexivity|]. split.
  - apply (proj2 (C8_clipboard_register_and_truncation demo_screen
                    (bytes "hello") (bytes "p")) eq_refl).
  - apply (proj1 (C8_clipboard_register_and_truncation demo_screen
                    [] (bytes "x")) eq_refl).
Defined.

Lemma C9_witness_wide_glyph_last_column :
  cells_GetContent (cells demo_wide_at_margin) 79 0 = (19990, [], (0, 0, 0), 2) /\
  cells_Dirty (cells demo_wide_at_margin) 79 0 = true /\
  0 <= 79 < w demo_wide_at_margin /\
  79 > w demo_wide_at_margin - 2 /\
  exists t' pre,
    drawCell 79 0 demo_wide_at_margin = (t', 1) /\
    written t' = written demo_wide_at_margin ++ pre ++ [WriteOut (bytes " ")] /\
    forallb is_tputs pre = true /\
    cx t' =
      (if bytes_eqb (cellString demo_wide_at_margin 19990 []) (bytes "?")
       then -1 else 79) + 1.
Proof.
  split; [reflexivity|]. split; [reflexivity|].
  split; [cbn; lia|]. split; [cbn; lia|].
  apply (C9_glyph_clipped_at_right_margin demo_wide_at_margin 79 0 19990 []
           (0, 0, 0) 2); try reflexivity; cbn; unfold int_ok; lia.
Defined.

Lemma C10_witness_demo_screen :
  cells_Size (cells demo_screen) = (80, 24) /\
  mouse_in_screen 80 24 (snd (buildMouseEvent demo_screen 200 (-3) 0)) /\
  (forall evs t' rest,
     collectEventsFromInput 5 demo_screen
       (ESC :: bytes "[<0;500;-7M") false = Ok (evs, t', rest) ->
     Forall (mouse_in_screen 80 24) evs).
Proof.
  split; [reflexivity|].
  assert (Hi80 : int_ok 80) by (unfold int_ok; lia).
  assert (Hi24 : int_ok 24) by (unfold int_ok; lia).
  pose proof (C10_mouse_events_clipped_to_screen demo_screen 80 24 eq_refl
                ltac:(lia) ltac:(lia) Hi80 Hi24) as [Hbuild Hscan].
  split; [apply Hbuild|].
  intros evs t' rest. apply Hscan.
Defined.

Example sgr_report_out_of_range_is_clipped :
  parsed (collectEventsFromInput 5 demo_screen
            (ESC :: bytes "[<0;500;-7M") false) =
  Some ([NewEventMouse 79 0 Button1 ModNone (ESC :: bytes "[<0;500;-7M")], []).
Proof. reflexivity. Qed.

(** * Further properties of the code *)

Section KeyTableFacts.
Context `{Collaborators}.

Lemma bytes_eqb_refl (a : list byte) : bytes_eqb a a = true.
Proof. now apply bytes_eqb_eq. Qed.

Lemma bytes_eqb_neq (a b : list byte) : a <> b -> bytes_eqb a b = false.
Proof.
  intros Hne. destruct (bytes_eqb a b) eqn:E; [|reflexivity].
  apply bytes_eqb_eq in E. contradiction.
Qed.

Lemma keycodes_lookup_store (kcs : list (list byte * tKeyCode))
    (val other : list byte) (k : tKeyCode) :
  keycodes_lookup (keycodes_store kcs val k) other =
  if bytes_eqb val other then Some k else keycodes_lookup kcs other.
Proof.
  induction kcs as [|[e k0] kcs IH]; cbn [keycodes_store keycodes_lookup].
  - destruct (bytes_eqb val other); reflexivity.
  - destruct (bytes_eqb e val) eqn:Ee.
    + apply bytes_eqb_eq in Ee. subst e. cbn [keycodes_lookup].
      destruct (bytes_eqb val other); reflexivity.
    + cbn [keycodes_lookup]. rewrite IH.
      destruct (bytes_eqb e other) eqn:Eo; [|reflexivity].
      apply bytes_eqb_eq in Eo. subst e. now rewrite bytes_eqb_neq by
        (intros ->; rewrite bytes_eqb_refl in Ee; discriminate).
Qed.

Lemma keycodes_lookup_None (kcs : list (list byte * tKeyCode)) (val : list byte) :
  keycodes_lookup kcs val = None <-> ~ In val (map fst kcs).
Proof.
  induction kcs as [|[e k] kcs IH]; cbn [keycodes_lookup map fst In].
  - tauto.
  - destruct (bytes_eqb e val) eqn:E.
    + apply bytes_eqb_eq in E. split; [discriminate | tauto].
    + rewrite IH. split; [|tauto]. intros Hn [->|Hin]; [|tauto].
      now rewrite bytes_eqb_refl in E.
Qed.

Lemma keycodes_store_keys (kcs : list (list byte * tKeyCode)) (val : list byte)
    (k : tKeyCode) :
  map fst (keycodes_store kcs val k) =
  match keycodes_lookup kcs val with
  | Some _ => map fst kcs
  | None => map fst kcs ++ [val]
  end.
Proof.
  induction kcs as [|[e k0] kcs IH]; cbn [keycodes_store keycodes_lookup map fst];
    [reflexivity|].
  destruct (bytes_eqb e val) eqn:E; [reflexivity|].
  cbn [map fst]. rewrite IH. now destruct (keycodes_lookup kcs val).
Qed.

Lemma keycodes_store_wf (kcs : list (list byte * tKeyCode)) (val : list byte)
    (k : tKeyCode) :
  keycodes_wf kcs -> nonempty val = true -> keycodes_wf (keycodes_store kcs val k).
Proof.
  intros [Hne Hnd] Hv. split; [now apply keycodes_store_nonempty|].
  rewrite keycodes_store_keys.
  destruct (keycodes_lookup kcs val) eqn:El; [exact Hnd|].
  apply keycodes_lookup_None in El.
  apply NoDup_app. repeat split; [exact Hnd | | repeat constructor; apply not_elem_of_nil].
  intros x Hx Hx'. apply list_elem_of_In in Hx. apply list_elem_of_singleton in Hx'.
  subst x. contradiction.
Qed.

(** X1.  [prepareKeyMod] adds a sequence that is not empty and not yet in
    the key table, with its key and modifiers, and marks the key as present
    ([HasKey]); it never overrides a sequence that is in the table, does
    nothing for the empty sequence, and leaves every other sequence as it
    was. *)
Theorem X1_prepareKeyMod_adds_and_never_overrides (t : tScreen) (key md : Z)
    (val : list byte) :
  (nonempty val = true -> keycodes_lookup (keycodes t) val = None ->
   keycodes_lookup (keycodes (prepareKeyMod key md val t)) val =
     Some (mkKeyCode key md) /\
   HasKey key (prepareKeyMod key md val t) = true) /\
  (forall old, keycodes_lookup (keycodes t) val = Some old ->
   prepareKeyMod key md val t = t) /\
  (val = [] -> prepareKeyMod key md val t = t) /\
  (forall other, other <> val ->
   keycodes_lookup (keycodes (prepareKeyMod key md val t)) other =
   keycodes_lookup (keycodes t) other).
Proof.
  unfold prepareKeyMod. repeat split.
  - rewrite H0, H1. cbn. rewrite keycodes_lookup_store, bytes_eqb_refl.
    reflexivity.
  - rewrite H0, H1. unfold HasKey. cbn.
    destruct (key =? KeyRune); [reflexivity|].
    now rewrite lookup_insert_eq.
  - intros old Ho. rewrite Ho. now destruct (nonempty val).
  - intros ->. reflexivity.
  - intros other Hne. destruct (nonempty val); [|reflexivity].
    destruct (keycodes_lookup (keycodes t) val); [reflexivity|].
    cbn. rewrite keycodes_lookup_store.
    now rewrite bytes_eqb_neq by congruence.
Qed.

(** X2.  [prepareKeyModReplace] overrides a sequence of the table exactly
    when the key stored for it is the key named [replace]; for a sequence
    that is not in the table it does what [prepareKeyMod] does, and it
    leaves the table alone when the stored key is another one. *)
Theorem X2_prepareKeyModReplace_overrides_named_key (t : tScreen)
    (key replace md : Z) (val : list byte) :
  (forall old, nonempty val = true ->
   keycodes_lookup (keycodes t) val = Some old -> kc_key old = replace ->
   keycodes_lookup (keycodes (prepareKeyModReplace key replace md val t)) val =
     Some (mkKeyCode key md) /\
   HasKey key (prepareKeyModReplace key replace md val t) = true) /\
  (forall old,
   keycodes_lookup (keycodes t) val = Some old -> kc_key old <> replace ->
   prepareKeyModReplace key replace md val t = t) /\
  (keycodes_lookup (keycodes t) val = None ->
   prepareKeyModReplace key replace md val t = prepareKeyMod key md val t) /\
  (forall other, other <> val ->
   keycodes_lookup (keycodes (prepareKeyModReplace key replace md val t)) other =
   keycodes_lookup (keycodes t) other).
Proof.
  unfold prepareKeyModReplace, prepareKeyMod. repeat split.
  - rewrite H0, H1. apply Z.eqb_eq in H2. rewrite H2. cbn.
    rewrite keycodes_lookup_store, bytes_eqb_refl. reflexivity.
  - rewrite H0, H1. apply Z.eqb_eq in H2. rewrite H2. unfold HasKey. cbn.
    destruct (key =? KeyRune); [reflexivity|]. now rewrite lookup_insert_eq.
  - intros old Ho Hne. rewrite Ho. apply Z.eqb_neq in Hne. rewrite Hne.
    now destruct (nonempty val).
  - intros Hn. rewrite Hn. reflexivity.
  - intros other Hne. destruct (nonempty val); [|reflexivity].
    destruct (keycodes_lookup (keycodes t) val) as [old|].
    + destruct (kc_key old =? replace); [|reflexivity].
      cbn. rewrite keycodes_lookup_store.
      now rewrite bytes_eqb_neq by congruence.
    + cbn. rewrite keycodes_lookup_store.
      now rewrite bytes_eqb_neq by congruence.
Qed.

Lemma prepareControlKey_wf (i : Z) (t : tScreen) :
  keycodes_wf (keycodes t) -> keycodes_wf (keycodes (prepareControlKey i t)).
Proof.
  intros Hwf. unfold prepareControlKey.
  destruct (existsb _ _); [exact Hwf|].
  cbn. now apply keycodes_store_wf.
Qed.

(** X3.  The key table stays a map without the empty sequence: when no
    entry is the empty sequence and no sequence has two entries,
    [prepareKeyMod], [prepareKeyModReplace] and the loop over the control
    keys leave it so (the loop reads byte 0 of every sequence of the
    table). *)
Theorem X3_key_table_keeps_no_empty_sequence (t : tScreen) :
  keycodes_wf (keycodes t) ->
  (forall key md val, keycodes_wf (keycodes (prepareKeyMod key md val t))) /\
  (forall key replace md val,
     keycodes_wf (keycodes (prepareKeyModReplace key replace md val t))) /\
  keycodes_wf (keycodes (prepareControlKeys t)).
Proof.
  intros Hwf. split; [|split].
  - intros key md val. unfold prepareKeyMod.
    destruct (nonempty val) eqn:Hv; [|exact Hwf].
    destruct (keycodes_lookup (keycodes t) val); [exact Hwf|].
    cbn. now apply keycodes_store_wf.
  - intros key replace md val. unfold prepareKeyModReplace.
    destruct (nonempty val) eqn:Hv; [|exact Hwf].
    destruct (keycodes_lookup (keycodes t) val) as [old|].
    + destruct (kc_key old =? replace); [|exact Hwf].
      cbn. now apply keycodes_store_wf.
    + cbn. now apply keycodes_store_wf.
  - unfold prepareControlKeys. generalize (map Z.of_nat (seq 0 32)).
    intros l. revert t Hwf.
    induction l as [|i l IH]; intros t Hwf; [exact Hwf|].
    cbn [fold_left]. apply IH. now apply prepareControlKey_wf.
Qed.

Lemma b2z_z2b (i : Z) : 0 <= i < 256 -> b2z (z2b i) = i.
Proof.
  intros Hi. unfold z2b. rewrite Z.mod_small by lia.
  destruct (Byte.of_N (Z.to_N i)) as [c|] eqn:E.
  - apply Byte.to_of_N in E. unfold b2z. rewrite E. lia.
  - apply Byte.of_N_None_iff in E. lia.
Qed.

Lemma z2b_inj (i j : Z) : 0 <= i < 256 -> 0 <= j < 256 -> z2b i = z2b j -> i = j.
Proof.
  intros Hi Hj E. rewrite <- (b2z_z2b i Hi), <- (b2z_z2b j Hj). now rewrite E.
Qed.

Lemma starts_with_store (c : byte) (kcs : list (list byte * tKeyCode))
    (val : list byte) (k : tKeyCode) :
  starts_with c (keycodes_store kcs val k) =
  starts_with c kcs || Byte.eqb (hd x00 val) c.
Proof.
  unfold starts_with.
  induction kcs as [|[e k0] kcs IH]; cbn [keycodes_store existsb fst].
  - now rewrite orb_false_r.
  - destruct (bytes_eqb e val) eqn:E.
    + apply bytes_eqb_eq in E. subst e. cbn [existsb fst].
      destruct (Byte.eqb (hd x00 val) c), (existsb _ kcs); reflexivity.
    + cbn [existsb fst]. rewrite IH. now rewrite orb_assoc.
Qed.

Lemma starts_with_prepareControlKey (c : byte) (i : Z) (t : tScreen) :
  starts_with c (keycodes (prepareControlKey i t)) =
  starts_with c (keycodes t) || Byte.eqb (z2b i) c.
Proof.
  unfold prepareControlKey. fold (starts_with (z2b i) (keycodes t)).
  destruct (starts_with (z2b i) (keycodes t)) eqn:E.
  - destruct (Byte.eqb (z2b i) c) eqn:Ec; [|now rewrite orb_false_r].
    apply byte_eqb_eq in Ec. subst c. now rewrite E.
  - cbn -[starts_with keycodes_store]. now rewrite starts_with_store.
Qed.

Lemma prepareControlKey_keyexist (i j : Z) (t : tScreen) :
  keyexist t !! j = Some true ->
  keyexist (prepareControlKey i t) !! j = Some true.
Proof.
  intros Hj. unfold prepareControlKey. destruct (existsb _ _); [exact Hj|].
  cbn. destruct (Z.eq_dec i j) as [->|Hne].
  - now rewrite lookup_insert_eq.
  - now rewrite lookup_insert_ne.
Qed.

Lemma controlKeys_keyexist (l : list Z) (j : Z) (t : tScreen) :
  keyexist t !! j = Some true ->
  keyexist (fold_left (fun t i => prepareControlKey i t) l t) !! j = Some true.
Proof.
  revert t. induction l as [|i l IH]; intros t Hj; [exact Hj|].
  cbn [fold_left]. apply IH. now apply prepareControlKey_keyexist.
Qed.

Lemma controlKeys_lookup (l : list Z) (t : tScreen) :
  NoDup l -> Forall (fun i => 0 <= i < 256) l ->
  let t' := fold_left (fun t i => prepareControlKey i t) l t in
  (forall i, In i l -> starts_with (z2b i) (keycodes t) = false ->
     keycodes_lookup (keycodes t') [z2b i] = Some (mkKeyCode i (controlMod i)) /\
     keyexist t' !! i = Some true) /\
  (forall other,
     (forall i, In i l -> other = [z2b i] ->
        starts_with (z2b i) (keycodes t) = true) ->
     keycodes_lookup (keycodes t') other = keycodes_lookup (keycodes t) other).
Proof.
  intros Hnd Hr. revert t. induction l as [|i l IH]; intros t; cbn zeta.
  - split; [intros i []|reflexivity].
  - apply NoDup_cons in Hnd as [Hni Hnd].
    rewrite list_elem_of_In in Hni.
    apply Forall_cons in Hr as [Hi Hr].
    specialize (IH Hnd Hr (prepareControlKey i t)). cbn zeta in IH.
    destruct IH as [IHa IHb]. cbn [fold_left].
    assert (Hother : forall j, In j l -> z2b j <> z2b i).
    { intros j Hj E. apply z2b_inj in E; [congruence| |exact Hi].
      exact (proj1 (List.Forall_forall _ _) Hr j Hj). }
    split.
    + intros j [<-|Hj] Hs.
      * rewrite IHb.
        -- split.
           ++ unfold prepareControlKey.
              fold (starts_with (z2b i) (keycodes t)). rewrite Hs. cbn.
              rewrite keycodes_lookup_store, bytes_eqb_refl. reflexivity.
           ++ apply controlKeys_keyexist. unfold prepareControlKey.
              fold (starts_with (z2b i) (keycodes t)). rewrite Hs. cbn.
              now rewrite lookup_insert_eq.
        -- intros j Hj [= E]. symmetry in E. now apply Hother in E.
      * apply IHa; [exact Hj|].
        rewrite starts_with_prepareControlKey, Hs. cbn [orb].
        destruct (Byte.eqb (z2b i) (z2b j)) eqn:E; [|reflexivity].
        apply byte_eqb_eq in E. symmetry in E. now apply Hother in E.
    + intros other Ho. rewrite IHb.
      * unfold prepareControlKey. fold (starts_with (z2b i) (keycodes t)).
        destruct (starts_with (z2b i) (keycodes t)) eqn:Hs; [reflexivity|].
        cbn. rewrite keycodes_lookup_store.
        rewrite bytes_eqb_neq; [reflexivity|].
        intros E. symmetry in E. apply Ho in E; [congruence|now left].
      * intros j Hj E. rewrite starts_with_prepareControlKey.
        rewrite (Ho j); [reflexivity|now right|exact E].
Qed.

(** X4.  The loop over the control keys of [prepareKeys], on a key table
    without the empty sequence: a control byte [i] below 32 that no
    sequence of the table starts with gets an entry of its own, with key
    [i] and the modifier Ctrl (none for backspace, tab, escape and enter),
    and the key is marked present; a control byte that some sequence starts
    with gets none, so the table says for it what it said before; and no
    other sequence is touched. *)
Theorem X4_control_keys_skip_ambiguous_bytes (t : tScreen) (i : Z) :
  keycodes_nonempty (keycodes t) = true -> 0 <= i < 32 ->
  (starts_with (z2b i) (keycodes t) = false ->
   keycodes_lookup (keycodes (prepareControlKeys t)) [z2b i] =
     Some (mkKeyCode i (controlMod i)) /\
   HasKey i (prepareControlKeys t) = true) /\
  (starts_with (z2b i) (keycodes t) = true ->
   keycodes_lookup (keycodes (prepareControlKeys t)) [z2b i] =
   keycodes_lookup (keycodes t) [z2b i]) /\
  (forall other, len other <> 1 \/ 32 <= b2z (hd x00 other) ->
   keycodes_lookup (keycodes (prepareControlKeys t)) other =
   keycodes_lookup (keycodes t) other).
Proof.
  intros _ Hi. unfold prepareControlKeys.
  remember (map Z.of_nat (seq 0 32)) as l eqn:El.
  assert (Hin : forall j, In j l <-> 0 <= j < 32).
  { intros j. subst l. rewrite in_map_iff. split.
    - intros (n & <- & Hn). apply in_seq in Hn. lia.
    - intros Hj. exists (Z.to_nat j). split; [lia|]. apply in_seq. lia. }
  assert (Hnd : NoDup l).
  { subst l. apply NoDup_fmap_2; [intros a b; lia|apply NoDup_seq]. }
  assert (Hr : Forall (fun i => 0 <= i < 256) l).
  { apply List.Forall_forall. intros j Hj. apply Hin in Hj. lia. }
  clear El.
  destruct (controlKeys_lookup l t Hnd Hr) as [Ha Hb].
  split; [|split].
  - intros Hs. destruct (Ha i (proj2 (Hin i) Hi) Hs) as [Hl Hk].
    split; [exact Hl|]. unfold HasKey. rewrite Hk.
    now destruct (i =? KeyRune).
  - intros Hs. apply Hb. intros j Hj [= E].
    apply z2b_inj in E; [subst j; exact Hs|lia|].
    apply Hin in Hj. lia.
  - intros other Ho. apply Hb. intros j Hj ->. apply Hin in Hj.
    cbn in Ho. rewrite b2z_z2b in Ho by lia. unfold len in Ho. cbn in Ho. lia.
Qed.

End KeyTableFacts.

Section ScanProgress.
Context `{Collaborators}.

Lemma readInto_skipn (n : nat) (inp esc : list byte) :
  fst (readInto n inp esc) = skipn n inp.
Proof.
  revert inp esc. induction n as [|n IH]; intros inp esc; [reflexivity|].
  destruct inp as [|c rest]; cbn [readInto skipn]; rewrite IH; [|reflexivity].
  now destruct n.
Qed.

Lemma consume_eq (n : nat) (t : tScreen) (inp : list byte) :
  consume n t inp =
  (set_escbuf (snd (readInto n inp (escbuf t))) t, skipn n inp).
Proof.
  unfold consume. rewrite <- (readInto_skipn n inp (escbuf t)).
  now destruct (readInto n inp (escbuf t)).
Qed.

Lemma skipn_shorter (n : nat) (inp : list byte) :
  (1 <= n)%nat -> inp <> [] -> (length (skipn n inp) < length inp)%nat.
Proof.
  intros Hn Hi. rewrite length_skipn. destruct inp; [contradiction|cbn; lia].
Qed.

Lemma scan_static_refl (t : tScreen) : scan_static t t.
Proof. repeat split. Qed.

Lemma scan_ready_static (t t' : tScreen) :
  scan_static t t' -> scan_ready t -> scan_ready t'.
Proof.
  intros (Hk & Hr & Hd & _) (H1 & H2 & H3). unfold scan_ready.
  rewrite Hk, Hr, Hd. auto.
Qed.

Lemma scan_static_trans (t1 t2 t3 : tScreen) :
  scan_static t1 t2 -> scan_static t2 t3 -> scan_static t1 t3.
Proof.
  intros (A1 & A2 & A3 & A4 & A5 & A6) (B1 & B2 & B3 & B4 & B5 & B6).
  repeat split; congruence.
Qed.

Lemma advances_same (s : PS) : advances s false s.
Proof. split; [apply scan_static_refl|reflexivity]. Qed.

Lemma advances_skip (t t' : tScreen) (inp : list byte) (evs evs' : list Event)
    (n : nat) :
  scan_static t t' -> (1 <= n)%nat -> inp <> [] ->
  advances (t, inp, evs) true (t', skipn n inp, evs').
Proof.
  intros Hs Hn Hi. split; [exact Hs|]. exists n. cbn [fst snd].
  split; [reflexivity|now apply skipn_shorter].
Qed.

Lemma parseSgrMouse_advances (s : PS) :
  snd (fst s) <> [] ->
  advances s (snd (fst (parseSgrMouse s))) (snd (parseSgrMouse s)).
Proof.
  destruct s as [[t inp] evs]. cbn [fst snd]. intros Hi. unfold parseSgrMouse.
  destruct (sgrLoop inp 0 _) as [| |i v c]; cbn [fst snd];
    try apply advances_same.
  match goal with
  | |- context [let '(_, _) := ?e in _] => destruct e as [btn t1] eqn:E1
  end.
  assert (Ht1 : scan_static t t1).
  { repeat match type of E1 with
    | context [if ?c then _ else _] => destruct c
    end; injection E1 as _ <-; repeat split. }
  rewrite consume_eq.
  destruct (buildMouseEvent_state
              (set_escbuf (snd (readInto (S i) inp (escbuf t1))) t1)
              (sg_x v) (sg_y v) btn) as [wb Hb].
  destruct (buildMouseEvent _ (sg_x v) (sg_y v) btn) as [t3 ev].
  cbn [fst snd] in *. subst t3.
  apply advances_skip; [|lia|exact Hi].
  eapply scan_static_trans; [exact Ht1|repeat split].
Qed.

Lemma parseXtermMouse_advances (s : PS) :
  snd (fst s) <> [] ->
  advances s (snd (fst (parseXtermMouse s))) (snd (parseXtermMouse s)).
Proof.
  destruct s as [[t inp] evs]. cbn [fst snd]. intros Hi. unfold parseXtermMouse.
  destruct (xtermLoop inp 0 _ 0 0 0) as [| |i x y btn]; cbn [fst snd];
    try apply advances_same.
  rewrite consume_eq.
  destruct (buildMouseEvent_state
              (set_escbuf (snd (readInto (S i) inp (escbuf t))) t) x y btn)
    as [wb Hb].
  destruct (buildMouseEvent _ x y btn) as [t3 ev].
  cbn [fst snd] in *. subst t3.
  apply advances_skip; [repeat split|lia|exact Hi].
Qed.

Lemma functionKeyLoop_Some (kcs : list (list byte * tKeyCode)) (b : list byte)
    (p p' : bool) (esc : list byte) (k : tKeyCode) :
  functionKeyLoop kcs b p = (p', Some (esc, k)) ->
  In (esc, k) kcs /\ HasPrefix b esc = true /\ esc <> [ESC].
Proof.
  revert p. induction kcs as [|[e k0] kcs IH]; intros p; cbn [functionKeyLoop];
    [discriminate|].
  destruct (Nat.eqb (length e) 1 && Byte.eqb (hd x00 e) ESC) eqn:El.
  - intros Hf. destruct (IH _ Hf) as (Hin & Hp & Hne). split; [now right|auto].
  - destruct (HasPrefix b e) eqn:Hp.
    + intros [= <- <- <-]. split; [now left|]. split; [exact Hp|].
      intros ->. cbn in El. discriminate.
    + intros Hf. destruct (IH _ Hf) as (Hin & Hp' & Hne).
      split; [now right|auto].
Qed.

Lemma keycodes_nonempty_In (kcs : list (list byte * tKeyCode)) (esc : list byte)
    (k : tKeyCode) :
  keycodes_nonempty kcs = true -> In (esc, k) kcs -> (1 <= length esc)%nat.
Proof.
  unfold keycodes_nonempty. intros Hk Hin.
  rewrite forallb_forall in Hk. specialize (Hk _ Hin). cbn in Hk.
  destruct esc; [discriminate|cbn; lia].
Qed.

Lemma parseFunctionKey_advances (s : PS) :
  keycodes_nonempty (keycodes (fst (fst s))) = true ->
  snd (fst s) <> [] ->
  advances s (snd (fst (parseFunctionKey s))) (snd (parseFunctionKey s)).
Proof.
  destruct s as [[t inp] evs]. cbn [fst snd]. intros Hk Hi.
  unfold parseFunctionKey.
  destruct (functionKeyLoop (keycodes t) inp false) as [p [[esc k]|]] eqn:Ef;
    cbn [fst snd]; try apply advances_same.
  apply functionKeyLoop_Some in Ef as (Hin & _ & _).
  pose proof (keycodes_nonempty_In _ _ _ Hk Hin) as Hl.
  destruct (escaped t); rewrite consume_eq; cbn [fst snd];
    (apply advances_skip; [repeat split|exact Hl|exact Hi]).
Qed.

Lemma decodeLoop_advances (k l : nat) (s : PS) :
  scan_ready (fst (fst s)) ->
  snd (fst s) <> [] ->
  advances s (snd (fst (decodeLoop k l s))) (snd (decodeLoop k l s)).
Proof.
  destruct s as [[t inp] evs]. cbn [fst snd]. intros (_ & _ & Hd) Hi.
  revert l. induction k as [|k IH]; intros l; cbn [decodeLoop];
    [apply advances_same|].
  destruct (dec_short _) eqn:Es; [apply IH|].
  destruct (dec_nout _ =? 0) eqn:En; cbn [negb]; [apply IH|].
  apply Z.eqb_neq in En. pose proof (Hd _ Es En) as Hn.
  destruct (negb (dec_rune _ =? RuneError)).
  - destruct (escaped t); rewrite consume_eq; cbn [fst snd];
      (apply advances_skip; [repeat split|exact Hn|exact Hi]).
  - rewrite consume_eq; cbn [fst snd].
    apply advances_skip; [repeat split|exact Hn|exact Hi].
Qed.

Lemma parseRune_advances (s : PS) :
  scan_ready (fst (fst s)) ->
  snd (fst s) <> [] ->
  exists r, parseRune s = Ok r /\ advances s (snd (fst r)) (snd r).
Proof.
  destruct s as [[t inp] evs]. cbn [fst snd]. intros Hr Hi. unfold parseRune.
  destruct inp as [|b0 rest]; [contradiction|].
  pose proof (decodeLoop_advances (length (b0 :: rest)) 1 (t, b0 :: rest, evs)
                Hr Hi) as Hd.
  set (d := decodeLoop _ _ _) in *. clearbody d.
  destruct (_ && _).
  - destruct (escaped t); rewrite consume_eq; eexists; (split; [reflexivity|]);
      cbn [fst snd];
      (apply (advances_skip _ _ (b0 :: rest) _ _ 1); [repeat split|lia|exact Hi]).
  - destruct (_ <? _); eexists; (split; [reflexivity|]);
      [apply advances_same|exact Hd].
Qed.

Lemma parsePaste_advances (s : PS) :
  snd (fst s) <> [] ->
  exists r, parsePaste s = Ok r /\ advances s (fst r) (snd r).
Proof.
  destruct s as [[t inp] evs]. cbn [fst snd]. intros Hi. unfold parsePaste.
  destruct inp as [|b0 rest]; [contradiction|].
  destruct (negb _);
    [|eexists; split; [reflexivity|apply advances_same]].
  cbv zeta. destruct (1 <? _) eqn:El;
    [|eexists; split; [reflexivity|apply advances_same]].
  rewrite consume_eq. eexists. split; [reflexivity|]. cbn [fst snd].
  apply advances_skip; [repeat split| |exact Hi].
  apply Z.ltb_lt in El. unfold len in El. lia.
Qed.

Lemma parseOSC52Paste_advances (s : PS) :
  snd (fst s) <> [] ->
  advances s (snd (fst (parseOSC52Paste s))) (snd (parseOSC52Paste s)).
Proof.
  destruct s as [[t inp] evs]. cbn [fst snd]. intros Hi.
  unfold parseOSC52Paste. cbv zeta.
  destruct (_ || _); [|apply advances_same].
  destruct (_ <=? _) eqn:El; [|apply advances_same].
  apply Z.leb_le in El. change (len pasteOSC52Begin + 2) with 7 in El.
  destruct (Decode _); cbn [fst snd]; unfold slice_from; rewrite drop_drop;
    (apply advances_skip; [repeat split|lia|exact Hi]).
Qed.

Lemma parseBracketedPaste_advances (s : PS) :
  snd (fst s) <> [] ->
  advances s (snd (fst (parseBracketedPaste s))) (snd (parseBracketedPaste s)).
Proof.
  destruct s as [[t inp] evs]. cbn [fst snd]. intros Hi.
  unfold parseBracketedPaste. cbv zeta.
  destruct (_ || _); [|apply advances_same].
  destruct (_ && _) eqn:El; [|apply advances_same].
  apply andb_true_iff in El as [_ El]. apply Z.leb_le in El.
  change (len pasteBegin) with 6 in El. cbn [fst snd]. unfold slice_from.
  apply advances_skip; [repeat split| |exact Hi].
  change (len pasteEnd) with 6. lia.
Qed.

Lemma scanFallback_advances (s : PS) :
  forallb nonempty (rawseq (fst (fst s))) = true ->
  snd (fst s) <> [] ->
  advances s true (scanFallback s).
Proof.
  destruct s as [[t inp] evs]. cbn [fst snd]. intros Hr Hi.
  unfold scanFallback. cbv zeta.
  destruct (Byte.eqb _ _).
  - destruct (find _ _) as [r|] eqn:Ef.
    + apply find_some in Ef as [Hin _].
      rewrite forallb_forall in Hr. specialize (Hr _ Hin).
      apply advances_skip; [repeat split| |exact Hi].
      destruct r; [discriminate|cbn; lia].
    + destruct (len inp =? 1); rewrite consume_eq;
        (apply advances_skip; [repeat split|lia|exact Hi]).
  - rewrite consume_eq. apply advances_skip; [repeat split|lia|exact Hi].
Qed.

(** One pass of the scan loop on a buffer that is not empty: it ends in a
    result, takes bytes off the front when it asks for another pass, and
    changes nothing when it does not, which happens only without expiry. *)
Lemma scanStep_advances (expire : bool) (s : PS) :
  scan_ready (fst (fst s)) ->
  snd (fst s) <> [] ->
  exists again s',
    scanStep expire s = Ok (again, s') /\ advances s again s' /\
    (again = false -> expire = false).
Proof.
  destruct s as [[t inp] evs]. cbn [fst snd]. intros Hr Hi.
  pose proof Hr as (Hk & Hraw & _).
  destruct inp as [|b0 rest]; [contradiction|].
  set (s := (t, b0 :: rest, evs)) in *.
  set (Q := fun res : Result (bool * PS) =>
              exists again s', res = Ok (again, s') /\ advances s again s' /\
                               (again = false -> expire = false)).
  assert (Hatt : forall r partials k,
            advances s (snd (fst r)) (snd r) ->
            (forall p, Q (k p s)) -> Q (attempt r partials k)).
  { intros [[part comp] s1] partials k Ha Hk'. cbn [fst snd attempt] in *.
    destruct comp.
    - exists true, s1. split; [reflexivity|split; [exact Ha|discriminate]].
    - destruct Ha as [_ ->]. apply Hk'. }
  assert (Hfinal : forall p,
            Q (if (p =? 0) || expire then Ok (true, scanFallback s)
               else Ok (false, s))).
  { intros p. destruct ((p =? 0) || expire) eqn:E.
    - exists true, (scanFallback s).
      split; [reflexivity|split; [|discriminate]].
      now apply scanFallback_advances.
    - exists false, s. apply orb_false_iff in E as [_ E].
      split; [reflexivity|split; [apply advances_same|auto]]. }
  assert (Hbind : forall A (e : Result A) (k : A -> Result (bool * PS)) r,
            e = Ok r -> Q (k r) -> Q (bindR e k)).
  { intros A e k r -> Hq. exact Hq. }
  change (Q (scanStep expire (t, b0 :: rest, evs))). unfold scanStep.
  cbv beta iota. fold s.
  assert (Hp : exists r, (if paste t then parsePaste s else Ok (false, s)) = Ok r /\
                         advances s (fst r) (snd r)).
  { destruct (paste t).
    - now apply parsePaste_advances.
    - exists (false, s). split; [reflexivity|apply advances_same]. }
  destruct Hp as ([pasted s1] & Hp & Hs1). cbn [fst snd] in *.
  eapply Hbind; [exact Hp|]. cbv beta iota.
  destruct pasted.
  { exists true, s1. split; [reflexivity|split; [exact Hs1|discriminate]]. }
  destruct Hs1 as [_ ->].
  apply Hatt; [now apply parseOSC52Paste_advances|]. intros p1.
  apply Hatt; [now apply parseBracketedPaste_advances|]. intros p2.
  destruct (parseRune_advances s Hr Hi) as (r & Hrn' & Hrn).
  eapply Hbind; [exact Hrn'|].
  apply Hatt; [exact Hrn|]. intros p3.
  apply Hatt; [now apply parseFunctionKey_advances|]. intros p4.
  cbv zeta. cbn [fst]. unfold s at 1. cbn [fst].
  destruct (negb _); [|apply Hfinal].
  apply Hatt; [now apply parseXtermMouse_advances|]. intros p5.
  apply Hatt; [now apply parseSgrMouse_advances|]. exact Hfinal.
Qed.

Lemma collectLoop_total (expire : bool) (n : nat) (s : PS) :
  scan_ready (fst (fst s)) ->
  (length (snd (fst s)) <= n)%nat ->
  exists s',
    (forall fuel, (n < fuel)%nat -> collectLoop fuel expire s = Ok s') /\
    scan_static (fst (fst s)) (fst (fst s')) /\
    (exists k, snd (fst s') = skipn k (snd (fst s))) /\
    (expire = true -> snd (fst s') = []).
Proof.
  revert s. induction n as [|n IH]; intros [[t inp] evs]; cbn [fst snd];
    intros Hr Hl.
  - destruct inp; [|cbn in Hl; lia].
    exists (t, [], evs). split; [|split; [|split]];
      [|apply scan_static_refl|now exists O|reflexivity].
    intros [|fuel] Hf; [lia|]. reflexivity.
  - destruct inp as [|b0 rest].
    { exists (t, [], evs). split; [|split; [|split]];
        [|apply scan_static_refl|now exists O|reflexivity].
      intros [|fuel] Hf; [lia|]. reflexivity. }
    destruct (scanStep_advances expire (t, b0 :: rest, evs) Hr)
      as (again & [[t1 inp1] evs1] & Hs & [Hst Hadv] & Hex); [discriminate|].
    cbn [fst snd] in *. destruct again.
    + destruct Hadv as (k & Hk & Hlen).
      destruct (IH (t1, inp1, evs1)) as (s' & Hrun & Hst' & (k' & Hk') & Hexp).
      { cbn [fst]. eapply scan_ready_static; eassumption. }
      { cbn [fst snd]. cbn [length] in *. lia. }
      exists s'. cbn [fst snd] in *. split; [|split; [|split]].
      * intros [|fuel] Hf; [lia|]. cbn [collectLoop]. rewrite Hs. cbn [bindR].
        apply Hrun. lia.
      * eapply scan_static_trans; eassumption.
      * exists (k + k')%nat. rewrite Hk', Hk. apply drop_drop.
      * exact Hexp.
    + injection Hadv as -> -> ->.
      exists (t, b0 :: rest, evs). cbn [fst snd]. split; [|split; [|split]].
      * intros [|fuel] Hf; [lia|]. cbn [collectLoop]. now rewrite Hs.
      * apply scan_static_refl.
      * now exists O.
      * intros He. specialize (Hex eq_refl). congruence.
Qed.

(** X5.  [collectEventsFromInput] ends, and without a panic, on every
    input: when no key sequence and no registered raw sequence is empty and
    the decoder reads at least one byte whenever it writes a rune, a number
    of passes one above the length of the buffer is enough.  What is left
    unread is a tail of the buffer, and nothing is left once the quiet time
    has expired. *)
Theorem X5_scan_terminates (t : tScreen) (inp : list byte) (expire : bool) :
  scan_ready t ->
  exists evs t' rest,
    (forall fuel, (length inp < fuel)%nat ->
       collectEventsFromInput fuel t inp expire = Ok (evs, t', rest)) /\
    (exists k, rest = skipn k inp) /\
    (expire = true -> rest = []).
Proof.
  intros Hr.
  destruct (collectLoop_total expire (length inp) (t, inp, []) Hr (le_n _))
    as ([[t' rest] evs] & Hrun & _ & Hk & He).
  exists evs, t', rest. cbn [fst snd] in *. repeat split; auto.
  intros fuel Hf. unfold collectEventsFromInput. now rewrite Hrun.
Qed.

End ScanProgress.

Section EmptyRawSequence.
Context `{Collaborators}.

Lemma scanStep_lone_ESC_fallback (t : tScreen) (res : list Event) :
  keycodes_nonempty (keycodes t) = true ->
  scanStep true (t, [ESC], res) = Ok (true, scanFallback (t, [ESC], res)).
Proof.
  intros Hk. apply keycodes_nonempty_lone_ESC in Hk.
  destruct (parseFunctionKey_none t [ESC] res Hk) as [p Hp].
  unfold scanStep. rewrite (paste_gate_ESC t). cbn [bindR].
  change (parseOSC52Paste (t, [ESC], res)) with (true, false, (t, [ESC], res)).
  cbn [attempt].
  change (parseBracketedPaste (t, [ESC], res))
    with (true, false, (t, [ESC], res)).
  cbn [attempt].
  change (parseRune (t, [ESC], res)) with (Ok (false, false, (t, [ESC], res))).
  cbn [bindR attempt]. rewrite Hp. cbn [attempt fst].
  destruct (parseXtermMouse_lone_ESC t res) as [px Hpx].
  destruct (parseSgrMouse_lone_ESC t res) as [ps Hps].
  destruct (Nat.eqb (length (terminfo.Mouse (ti t))) 0); cbn [negb].
  - now rewrite orb_true_r.
  - rewrite Hpx. cbn [attempt]. rewrite Hps. cbn [attempt].
    now rewrite orb_true_r.
Qed.

Lemma find_app_last {A} (f : A -> bool) (l : list A) (x : A) :
  find f l = None -> f x = true -> find f (l ++ [x]) = Some x.
Proof.
  intros Hl Hx. induction l as [|a l IH]; cbn [find app] in *.
  - now rewrite Hx.
  - destruct (f a); [discriminate|auto].
Qed.

Lemma collectLoop_empty_raw (fuel : nat) (t : tScreen) (res : list Event) :
  keycodes_nonempty (keycodes t) = true ->
  find (fun r => HasPrefix [ESC] r) (rawseq t) = Some [] ->
  collectLoop fuel true (t, [ESC], res) = OutOfFuel.
Proof.
  revert t res. induction fuel as [|fuel IH]; intros t res Hk Hf;
    [reflexivity|].
  cbn [collectLoop]. rewrite (scanStep_lone_ESC_fallback t) by exact Hk.
  cbn [bindR]. unfold scanFallback. cbn [hd]. rewrite byte_eqb_refl, Hf.
  cbn [length skipn]. apply IH; [exact Hk|exact Hf].
Qed.

(** X6.  Registering the empty raw sequence makes the scan of a lone ESC
    never end once the quiet time has expired: the empty sequence is a
    prefix of the buffer, the pass reports it as a raw event and reads no
    byte, and the next pass finds the same buffer.  (The key table has no
    empty sequence and no raw sequence registered before is [ESC] itself,
    so that without the registration the scan ends with Key(Esc).) *)
Theorem X6_empty_raw_sequence_never_ends (t : tScreen) (fuel : nat) :
  keycodes_nonempty (keycodes t) = true ->
  no_rawseq_prefix (rawseq t) [ESC] = true ->
  collectEventsFromInput fuel (RegisterRawSeq [] t) [ESC] true = OutOfFuel.
Proof.
  intros Hk Hr. unfold collectEventsFromInput.
  rewrite (collectLoop_empty_raw fuel (RegisterRawSeq [] t)); [reflexivity|exact Hk|].
  change (rawseq (RegisterRawSeq [] t)) with (rawseq t ++ [[]]).
  apply find_app_last; [now apply find_rawseq_none|reflexivity].
Qed.

End EmptyRawSequence.

Section PlainInput.
Context `{Collaborators}.

Lemma printable_not_ESC (c : byte) : printable c = true -> c <> ESC.
Proof. intros Hp ->. discriminate Hp. Qed.

Lemma printable_not_CR (c : byte) : printable c = true -> cr2lf c = c.
Proof.
  intros Hp. unfold cr2lf. destruct (Byte.eqb c x0d) eqn:E; [|reflexivity].
  apply byte_eqb_eq in E. subst c. discriminate Hp.
Qed.

Lemma parseOSC52Paste_not_ESC (t : tScreen) (c : byte) (rest : list byte)
    (evs : list Event) :
  c <> ESC ->
  parseOSC52Paste (t, c :: rest, evs) = (false, false, (t, c :: rest, evs)).
Proof.
  intros Hc. unfold parseOSC52Paste. cbv zeta.
  assert (E : Byte.eqb c ESC = false) by now apply byte_eqb_neq.
  assert (E' : Byte.eqb ESC c = false)
    by (apply byte_eqb_neq; congruence).
  change (HasPrefix (c :: rest) pasteOSC52Begin)
    with (Byte.eqb c ESC && HasPrefix rest (bytes "]52;")).
  change (HasPrefix pasteOSC52Begin (c :: rest))
    with (Byte.eqb ESC c && HasPrefix (bytes "]52;") rest).
  now rewrite E, E'.
Qed.

Lemma parseBracketedPaste_not_ESC (t : tScreen) (c : byte) (rest : list byte)
    (evs : list Event) :
  cr2lf c <> ESC ->
  parseBracketedPaste (t, c :: rest, evs) = (false, false, (t, c :: rest, evs)).
Proof.
  intros Hc. unfold parseBracketedPaste. cbv zeta.
  assert (E : Byte.eqb (cr2lf c) ESC = false) by now apply byte_eqb_neq.
  assert (E' : Byte.eqb ESC (cr2lf c) = false)
    by (apply byte_eqb_neq; congruence).
  change (HasPrefix (ReplaceCRLF (c :: rest)) pasteBegin)
    with (Byte.eqb (cr2lf c) ESC && HasPrefix (ReplaceCRLF rest) (bytes "[200~")).
  change (HasPrefix pasteBegin (ReplaceCRLF (c :: rest)))
    with (Byte.eqb ESC (cr2lf c) && HasPrefix (bytes "[200~") (ReplaceCRLF rest)).
  now rewrite E, E'.
Qed.

Lemma scanStep_printable (t : tScreen) (c : byte) (rest : list byte)
    (evs : list Event) (expire : bool) :
  paste t = false -> printable c = true ->
  scanStep expire (t, c :: rest, evs) =
  Ok (true,
      (set_escbuf [] (if escaped t then set_escaped false t else t), rest,
       evs ++ [NewEventKey KeyRune (b2z c)
                 (if escaped t then ModAlt else ModNone) (escbuf t ++ [c])])).
Proof.
  intros Hp Hc. unfold scanStep. rewrite Hp. cbn [bindR].
  rewrite (parseOSC52Paste_not_ESC t) by now apply printable_not_ESC.
  cbn [attempt].
  rewrite (parseBracketedPaste_not_ESC t)
    by (rewrite printable_not_CR by exact Hc; now apply printable_not_ESC).
  cbn [attempt]. unfold parseRune. fold (printable c). rewrite Hc.
  destruct (escaped t); reflexivity.
Qed.

Lemma collectLoop_printable (fuel : nat) (expire : bool) (inp : list byte) :
  forall (t : tScreen) (evs : list Event),
  paste t = false -> forallb printable inp = true ->
  (length inp < fuel)%nat ->
  collectLoop fuel expire (t, inp, evs) =
  Ok (match inp with
      | [] => t
      | _ :: _ => set_escbuf [] (if escaped t then set_escaped false t else t)
      end, [],
      evs ++ rune_keys (if escaped t then ModAlt else ModNone) (escbuf t) inp).
Proof.
  revert fuel. induction inp as [|c rest IH]; intros fuel t evs Hp Hall Hf.
  - destruct fuel; [cbn in Hf; lia|]. cbn. now rewrite app_nil_r.
  - destruct fuel; [cbn in Hf; lia|]. cbn [forallb] in Hall.
    apply andb_true_iff in Hall as [Hc Hall].
    cbn [collectLoop]. rewrite (scanStep_printable t) by assumption.
    cbn [bindR]. rewrite IH; [| |exact Hall|cbn in Hf; lia].
    + cbn [rune_keys]. rewrite <- app_assoc. cbn [app].
      destruct rest; destruct (escaped t) eqn:E; cbn [escaped set_escbuf set_escaped];
        rewrite ?E; reflexivity.
    + now destruct (escaped t).
Qed.

(** X7.  With paste mode off, a buffer of bytes from 0x20 to 0x7F gives one
    rune key per byte, in order, and is read to its end, with or without
    expiry and whatever the key table holds.  Only the first key can carry
    Alt (when the [escaped] flag was set) and raw bytes left from before;
    every later one has no modifier and its own byte as raw bytes. *)
Theorem X7_printable_bytes_one_key_each (t : tScreen) (inp : list byte)
    (expire : bool) (fuel : nat) :
  paste t = false -> forallb printable inp = true ->
  (length inp < fuel)%nat ->
  collectEventsFromInput fuel t inp expire =
  Ok (rune_keys (if escaped t then ModAlt else ModNone) (escbuf t) inp,
      match inp with
      | [] => t
      | _ :: _ => set_escbuf [] (if escaped t then set_escaped false t else t)
      end, []).
Proof.
  intros Hp Hall Hf. unfold collectEventsFromInput.
  rewrite (collectLoop_printable fuel expire inp t) by assumption.
  reflexivity.
Qed.

Lemma index_opt_absent (e : byte) (run : list byte) :
  Forall (fun c => c <> e) run -> index_opt run [e] = None.
Proof.
  induction 1 as [|c run Hc _ IH]; [reflexivity|].
  rewrite index_opt_skip by now apply HasPrefix_head_neq.
  now rewrite IH.
Qed.

Lemma IndexByte_run (e : byte) (run rest : list byte) :
  Forall (fun c => c <> e) run ->
  IndexByte (run ++ e :: rest) e = len run.
Proof.
  intros Hr. unfold IndexByte, Index.
  rewrite index_opt_after
    by (intros k Hk; apply HasPrefix_skipn_neq; assumption).
  rewrite index_opt_here
    by (cbn [HasPrefix]; rewrite byte_eqb_refl, HasPrefix_nil_r; reflexivity).
  cbn [option_map]. unfold len. f_equal. lia.
Qed.

Lemma parsePaste_run (t : tScreen) (run rest : list byte) (evs : list Event) :
  Forall (fun c => c <> ESC) run -> 2 <= len run ->
  hd ESC rest = ESC ->
  parsePaste (t, run ++ rest, evs) =
  Ok (true,
      (set_escbuf [] t, rest,
       evs ++ [NewEventPaste (ReplaceCRLF run) (escbuf t ++ run)])).
Proof.
  intros Hr Hl Hrest. unfold parsePaste.
  destruct run as [|c0 run']; [unfold len in Hl; cbn in Hl; lia|].
  cbn [app]. pose proof (Forall_inv Hr) as Hc0.
  rewrite (byte_eqb_neq c0 ESC Hc0). cbn [negb]. cbv zeta.
  change (c0 :: run' ++ rest) with ((c0 :: run') ++ rest).
  set (run := c0 :: run') in *.
  assert (Hb : (if negb (IndexByte (run ++ rest) ESC =? -1)
                then slice_to (IndexByte (run ++ rest) ESC) (run ++ rest)
                else run ++ rest) = run).
  { destruct rest as [|e rest'].
    - rewrite app_nil_r. unfold IndexByte, Index.
      now rewrite index_opt_absent.
    - cbn [hd] in Hrest. subst e. rewrite IndexByte_run by exact Hr.
      rewrite slice_to_len_app.
      destruct (len run =? -1) eqn:E; [apply Z.eqb_eq in E; lia|reflexivity]. }
  rewrite Hb.
  destruct (Z.ltb_spec 1 (len run)) as [_|Hlt]; [|lia].
  rewrite consume_enough by (rewrite length_app; lia).
  rewrite take_app_length, drop_app_length.
  reflexivity.
Qed.

(** X8.  With paste mode on, a run of two or more bytes without ESC, up
    to the end of the buffer or to the next ESC, is one paste event and no
    key event: its text is the run with every byte CR (0x0d) replaced by LF
    (0x0a) and every other byte as it is, its raw bytes are the run, and
    the [escaped] flag stays as it is.  A single such byte is no paste. *)
Theorem X8_paste_mode_run_is_one_paste (t : tScreen) (run rest : list byte)
    (evs : list Event) (expire : bool) :
  paste t = true ->
  Forall (fun c => c <> ESC) run -> hd ESC rest = ESC ->
  (2 <= len run ->
   scanStep expire (t, run ++ rest, evs) =
   Ok (true,
       (set_escbuf [] t, rest,
        evs ++ [NewEventPaste
                  (map (fun c => if Byte.eqb c x0d then x0a else c) run)
                  (escbuf t ++ run)]))) /\
  (len run = 1 ->
   parsePaste (t, run ++ rest, evs) = Ok (false, (t, run ++ rest, evs))).
Proof.
  intros Hp Hr Hrest. split.
  - intros Hl. unfold scanStep.
    destruct run as [|c0 run'] eqn:Erun; [unfold len in Hl; cbn in Hl; lia|].
    cbn [app]. rewrite Hp.
    change (c0 :: run' ++ rest) with ((c0 :: run') ++ rest).
    rewrite (parsePaste_run t) by assumption. reflexivity.
  - intros Hl. destruct run as [|c0 [|c1 run']];
      try (unfold len in Hl; cbn in Hl; lia).
    unfold parsePaste. cbn [app]. pose proof (Forall_inv Hr) as Hc0.
    rewrite (byte_eqb_neq c0 ESC Hc0). cbn [negb]. cbv zeta.
    assert (Hb : (if negb (IndexByte (c0 :: rest) ESC =? -1)
                  then slice_to (IndexByte (c0 :: rest) ESC) (c0 :: rest)
                  else c0 :: rest) = [c0] \/ rest = []).
    { destruct rest as [|e rest']; [now right|left].
      cbn [hd] in Hrest. subst e.
      change (c0 :: ESC :: rest') with ([c0] ++ ESC :: rest').
      rewrite (IndexByte_run ESC [c0] rest') by exact Hr. reflexivity. }
    destruct Hb as [-> | ->]; [reflexivity|].
    unfold IndexByte, Index. rewrite index_opt_absent by exact Hr.
    reflexivity.
Qed.

End PlainInput.

Section ClipboardReply.
Context `{Collaborators}.

Lemma index_osc52_any (hdr rest : list byte) :
  Forall (fun c => c <> ESC) hdr ->
  index_opt (pasteOSC52Begin ++ hdr ++ pasteOSC52End ++ rest) pasteOSC52End =
  Some (length (pasteOSC52Begin ++ hdr)).
Proof.
  intros Hh.
  change (pasteOSC52Begin ++ hdr ++ pasteOSC52End ++ rest)
    with (ESC :: (bytes "]52;" ++ hdr) ++ pasteOSC52End ++ rest).
  rewrite index_opt_skip by reflexivity.
  rewrite index_opt_after.
  - rewrite index_opt_here by apply (HasPrefix_app pasteOSC52End rest).
    cbn [option_map]. f_equal. cbn [length app]. rewrite !length_app. cbn. lia.
  - intros k Hk. apply HasPrefix_skipn_neq; [|exact Hk].
    apply Forall_app. split; [|exact Hh].
    repeat constructor; discriminate.
Qed.

(** X9.  An OSC-52 reply is read whatever its two bytes after [ESC ] 5 2 ;]
    are (they are neither compared with a register name nor with the
    separator), as long as neither they nor the payload hold an ESC.  The
    payload that decodes gives one paste event whose raw bytes are the whole
    buffer, the unread bytes after the reply included; the bytes after the
    reply stay in the buffer.  A payload that does not decode is taken from
    the buffer without an event, and the raw bytes stay in [escbuf]. *)
Theorem X9_osc52_reply_any_register (t : tScreen) (r1 r2 : byte)
    (payload rest : list byte) (evs : list Event) (expire : bool) :
  Forall (fun c => c <> ESC) (r1 :: r2 :: payload) ->
  scanStep expire
    (t, pasteOSC52Begin ++ (r1 :: r2 :: payload) ++ pasteOSC52End ++ rest, evs) =
  Ok (true,
      match Decode payload with
      | Some data =>
          (set_escbuf [] t, rest,
           evs ++ [NewEventPaste data
                     (escbuf t ++ pasteOSC52Begin ++ (r1 :: r2 :: payload) ++
                      pasteOSC52End ++ rest)])
      | None =>
          (set_escbuf
             (escbuf t ++ pasteOSC52Begin ++ (r1 :: r2 :: payload) ++
              pasteOSC52End ++ rest) t,
           rest, evs)
      end).
Proof.
  intros Hh.
  set (inp := pasteOSC52Begin ++ (r1 :: r2 :: payload) ++ pasteOSC52End ++ rest).
  assert (Ho : parseOSC52Paste (t, inp, evs) =
               (true, true,
                match Decode payload with
                | Some data =>
                    (set_escbuf [] t, rest,
                     evs ++ [NewEventPaste data (escbuf t ++ inp)])
                | None => (set_escbuf (escbuf t ++ inp) t, rest, evs)
                end)).
  { assert (Hpre : HasPrefix inp pasteOSC52Begin = true)
      by apply HasPrefix_app.
    assert (Hidx : Index inp pasteOSC52End =
                   len (pasteOSC52Begin ++ r1 :: r2 :: payload)).
    { unfold Index, inp. now rewrite index_osc52_any by exact Hh. }
    assert (Hto : slice_to (len (pasteOSC52Begin ++ r1 :: r2 :: payload)) inp =
                  pasteOSC52Begin ++ r1 :: r2 :: payload).
    { unfold inp. rewrite (app_assoc pasteOSC52Begin). apply slice_to_len_app. }
    assert (Hfrom : slice_from (len (pasteOSC52Begin ++ r1 :: r2 :: payload)) inp =
                    pasteOSC52End ++ rest).
    { unfold inp. rewrite (app_assoc pasteOSC52Begin). apply slice_from_len_app. }
    assert (Hle : (len pasteOSC52Begin + 2 <=?
                   len (pasteOSC52Begin ++ r1 :: r2 :: payload)) = true).
    { apply Z.leb_le. rewrite len_app.
      change (r1 :: r2 :: payload) with ([r1; r2] ++ payload).
      rewrite len_app. pose proof (len_nonneg payload).
      change (len [r1; r2]) with 2. lia. }
    unfold parseOSC52Paste. cbv zeta.
    rewrite Hpre, Hidx, Hle, Hto, Hfrom. cbn [orb].
    change (slice_from (len pasteOSC52Begin + 2)
              (pasteOSC52Begin ++ r1 :: r2 :: payload)) with payload.
    change (slice_from (len pasteOSC52End) (pasteOSC52End ++ rest)) with rest.
    now destruct (Decode payload). }
  change inp with (ESC :: bytes "]52;" ++ (r1 :: r2 :: payload) ++
                   pasteOSC52End ++ rest) in *.
  unfold scanStep. rewrite (paste_gate_ESC t). cbn [bindR].
  rewrite Ho. cbn [attempt]. reflexivity.
Qed.

End ClipboardReply.

Section FunctionKeys.
Context `{Collaborators}.

Lemma lone_ESC_spec (e : list byte) : lone_ESC e = bytes_eqb e [ESC].
Proof.
  destruct e as [|c [|d e]]; try reflexivity.
  - cbn. now rewrite andb_true_r.
  - cbn. now rewrite andb_false_r.
Qed.

Lemma functionKeyLoop_miss (kcs : list (list byte * tKeyCode)) (b : list byte)
    (partial : bool) :
  no_key_prefix kcs b = true ->
  functionKeyLoop kcs b partial =
  (partial || negb (no_key_extends kcs b), None).
Proof.
  unfold no_key_prefix, no_key_extends. revert partial.
  induction kcs as [|[e k] kcs IH]; intros partial Hn;
    cbn [functionKeyLoop forallb fst].
  - now rewrite orb_false_r.
  - cbn [forallb fst] in Hn. apply andb_true_iff in Hn as [He Hn].
    fold (lone_ESC e). rewrite lone_ESC_spec.
    destruct (bytes_eqb e [ESC]) eqn:El; cbn [orb andb] in *.
    + now apply IH.
    + apply negb_true_iff in He. rewrite He. rewrite IH by exact Hn.
      destruct (HasPrefix e b), partial; reflexivity.
Qed.

Lemma functionKeyLoop_hit (kcs : list (list byte * tKeyCode)) (b seq : list byte)
    (k : tKeyCode) (partial : bool) :
  NoDup (map fst kcs) ->
  keycodes_lookup kcs seq = Some k ->
  seq <> [ESC] -> HasPrefix b seq = true ->
  (forall e, In e (map fst kcs) -> HasPrefix b e = true ->
     e = seq \/ e = [ESC]) ->
  exists p, functionKeyLoop kcs b partial = (p, Some (seq, k)).
Proof.
  revert partial. induction kcs as [|[e k0] kcs IH];
    intros partial Hnd Hl Hne Hp Hu; cbn [functionKeyLoop keycodes_lookup] in *;
    [discriminate|].
  cbn [map fst] in Hnd, Hu. apply NoDup_cons in Hnd as [Hni Hnd].
  fold (lone_ESC e). rewrite lone_ESC_spec.
  destruct (bytes_eqb e seq) eqn:Ee.
  - apply bytes_eqb_eq in Ee. subst e. injection Hl as ->.
    rewrite (bytes_eqb_neq seq [ESC] Hne), Hp. now exists partial.
  - destruct (bytes_eqb e [ESC]) eqn:El.
    + apply IH; auto. intros e' He'. apply Hu. now right.
    + destruct (HasPrefix b e) eqn:Hpe.
      * destruct (Hu e (or_introl eq_refl) Hpe) as [-> | ->].
        -- now rewrite bytes_eqb_refl in Ee.
        -- now rewrite bytes_eqb_refl in El.
      * apply IH; auto. intros e' He'. apply Hu. now right.
Qed.

(** X10.  A sequence of the key table that starts the buffer is read as
    its key when no other sequence of the table starts the buffer as well
    (the lone ESC is never looked at): the event has the key and modifiers
    of the table, with Alt added when the [escaped] flag is set, the rune
    of the byte when the sequence is one byte long and 0 otherwise, and the
    sequence as raw bytes after what [escbuf] held; the sequence is taken
    from the buffer and the flag is cleared. *)
Theorem X10_function_key_match (t : tScreen) (seq rest : list byte)
    (k : tKeyCode) (evs : list Event) :
  NoDup (map fst (keycodes t)) ->
  keycodes_lookup (keycodes t) seq = Some k ->
  seq <> [] -> seq <> [ESC] ->
  (forall e, In e (map fst (keycodes t)) -> HasPrefix (seq ++ rest) e = true ->
     e = seq \/ e = [ESC]) ->
  parseFunctionKey (t, seq ++ rest, evs) =
  (true, true,
   (set_escbuf [] (if escaped t then set_escaped false t else t), rest,
    evs ++ [NewEventKey (kc_key k)
              (if Nat.eqb (length seq) 1 then b2z (hd x00 seq) else 0)
              (if escaped t then Z.lor (kc_mod k) ModAlt else kc_mod k)
              (escbuf t ++ seq)])).
Proof.
  intros Hnd Hl Hne Hesc Hu. unfold parseFunctionKey.
  destruct (functionKeyLoop_hit (keycodes t) (seq ++ rest) seq k false
              Hnd Hl Hesc (HasPrefix_app seq rest) Hu) as [p ->].
  assert (Hhd : hd x00 (seq ++ rest) = hd x00 seq)
    by (destruct seq; [contradiction|reflexivity]).
  rewrite Hhd.
  destruct (escaped t) eqn:E;
    rewrite consume_enough by (rewrite length_app; lia);
    rewrite take_app_length, drop_app_length; reflexivity.
Qed.

(** X11.  When no sequence of the key table (the lone ESC apart) starts the
    buffer, [parseFunctionKey] reads nothing and changes nothing, and it
    reports a partial match exactly when the buffer is the beginning of
    some sequence of the table other than the lone ESC. *)
Theorem X11_function_key_partial (t : tScreen) (inp : list byte)
    (evs : list Event) :
  no_key_prefix (keycodes t) inp = true ->
  parseFunctionKey (t, inp, evs) =
  (negb (no_key_extends (keycodes t) inp), false, (t, inp, evs)).
Proof.
  intros Hn. unfold parseFunctionKey.
  now rewrite functionKeyLoop_miss by exact Hn.
Qed.

End FunctionKeys.

Section SgrNumbers.
Context `{Collaborators}.

Lemma sgrLoop_digit (c : byte) (rest : list byte) (i : nat)
    (x y btn st : Z) (dg ng : bool) (v : Z) :
  is_digit c = true -> in345 st = true ->
  sgrLoop (c :: rest) i (mkSgr x y btn st dg ng v) =
  sgrLoop rest (S i)
    (mkSgr x y btn st true ng (wrap64 (wrap64 (v * 10) + (b2z c - b2z "0"%byte)))).
Proof.
  intros Hd Hs.
  destruct c; try discriminate Hd; cbn [sgrLoop]; rewrite Hs; reflexivity.
Qed.

Lemma sgrLoop_digits (ds rest : list byte) :
  forall (i : nat) (x y btn st : Z) (dg ng : bool) (v : Z),
  forallb is_digit ds = true -> in345 st = true ->
  sgrLoop (ds ++ rest) i (mkSgr x y btn st dg ng v) =
  sgrLoop rest (length ds + i)
    (mkSgr x y btn st (dg || nonempty ds) ng (sgr_acc v ds)).
Proof.
  induction ds as [|c ds IH]; intros i x y btn st dg ng v Hd Hs.
  - cbn. now rewrite orb_false_r.
  - cbn [forallb] in Hd. apply andb_true_iff in Hd as [Hc Hd].
    cbn [app]. rewrite sgrLoop_digit by assumption.
    rewrite IH by assumption. cbn [length sgr_acc fold_left].
    rewrite Nat.add_succ_r. cbn [Nat.add]. rewrite orb_true_r.
    unfold sgr_acc. reflexivity.
Qed.

Lemma is_digit_value (c : byte) :
  is_digit c = true -> 0 <= b2z c - b2z "0"%byte <= 9.
Proof.
  unfold is_digit. intros Hd. apply andb_true_iff in Hd as [H1 H2].
  apply Z.leb_le in H1, H2. change (b2z "0"%byte) with 48 in *.
  change (b2z "9"%byte) with 57 in *. lia.
Qed.

Lemma sgr_acc_exact (ds : list byte) :
  forall v, 0 <= v -> forallb is_digit ds = true ->
  fold_left (fun v d => v * 10 + (b2z d - b2z "0"%byte)) ds v < 2 ^ 63 ->
  sgr_acc v ds = fold_left (fun v d => v * 10 + (b2z d - b2z "0"%byte)) ds v /\
  v <= fold_left (fun v d => v * 10 + (b2z d - b2z "0"%byte)) ds v.
Proof.
  induction ds as [|c ds IH]; intros v Hv Hd Hlt.
  - cbn. split; [reflexivity|lia].
  - cbn [forallb] in Hd. apply andb_true_iff in Hd as [Hc Hd].
    pose proof (is_digit_value c Hc) as Hval.
    cbn [fold_left] in *. unfold sgr_acc. cbn [fold_left].
    destruct (IH (v * 10 + (b2z c - b2z "0"%byte))) as [IH1 IH2];
      [lia|exact Hd|exact Hlt|].
    assert (Hw : wrap64 (wrap64 (v * 10) + (b2z c - b2z "0"%byte)) =
                 v * 10 + (b2z c - b2z "0"%byte)).
    { rewrite (wrap64_small (v * 10)) by (unfold int_ok; lia).
      apply wrap64_small. unfold int_ok. lia. }
    rewrite Hw. split; [exact IH1|lia].
Qed.

Lemma sgr_acc_decimal (ds : list byte) :
  forallb is_digit ds = true -> decimal ds < 2 ^ 63 ->
  sgr_acc 0 ds = decimal ds /\ 0 <= decimal ds.
Proof. intros Hd Hlt. now apply sgr_acc_exact. Qed.

Lemma sgrLoop_intro (l : list byte) :
  sgrLoop (ESC :: "["%byte :: "<"%byte :: l) 0 (mkSgr 0 0 0 0 false false 0) =
  sgrLoop l 3 (mkSgr 0 0 0 3 false false 0).
Proof. reflexivity. Qed.

Lemma sgrLoop_semi3 (l : list byte) (i : nat) (x y btn v : Z) (dg : bool) :
  sgrLoop (";"%byte :: l) i (mkSgr x y btn 3 dg false v) =
  sgrLoop l (S i) (mkSgr x y v 4 false false 0).
Proof. reflexivity. Qed.

Lemma sgrLoop_semi4 (l : list byte) (i : nat) (x y btn v : Z) (dg : bool) :
  sgrLoop (";"%byte :: l) i (mkSgr x y btn 4 dg false v) =
  sgrLoop l (S i) (mkSgr (wrap64 (v - 1)) y btn 5 false false 0).
Proof. reflexivity. Qed.

Lemma sgrLoop_final (fin : byte) (l : list byte) (i : nat) (x y btn v : Z)
    (dg : bool) :
  fin = "M"%byte \/ fin = "m"%byte ->
  sgrLoop (fin :: l) i (mkSgr x y btn 5 dg false v) =
  SgrEnd i (mkSgr x (wrap64 (v - 1)) btn 5 dg false v) fin.
Proof. intros [-> | ->]; reflexivity. Qed.

Lemma sgrLoop_report (B X Y rest : list byte) (fin : byte) :
  forallb is_digit B = true -> forallb is_digit X = true ->
  forallb is_digit Y = true ->
  decimal B < 2 ^ 63 -> decimal X < 2 ^ 63 -> decimal Y < 2 ^ 63 ->
  fin = "M"%byte \/ fin = "m"%byte ->
  exists dg,
    sgrLoop (sgr_report B X Y ++ fin :: rest) 0 (mkSgr 0 0 0 0 false false 0) =
    SgrEnd (length (sgr_report B X Y))
      (mkSgr (decimal X - 1) (decimal Y - 1) (decimal B) 5 dg false (decimal Y))
      fin.
Proof.
  intros HB HX HY LB LX LY Hfin.
  destruct (sgr_acc_decimal B HB LB) as [EB PB].
  destruct (sgr_acc_decimal X HX LX) as [EX PX].
  destruct (sgr_acc_decimal Y HY LY) as [EY PY].
  exists (false || nonempty Y).
  unfold sgr_report.
  change ((ESC :: bytes "[<" ++ B ++ bytes ";" ++ X ++ bytes ";" ++ Y) ++
          fin :: rest)
    with (ESC :: "["%byte :: "<"%byte ::
          (B ++ bytes ";" ++ X ++ bytes ";" ++ Y) ++ fin :: rest).
  rewrite sgrLoop_intro.
  rewrite <- !app_assoc.
  rewrite sgrLoop_digits by (assumption || reflexivity).
  change (bytes ";" ++ X ++ bytes ";" ++ Y ++ fin :: rest)
    with (";"%byte :: X ++ bytes ";" ++ Y ++ fin :: rest).
  rewrite sgrLoop_semi3.
  rewrite sgrLoop_digits by (assumption || reflexivity).
  change (bytes ";" ++ Y ++ fin :: rest) with (";"%byte :: Y ++ fin :: rest).
  rewrite sgrLoop_semi4.
  rewrite sgrLoop_digits by (assumption || reflexivity).
  rewrite sgrLoop_final by exact Hfin.
  rewrite EB, EX, EY.
  rewrite !(wrap64_small (_ - 1)) by (unfold int_ok; lia).
  assert (Hlen : (length Y + S (length X + S (length B + 3)))%nat =
                 length (ESC :: bytes "[<" ++ B ++ bytes ";" ++ X ++
                         bytes ";" ++ Y)).
  { change (ESC :: bytes "[<" ++ B ++ bytes ";" ++ X ++ bytes ";" ++ Y)
      with ([ESC; "["%byte; "<"%byte] ++ B ++ [";"%byte] ++ X ++
            [";"%byte] ++ Y).
    rewrite !length_app. cbn [length]. lia. }
  rewrite Hlen. reflexivity.
Qed.

Lemma ldiff_clear (a b : Z) : Z.land a b = 0 -> Z.ldiff a b = a.
Proof.
  intros Hl. apply Z.bits_inj'. intros n Hn.
  rewrite Z.ldiff_spec.
  assert (Hb : Z.testbit (Z.land a b) n = false) by (rewrite Hl; apply Z.bits_0).
  rewrite Z.land_spec in Hb.
  destruct (Z.testbit a n), (Z.testbit b n); try reflexivity; discriminate.
Qed.

Lemma parseSgrMouse_report (t : tScreen) (B X Y rest : list byte) (fin : byte)
    (evs : list Event) (btn : Z) (t1 : tScreen) :
  escaped t = false ->
  forallb is_digit B = true -> forallb is_digit X = true ->
  forallb is_digit Y = true ->
  decimal B < 2 ^ 63 -> decimal X < 2 ^ 63 -> decimal Y < 2 ^ 63 ->
  fin = "M"%byte \/ fin = "m"%byte ->
  (if Byte.eqb fin "m"%byte
   then (Z.ldiff (Z.lor (Z.ldiff (decimal B) 32) 3) 0x40, set_buttondn false t)
   else if negb (Z.land (decimal B) 32 =? 0)
   then (if negb (buttondn t)
         then (Z.ldiff (Z.lor (Z.ldiff (decimal B) 32) 3) 0x40, t)
         else (Z.ldiff (decimal B) 32, t))
   else (Z.ldiff (decimal B) 32, set_buttondn true t)) = (btn, t1) ->
  parseSgrMouse (t, (sgr_report B X Y ++ [fin]) ++ rest, evs) =
  (true, true,
   (fst (buildMouseEvent
           (set_escbuf (escbuf t1 ++ sgr_report B X Y ++ [fin]) t1)
           (decimal X - 1) (decimal Y - 1) btn),
    rest,
    evs ++ [snd (buildMouseEvent
                   (set_escbuf (escbuf t1 ++ sgr_report B X Y ++ [fin]) t1)
                   (decimal X - 1) (decimal Y - 1) btn)])).
Proof.
  intros He HB HX HY LB LX LY Hfin Hsel.
  destruct (sgrLoop_report B X Y rest fin HB HX HY LB LX LY Hfin) as [dg Hloop].
  unfold parseSgrMouse. rewrite He.
  rewrite <- app_assoc. cbn [app]. rewrite Hloop.
  cbn [sg_btn sg_x sg_y]. cbv zeta. rewrite Hsel.
  rewrite consume_enough by (rewrite length_app; cbn [length]; lia).
  replace (S (length (sgr_report B X Y)))
    with (length (sgr_report B X Y ++ [fin]))
    by (rewrite length_app; cbn [length]; lia).
  change (sgr_report B X Y ++ fin :: rest)
    with (sgr_report B X Y ++ [fin] ++ rest).
  rewrite (app_assoc (sgr_report B X Y) [fin] rest).
  rewrite take_app_length, drop_app_length.
  now destruct (buildMouseEvent _ (decimal X - 1) (decimal Y - 1) btn).
Qed.

(** X12.  An SGR mouse report [ESC [ < B ; X ; Y] with a final [M] or [m],
    in a state with [escaped] off: the three numbers are read as decimal
    numbers (each below 2^63), the event is built for column [X - 1] and
    row [Y - 1], and the report is taken from the buffer into the raw bytes
    of the event.  The final [M] without the motion bit (32) is a press: the
    button state is [B] and [buttondn] is set.  The final [m] is a release:
    the button bits are set to 3 and the wheel bit is cleared, and
    [buttondn] is cleared.  A motion report while no button is down is
    turned into a move without button. *)
Theorem X12_sgr_report_numbers (t : tScreen) (B X Y rest : list byte)
    (evs : list Event) :
  escaped t = false ->
  forallb is_digit B = true -> forallb is_digit X = true ->
  forallb is_digit Y = true ->
  decimal B < 2 ^ 63 -> decimal X < 2 ^ 63 -> decimal Y < 2 ^ 63 ->
  let press := sgr_report B X Y ++ bytes "M" in
  let release := sgr_report B X Y ++ bytes "m" in
  let result (raw : list byte) (t1 : tScreen) (btn : Z) :=
    let built :=
      buildMouseEvent (set_escbuf (escbuf t ++ raw) t1)
        (decimal X - 1) (decimal Y - 1) btn in
    (true, true, (fst built, rest, evs ++ [snd built])) in
  (Z.land (decimal B) 32 = 0 ->
   parseSgrMouse (t, press ++ rest, evs) =
   result press (set_buttondn true t) (decimal B)) /\
  parseSgrMouse (t, release ++ rest, evs) =
  result release (set_buttondn false t)
    (Z.ldiff (Z.lor (Z.ldiff (decimal B) 32) 3) 0x40) /\
  (Z.land (decimal B) 32 <> 0 -> buttondn t = false ->
   parseSgrMouse (t, press ++ rest, evs) =
   result press t (Z.ldiff (Z.lor (Z.ldiff (decimal B) 32) 3) 0x40)).
Proof.
  intros He HB HX HY LB LX LY press release result.
  subst press release result. cbv beta zeta.
  change (bytes "M") with ["M"%byte]. change (bytes "m") with ["m"%byte].
  split; [|split].
  - intros Hm.
    rewrite (parseSgrMouse_report t B X Y rest "M" evs (decimal B)
               (set_buttondn true t)); try assumption;
      [reflexivity|now left|].
    change (Byte.eqb "M" "m") with false. cbv iota.
    rewrite Hm, (ldiff_clear _ _ Hm). reflexivity.
  - rewrite (parseSgrMouse_report t B X Y rest "m" evs
               (Z.ldiff (Z.lor (Z.ldiff (decimal B) 32) 3) 0x40)
               (set_buttondn false t)); try assumption;
      [reflexivity|now right|reflexivity].
  - intros Hm Hb.
    rewrite (parseSgrMouse_report t B X Y rest "M" evs
               (Z.ldiff (Z.lor (Z.ldiff (decimal B) 32) 3) 0x40) t);
      try assumption; [reflexivity|now left|].
    change (Byte.eqb "M" "m") with false. cbv iota.
    apply Z.eqb_neq in Hm. rewrite Hm, Hb. reflexivity.
Qed.

End SgrNumbers.

Section MouseSequences.
Context `{Collaborators}.

Lemma land43_cases (btn : Z) :
  0 <= Z.land btn 0x43.
Proof. apply Z.land_nonneg. right. lia. Qed.

Lemma buildMouseEvent_wheel (t : tScreen) (x y btn : Z) :
  is_wheel btn = true ->
  wasbtn (fst (buildMouseEvent t x y btn)) = wasbtn t /\
  mouse_button (snd (buildMouseEvent t x y btn)) =
  Some (if wasbtn t then Button1
        else if Z.land btn 0x43 =? 0x40 then WheelUp else WheelDown).
Proof.
  unfold is_wheel, buildMouseEvent. intros Hw.
  destruct (clip t x y) as [cx' cy'].
  apply orb_true_iff in Hw as [Hw | Hw]; apply Z.eqb_eq in Hw; rewrite Hw;
    cbn [Z.eqb Pos.eqb]; destruct (wasbtn t); split; reflexivity.
Qed.

Lemma mouseReports_wheels (ws : list (Z * Z * Z)) :
  forall t : tScreen,
  forallb (fun r => is_wheel (snd r)) ws = true ->
  map mouse_button (snd (mouseReports t ws)) =
  map (fun r => Some (if wasbtn t then Button1
                      else if Z.land (snd r) 0x43 =? 0x40 then WheelUp
                      else WheelDown)) ws.
Proof.
  induction ws as [|[[x y] btn] ws IH]; intros t Hw; [reflexivity|].
  cbn [forallb snd] in Hw. apply andb_true_iff in Hw as [Hb Hw].
  cbn [mouseReports].
  destruct (buildMouseEvent_wheel t x y btn Hb) as [Hwas Hbtn].
  destruct (buildMouseEvent t x y btn) as [t1 ev]. cbn [fst snd] in *.
  specialize (IH t1 Hw). destruct (mouseReports t1 ws) as [t2 evs].
  cbn [snd map] in *. rewrite IH, Hbtn, Hwas. reflexivity.
Qed.

Lemma buildMouseEvent_press_wasbtn (t : tScreen) (x y btn : Z) :
  is_press btn = true -> wasbtn (fst (buildMouseEvent t x y btn)) = true.
Proof.
  unfold is_press, buildMouseEvent. intros Hp. apply Z.ltb_lt in Hp.
  pose proof (land43_cases btn) as Hn.
  destruct (clip t x y) as [cx' cy'].
  assert (Hc : Z.land btn 0x43 = 0 \/ Z.land btn 0x43 = 1 \/ Z.land btn 0x43 = 2)
    by lia.
  destruct Hc as [-> | [-> | ->]]; reflexivity.
Qed.

Lemma buildMouseEvent_release_wasbtn (t : tScreen) (x y btn : Z) :
  is_release btn = true -> wasbtn (fst (buildMouseEvent t x y btn)) = false.
Proof.
  unfold is_release, buildMouseEvent. intros Hp. apply Z.eqb_eq in Hp.
  destruct (clip t x y) as [cx' cy']. rewrite Hp. reflexivity.
Qed.

(** X13.  Wheel reports are debounced against the last button report:
    after the report of a button press, every wheel report that follows,
    however many, gives a Button1 event, not a wheel event; after a release
    report every wheel report gives WheelUp or WheelDown.  A wheel report
    does not change which of the two holds. *)
Theorem X13_wheel_after_press_is_button1 (t : tScreen) (x y btn : Z)
    (ws : list (Z * Z * Z)) :
  forallb (fun r => is_wheel (snd r)) ws = true ->
  (is_press btn = true ->
   map mouse_button (snd (mouseReports (fst (buildMouseEvent t x y btn)) ws)) =
   map (fun _ => Some Button1) ws) /\
  (is_release btn = true ->
   map mouse_button (snd (mouseReports (fst (buildMouseEvent t x y btn)) ws)) =
   map (fun r => Some (if Z.land (snd r) 0x43 =? 0x40 then WheelUp
                       else WheelDown)) ws).
Proof.
  intros Hw. split; intros Hb; rewrite mouseReports_wheels by exact Hw.
  - now rewrite buildMouseEvent_press_wasbtn by exact Hb.
  - now rewrite buildMouseEvent_release_wasbtn by exact Hb.
Qed.

End MouseSequences.

Section EventChannel.
Context `{Collaborators}.

Lemma kept_app (a b : list Event) : kept (a ++ b) = kept a ++ kept b.
Proof. apply List.filter_app. Qed.

Lemma kept_one (ev : Event) :
  kept [ev] = if is_mouse_event ev then [] else [ev].
Proof. unfold kept, not_mouse. cbn. now destruct (is_mouse_event ev). Qed.

Lemma kept_cons (ev : Event) (evs : list Event) :
  kept (ev :: evs) = kept [ev] ++ kept evs.
Proof. apply (kept_app [ev] evs). Qed.

(** One turn of the loop of [scanInput]. *)
Lemma postParsed_cons (ev : Event) (evs : list Event) (t : tScreen)
    (inp : list byte) :
  postParsed (ev :: evs) t inp =
  if is_mouse_event ev then postParsed evs (PostEvent ev t) inp
  else if len (evch t) <? 10
       then postParsed evs (set_evch (evch t ++ [ev]) t) inp
       else Blocked t ev evs inp.
Proof.
  destruct ev; cbn [postParsed is_mouse_event]; try reflexivity;
    unfold PostEventWait; now destruct (len (evch t) <? 10).
Qed.

Lemma postParsed_spec (evs : list Event) (inp : list byte) :
  forall t : tScreen,
  posted_rest (postParsed evs t inp) = inp /\
  kept (evch (posted_state (postParsed evs t inp))) ++
    waiting (postParsed evs t inp) = kept (evch t) ++ kept evs /\
  (forall t2 ev pending inp2,
     postParsed evs t inp = Blocked t2 ev pending inp2 ->
     is_mouse_event ev = false /\ 10 <= len (evch t2)) /\
  (len (evch t) + len evs <= 10 ->
   postParsed evs t inp = Sent (set_evch (evch t ++ evs) t) inp) /\
  (10 <= len (evch t) ->
   posted_state (postParsed evs t inp) = t /\
   waiting (postParsed evs t inp) = kept evs).
Proof.
  induction evs as [|ev evs IH]; intros t.
  - cbn [postParsed posted_rest posted_state waiting].
    split; [reflexivity|]. split; [reflexivity|].
    split; [discriminate|]. split; [|auto].
    intros _. rewrite app_nil_r. now destruct t.
  - rewrite postParsed_cons, (kept_cons ev evs), kept_one.
    assert (Hl : len (ev :: evs) = 1 + len evs)
      by (unfold len; cbn [length]; lia).
    assert (Hl1 : len (evch t ++ [ev]) = len (evch t) + 1)
      by (rewrite len_app; reflexivity).
    pose proof (len_nonneg evs) as Hnn.
    destruct (is_mouse_event ev) eqn:Hm.
    + unfold PostEvent.
      destruct (Z.ltb_spec (len (evch t)) 10) as [Hlt | Hge].
      * destruct (IH (set_evch (evch t ++ [ev]) t))
          as (I1 & I2 & I3 & I4 & I5).
        change (evch (set_evch (evch t ++ [ev]) t)) with (evch t ++ [ev]) in *.
        rewrite kept_app, kept_one, Hm, app_nil_r in I2.
        split; [exact I1|]. split; [exact I2|]. split; [exact I3|].
        split; [|lia].
        intros Hroom. rewrite I4 by lia. now rewrite <- app_assoc.
      * destruct (IH t) as (I1 & I2 & I3 & I4 & I5).
        split; [exact I1|]. split; [exact I2|]. split; [exact I3|].
        split; [lia|]. intros _. now apply I5.
    + destruct (Z.ltb_spec (len (evch t)) 10) as [Hlt | Hge].
      * destruct (IH (set_evch (evch t ++ [ev]) t))
          as (I1 & I2 & I3 & I4 & I5).
        change (evch (set_evch (evch t ++ [ev]) t)) with (evch t ++ [ev]) in *.
        rewrite kept_app, kept_one, Hm, <- app_assoc in I2.
        split; [exact I1|]. split; [exact I2|]. split; [exact I3|].
        split; [|lia].
        intros Hroom. rewrite I4 by lia. now rewrite <- app_assoc.
      * cbn [posted_rest posted_state waiting app].
        split; [reflexivity|]. split; [reflexivity|]. split.
        -- intros t2 ev' pending inp2 [= <- <- _ _]. split; [exact Hm|lia].
        -- split; [lia|]. intros _. split; reflexivity.
Qed.

(** X14.  [scanInput] hands the events of a scan to the event channel in
    the order of the scan and loses no key, paste, raw or resize event:
    each one is queued, or the loop waits in [PostEventWait] to send it,
    which it does only for such an event and with ten or more events in the
    channel.  Only mouse events are dropped, and on a full channel every
    mouse event that is reached is dropped.  When the channel has room for
    all the events, all are queued.  (The scan itself does not touch the
    channel; the conditions on the key table, the raw sequences and the
    decoder are those under which the scan ends.) *)
Theorem X14_scanInput_drops_only_mouse_events (t : tScreen) (inp : list byte)
    (expire : bool) :
  scan_ready t ->
  exists evs t1 rest r,
    (forall fuel, (length inp < fuel)%nat ->
       collectEventsFromInput fuel t inp expire = Ok (evs, t1, rest) /\
       scanInput fuel t inp expire = Ok r) /\
    evch t1 = evch t /\ posted_rest r = rest /\
    kept (evch (posted_state r)) ++ waiting r = kept (evch t) ++ kept evs /\
    (forall t2 ev pending inp2, r = Blocked t2 ev pending inp2 ->
       is_mouse_event ev = false /\ 10 <= len (evch t2)) /\
    (len (evch t) + len evs <= 10 ->
     r = Sent (set_evch (evch t ++ evs) t1) rest) /\
    (10 <= len (evch t) -> posted_state r = t1 /\ waiting r = kept evs).
Proof.
  intros Hr.
  destruct (collectLoop_total expire (length inp) (t, inp, []) Hr (le_n _))
    as ([[t1 rest] evs] & Hrun & Hst & _ & _).
  cbn [fst snd] in *. destruct Hst as (_ & _ & _ & _ & _ & Hev).
  exists evs, t1, rest, (postParsed evs t1 rest).
  destruct (postParsed_spec evs rest t1) as (P1 & P2 & P3 & P4 & P5).
  rewrite Hev in P2, P4, P5.
  split.
  { intros fuel Hf. unfold scanInput, collectEventsFromInput.
    rewrite Hrun by exact Hf. split; reflexivity. }
  split; [exact Hev|]. split; [exact P1|]. split; [exact P2|].
  split; [exact P3|]. split; [exact P4|exact P5].
Qed.

End EventChannel.

Section Glyphs.
Context `{Collaborators}.

Lemma encodeRune_unencodable (t : tScreen) (r : Z) (bf : list byte) :
  CanDisplay r false t = false ->
  encodeRune t r bf =
  if len bf =? 0
  then match fallback t !! r with
       | Some fb => bf ++ fb
       | None => bf ++ ["?"%byte]
       end
  else bf.
Proof.
  unfold CanDisplay, encodeRune. cbn [negb].
  destruct (encoder t) as [enc|].
  - destruct (enc_err (enc r)), (len (enc_bytes (enc r)) =? 0),
      (Byte.eqb (hd x00 (enc_bytes (enc r))) x1a); cbn [negb andb orb];
      try discriminate;
      destruct (acs t !! r); try discriminate; reflexivity.
  - cbn [orb]. change (len (@nil byte) =? 0) with true. cbn [orb].
    destruct (acs t !! r); try discriminate; reflexivity.
Qed.

Lemma CanDisplay_fallbacks (t : tScreen) (r : Z) :
  CanDisplay r true t =
  CanDisplay r false t ||
  match fallback t !! r with Some _ => true | None => false end.
Proof.
  unfold CanDisplay. cbn [negb].
  destruct (match encoder t with Some _ => _ | None => false end);
    [reflexivity|].
  now destruct (acs t !! r).
Qed.

(** X15.  [CanDisplay] and the glyph encoder agree: a rune that
    [CanDisplay] rejects, fallbacks counted, is drawn as a question mark
    when it is the main rune of a cell and is left out when it is a
    combining rune. *)
Theorem X15_rejected_rune_draws_question_mark (t : tScreen) (r : Z) :
  CanDisplay r true t = false ->
  encodeRune t r [] = bytes "?" /\
  (forall bf, bf <> [] -> encodeRune t r bf = bf).
Proof.
  rewrite CanDisplay_fallbacks. intros Hc.
  apply orb_false_iff in Hc as [Hc Hf].
  split.
  - rewrite encodeRune_unencodable by exact Hc. cbn.
    now destruct (fallback t !! r).
  - intros bf Hbf. rewrite encodeRune_unencodable by exact Hc.
    destruct bf; [contradiction|]. reflexivity.
Qed.

(** X16.  A registered fallback is used exactly for a rune that the
    terminal can show neither through its encoder nor through its
    alternate character set: for such a rune the fallback string is drawn
    and [CanDisplay] accepts the rune when asked to count fallbacks, and
    [UnregisterRuneFallback] brings back the question mark.  For a rune the
    terminal can show, registering a fallback changes nothing of what is
    drawn, and no other rune is affected. *)
Theorem X16_fallback_only_for_unencodable_runes (t : tScreen) (r : Z)
    (fb : list byte) :
  (CanDisplay r false t = false ->
   encodeRune (RegisterRuneFallback r fb t) r [] = fb /\
   CanDisplay r true (RegisterRuneFallback r fb t) = true /\
   CanDisplay r false (RegisterRuneFallback r fb t) = false /\
   encodeRune (UnregisterRuneFallback r (RegisterRuneFallback r fb t)) r [] =
     bytes "?" /\
   CanDisplay r true (UnregisterRuneFallback r (RegisterRuneFallback r fb t)) =
     false) /\
  (CanDisplay r false t = true ->
   forall bf, encodeRune (RegisterRuneFallback r fb t) r bf = encodeRune t r bf) /\
  (forall r' bf, r' <> r ->
   encodeRune (RegisterRuneFallback r fb t) r' bf = encodeRune t r' bf).
Proof.
  split; [|split].
  - intros Hc.
    assert (Hc1 : CanDisplay r false (RegisterRuneFallback r fb t) = false)
      by exact Hc.
    assert (Hc2 : CanDisplay r false
                    (UnregisterRuneFallback r (RegisterRuneFallback r fb t)) =
                  false) by exact Hc.
    repeat split.
    + rewrite encodeRune_unencodable by exact Hc1.
      unfold RegisterRuneFallback. cbn. now rewrite lookup_insert_eq.
    + rewrite CanDisplay_fallbacks, Hc1.
      unfold RegisterRuneFallback. cbn. now rewrite lookup_insert_eq.
    + exact Hc1.
    + rewrite encodeRune_unencodable by exact Hc2.
      unfold UnregisterRuneFallback, RegisterRuneFallback. cbn.
      now rewrite lookup_delete_eq.
    + rewrite CanDisplay_fallbacks, Hc2.
      unfold UnregisterRuneFallback, RegisterRuneFallback. cbn.
      now rewrite lookup_delete_eq.
  - intros Hc bf. revert Hc. unfold CanDisplay, encodeRune.
    change (encoder (RegisterRuneFallback r fb t)) with (encoder t).
    change (acs (RegisterRuneFallback r fb t)) with (acs t).
    cbn [negb].
    destruct (encoder t) as [enc|].
    + destruct (enc_err (enc r)), (len (enc_bytes (enc r)) =? 0),
        (Byte.eqb (hd x00 (enc_bytes (enc r))) x1a); cbn [negb andb orb];
        try reflexivity;
        destruct (acs t !! r); try discriminate; reflexivity.
    + destruct (acs t !! r); try discriminate; reflexivity.
  - intros r' bf Hne. unfold encodeRune.
    change (encoder (RegisterRuneFallback r fb t)) with (encoder t).
    change (acs (RegisterRuneFallback r fb t)) with (acs t).
    change (fallback (RegisterRuneFallback r fb t))
      with (<[r := fb]> (fallback t)).
    rewrite lookup_insert_ne by congruence. reflexivity.
Qed.

End Glyphs.

Section AcsFacts.
Variable vtACSNames : byte -> option Z.
Variables EnterAcs ExitAcs : list byte.

Lemma acsLoop_step (srcv dstv : byte) (rest : list byte)
    (m : gmap Z (list byte)) :
  rest <> [] ->
  acsLoop vtACSNames EnterAcs ExitAcs (srcv :: dstv :: rest) m =
  acsLoop vtACSNames EnterAcs ExitAcs rest
    match vtACSNames srcv with
    | Some r => <[r := EnterAcs ++ string_of_byte dstv ++ ExitAcs]> m
    | None => m
    end.
Proof. destruct rest; [contradiction|reflexivity]. Qed.

Lemma acsPairs_absent (s : list (byte * byte)) (r : Z) :
  forall m : gmap Z (list byte),
  m !! r = None ->
  Forall (fun p => vtACSNames (fst p) <> Some r) s ->
  acsPairs vtACSNames EnterAcs ExitAcs
    (flat_map (fun p => [fst p; snd p]) s) m !! r = None.
Proof.
  induction s as [|[x y] s IH]; intros m Hm Hs; [exact Hm|].
  apply Forall_cons in Hs as [Hx Hs]. cbn [flat_map app fst snd acsPairs] in *.
  apply IH; [|exact Hs].
  destruct (vtACSNames x) as [r'|]; [|exact Hm].
  rewrite lookup_insert_ne; [exact Hm|congruence].
Qed.

(** X17.  [buildAcsMap] reads the alternate character set string two bytes
    at a time while more than two bytes are left.  So a string made of
    pairs loses its last pair: the map is the one of the pairs before it,
    and a rune that only the last pair names gets no entry.  A string with
    one byte after its pairs keeps all its pairs. *)
Theorem X17_acs_map_leaves_out_last_pair (s : list (byte * byte))
    (a b : byte) (m : gmap Z (list byte)) :
  let pairs := flat_map (fun p => [fst p; snd p]) s in
  acsLoop vtACSNames EnterAcs ExitAcs (pairs ++ [a; b]) m =
    acsPairs vtACSNames EnterAcs ExitAcs pairs m /\
  acsLoop vtACSNames EnterAcs ExitAcs (pairs ++ [a]) m =
    acsPairs vtACSNames EnterAcs ExitAcs pairs m /\
  (forall r, vtACSNames a = Some r ->
     Forall (fun p => vtACSNames (fst p) <> Some r) s ->
     buildAcsMap vtACSNames (pairs ++ [a; b]) EnterAcs ExitAcs !! r = None).
Proof.
  cbv zeta.
  assert (Hgen : forall tl, tl <> [] ->
            (forall m0, acsLoop vtACSNames EnterAcs ExitAcs tl m0 = m0) ->
            forall m0,
            acsLoop vtACSNames EnterAcs ExitAcs
              (flat_map (fun p => [fst p; snd p]) s ++ tl) m0 =
            acsPairs vtACSNames EnterAcs ExitAcs
              (flat_map (fun p => [fst p; snd p]) s) m0).
  { intros tl Htl Hend. induction s as [|[x y] s' IH]; intros m0.
    - cbn [flat_map app acsPairs]. apply Hend.
    - cbn [flat_map app fst snd acsPairs].
      rewrite acsLoop_step by (destruct (flat_map _ s'); [exact Htl|discriminate]).
      apply IH. }
  assert (H2 : acsLoop vtACSNames EnterAcs ExitAcs
                 (flat_map (fun p => [fst p; snd p]) s ++ [a; b]) m =
               acsPairs vtACSNames EnterAcs ExitAcs
                 (flat_map (fun p => [fst p; snd p]) s) m)
    by (apply Hgen; [discriminate|reflexivity]).
  split; [exact H2|]. split.
  - apply Hgen; [discriminate|reflexivity].
  - intros r Ha Hs. unfold buildAcsMap.
    rewrite (Hgen [a; b]) by (discriminate || reflexivity).
    apply acsPairs_absent; [apply lookup_empty|exact Hs].
Qed.

End AcsFacts.

Section Lifecycle.
Context `{Collaborators}.

Lemma TPuts_fields (s : list byte) (t : tScreen) :
  ti (TPuts s t) = ti t /\ fini (TPuts s t) = fini t /\
  cells (TPuts s t) = cells t /\ finiOnce (TPuts s t) = finiOnce t /\
  buffering (TPuts s t) = buffering t.
Proof. unfold TPuts. destruct (buffering t) eqn:E; repeat split; exact E. Qed.

(** X18.  The first [Fini] sends the seven teardown strings in order
    (the mouse-off string among them, whether or not the terminal has a
    mouse) and sets [fini] and [quit]; a second [Fini] changes nothing and
    sends nothing, and a [Show] after it draws nothing. *)
Theorem X18_Fini_tears_down_once (t : tScreen) :
  finiOnce t = false ->
  written (Fini t) = written t ++ teardown (ti t) /\
  fini (Fini t) = true /\ quit (Fini t) = true /\
  Fini (Fini t) = Fini t /\
  (forall fuel, Show fuel (Fini t) = Ok (Fini t)).
Proof.
  intros Ho.
  assert (Hw : written (Fini t) = written t ++ teardown (ti t)).
  { set (t0 := set_cells (cells_Resize (cells t) 0 0) t).
    set (t7 := TPuts pasteDisable
                 (TPuts (terminfo.TParm (ti t) (terminfo.MouseMode (ti t)) [0])
                    (TPuts (terminfo.ExitKeypad (ti t))
                       (TPuts (terminfo.ExitCA (ti t))
                          (TPuts (terminfo.Clear (ti t))
                             (TPuts (terminfo.AttrOff (ti t))
                                (TPuts (terminfo.ShowCursor (ti t)) t0))))))).
    assert (E : Fini t =
                set_finiOnce true
                  (set_quit true
                     (set_fini true
                        (set_clear false (set_curstyle styleInvalid t7))))).
    { unfold Fini. rewrite Ho. reflexivity. }
    rewrite E.
    transitivity (written t7); [reflexivity|].
    subst t7. rewrite !written_TPuts.
    unfold teardown. rewrite <- !app_assoc. reflexivity. }
  assert (Hf : fini (Fini t) = true) by (unfold Fini; now rewrite Ho).
  split; [exact Hw|]. split; [exact Hf|].
  split; [unfold Fini; now rewrite Ho|].
  split; [apply Fini_idempotent|].
  intros fuel. unfold Show. now rewrite Hf.
Qed.

Lemma PostEvent_size (ev : Event) (t : tScreen) :
  w (PostEvent ev t) = w t /\ h (PostEvent ev t) = h t.
Proof. unfold PostEvent. now destruct (len (evch t) <? 10). Qed.

Lemma resize_Some (nw nh : Z) (t : tScreen) :
  getWinSize = Some (nw, nh) ->
  resize t =
  if negb (nw =? w t) || negb (nh =? h t)
  then PostEvent (NewEventResize nw nh)
         (set_w nw
            (set_h nh
               (set_cells
                  (cells_Invalidate (cells_Resize (cells t) nw nh))
                  (set_cy (-1) (set_cx (-1) t)))))
  else t.
Proof. intros E. unfold resize. rewrite E. reflexivity. Qed.

Lemma resize_size (nw nh : Z) (t : tScreen) :
  getWinSize = Some (nw, nh) -> w (resize t) = nw /\ h (resize t) = nh.
Proof.
  intros E. rewrite (resize_Some nw nh t E).
  destruct (negb (nw =? w t) || negb (nh =? h t)) eqn:Ec.
  - destruct (PostEvent_size (NewEventResize nw nh)
                (set_w nw
                   (set_h nh
                      (set_cells
                         (cells_Invalidate (cells_Resize (cells t) nw nh))
                         (set_cy (-1) (set_cx (-1) t)))))) as [-> ->].
    split; reflexivity.
  - apply orb_false_iff in Ec as [Ew Eh].
    apply negb_false_iff, Z.eqb_eq in Ew, Eh. auto.
Qed.

(** X19.  [resize] takes the window size as the size of the screen and
    posts a resize event only when the size differs from the stored one:
    doing it again changes nothing, so a second [Show] posts no second
    event.  When the window size cannot be read the screen stays as it
    is. *)
Theorem X19_resize_once (t : tScreen) :
  resize (resize t) = resize t /\
  (getWinSize = None -> resize t = t) /\
  (forall nw nh, getWinSize = Some (nw, nh) ->
     w (resize t) = nw /\ h (resize t) = nh /\
     (w t = nw -> h t = nh -> resize t = t) /\
     (w t <> nw \/ h t <> nh ->
      evch (resize t) =
      if len (evch t) <? 10 then evch t ++ [NewEventResize nw nh]
      else evch t)).
Proof.
  split; [|split].
  - destruct getWinSize as [[nw nh]|] eqn:Eg.
    + destruct (resize_size nw nh t Eg) as [Hw Hh].
      rewrite (resize_Some nw nh (resize t) Eg), Hw, Hh, !Z.eqb_refl.
      reflexivity.
    + unfold resize. rewrite Eg. reflexivity.
  - intros E. unfold resize. rewrite E. reflexivity.
  - intros nw nh E. destruct (resize_size nw nh t E) as [Hw Hh].
    split; [exact Hw|]. split; [exact Hh|]. split.
    + intros <- <-. rewrite (resize_Some _ _ t E), !Z.eqb_refl. reflexivity.
    + intros Hne. rewrite (resize_Some nw nh t E).
      assert (Ec : negb (nw =? w t) || negb (nh =? h t) = true).
      { destruct (Z.eqb_spec nw (w t)), (Z.eqb_spec nh (h t));
          try reflexivity. destruct Hne; congruence. }
      rewrite Ec. unfold PostEvent.
      match goal with
      | |- context [if len (evch ?x) <? 10 then _ else _] =>
          change (evch x) with (evch t)
      end.
      now destruct (len (evch t) <? 10).
Qed.

End Lifecycle.

Section DrawFacts.
Context `{Collaborators}.


















Lemma drawRow_eq (fuel : nat) (x y : Z) (t : tScreen) :
  drawRow fuel x y t =
  if negb (x <? w t) then Ok t
  else
    match fuel with
    | O => OutOfFuel
    | S fuel' =>
        let '(t, width) := drawCell x y t in
        let t :=
          if (1 <? width) && (wrap64 (x + 1) <? w t)
          then set_cells (cells_SetDirty (cells t) (wrap64 (x + 1)) y true) t
          else t in
        let x := wrap64 (x + wrap64 (width - 1)) in
        drawRow fuel' (wrap64 (x + 1)) y t
    end.
Proof. destruct fuel; reflexivity. Qed.




Lemma cursor_only_TPuts (t t1 : tScreen) (s : list byte) :
  cursor_only t t1 -> cursor_only t (TPuts s t1).
Proof.
  intros (Hb & Ho & Hc & Hw & Hh & Hti & Hx & Hy & Hcl & Hbuf).
  unfold TPuts. rewrite Hb. unfold cursor_only. cbn.
  rewrite forallb_app, Hbuf. repeat split; assumption.
Qed.

Lemma cursor_only_cx (t t1 : tScreen) (v : Z) :
  cursor_only t t1 -> cursor_only t (set_cx v t1).
Proof. exact (fun Hf => Hf). Qed.

Lemma cursor_only_cy (t t1 : tScreen) (v : Z) :
  cursor_only t t1 -> cursor_only t (set_cy v t1).
Proof. exact (fun Hf => Hf). Qed.

Lemma hideCursor_cursor_only (t t1 : tScreen) :
  cursor_only t t1 -> cursor_only t (hideCursor t1).
Proof.
  intros Hf. unfold hideCursor.
  destruct (nonempty _); [now apply cursor_only_TPuts|].
  destruct (cells_Size (cells t1)) as [cw ch]. cbv zeta.
  apply cursor_only_TPuts, cursor_only_cy, cursor_only_cx, Hf.
Qed.

Lemma showCursor_cursor_only (t t1 : tScreen) :
  cursor_only t t1 -> cursor_only t (showCursor t1).
Proof.
  intros Hf. unfold showCursor. cbv zeta.
  destruct (cells_Size (cells t1)) as [cw ch].
  destruct (_ || _ || _ || _); [now apply hideCursor_cursor_only|].
  apply cursor_only_cy, cursor_only_cx.
  repeat apply cursor_only_TPuts. exact Hf.
Qed.

Lemma drawRow_clean (n : nat) :
  forall (fuel : nat) (x y : Z) (t : tScreen),
  int_ok (w t) -> 0 <= x -> n = Z.to_nat (w t - x) -> (n <= fuel)%nat ->
  (forall x', 0 <= x' < w t ->
     cells_Dirty (cells t) x' y = false /\
     snd (cells_GetContent (cells t) x' y) = 1) ->
  drawRow fuel x y t = Ok t.
Proof.
  induction n as [|n IH]; intros fuel x y t Hi Hx Hn Hf Hclean;
    rewrite drawRow_eq.
  - destruct (Z.ltb_spec x (w t)) as [Hlt|Hge]; [lia|reflexivity].
  - destruct (Z.ltb_spec x (w t)) as [Hlt|Hge]; [|lia]. cbn [negb].
    destruct fuel as [|fuel]; [lia|].
    destruct (Hclean x (conj Hx Hlt)) as [Hd Hwd].
    assert (Hc : drawCell x y t = (t, 1)).
    { unfold drawCell.
      destruct (cells_GetContent (cells t) x y) as [[[mainc combc] st] width].
      cbn [snd] in Hwd. subst width. now rewrite Hd. }
    rewrite Hc. cbv zeta. change (1 <? 1) with false. cbn [andb].
    change (wrap64 (1 - 1)) with 0. rewrite Z.add_0_r.
    unfold int_ok in Hi.
    rewrite (wrap64_small x) by (unfold int_ok; lia).
    rewrite (wrap64_small (x + 1)) by (unfold int_ok; lia).
    apply IH; try assumption; lia.
Qed.

Lemma drawRows_clean (n : nat) :
  forall (fuel : nat) (y : Z) (t : tScreen),
  int_ok (w t) -> (Z.to_nat (w t) <= fuel)%nat ->
  (forall x' y', 0 <= x' < w t -> y <= y' < y + Z.of_nat n ->
     cells_Dirty (cells t) x' y' = false /\
     snd (cells_GetContent (cells t) x' y') = 1) ->
  drawRows fuel n y t = Ok t.
Proof.
  induction n as [|n IH]; intros fuel y t Hi Hf Hclean;
    cbn [drawRows]; [reflexivity|].
  assert (Hrow : drawRow fuel 0 y t = Ok t).
  { apply (drawRow_clean (Z.to_nat (w t - 0))).
    - exact Hi.
    - lia.
    - reflexivity.
    - rewrite Z.sub_0_r. exact Hf.
    - intros x' Hx'. apply Hclean; [exact Hx'|lia]. }
  rewrite Hrow. cbn [bindR]. apply IH; try assumption.
  intros x' y' Hx' Hy'. apply Hclean; [exact Hx'|lia].
Qed.

(** X20.  On a screen with nothing to redraw (the [clear] flag off, every
    cell of the screen clean and of width 1) [draw] ends within as many
    steps per row as the screen has columns, leaves the cell buffer as it
    is and writes no cell text: what the terminal gets is capability
    strings only, those that hide and place the cursor. *)
Theorem X20_clean_screen_draws_cursor_only (t : tScreen) (fuel : nat) :
  clear t = false -> int_ok (w t) -> (Z.to_nat (w t) <= fuel)%nat ->
  (forall x y, 0 <= x < w t -> 0 <= y < h t ->
     cells_Dirty (cells t) x y = false /\
     snd (cells_GetContent (cells t) x y) = 1) ->
  exists t' items,
    draw fuel t = Ok t' /\ out t' = out t ++ items /\
    forallb is_tputs items = true /\ cells t' = cells t /\
    buffering t' = false /\ buf t' = [].
Proof.
  intros Hcl Hi Hf Hclean. unfold draw. cbv zeta.
  set (t1 := set_buffering true (set_buf [] (set_cy (-1) (set_cx (-1) t)))).
  assert (Hf1 : cursor_only t t1) by (repeat split).
  pose proof (hideCursor_cursor_only t t1 Hf1) as Hf2.
  set (t2 := hideCursor t1) in *. clearbody t2.
  pose proof Hf2 as (Hb & Ho & Hc & Hw & Hh & Hti & Hx & Hy & Hcl2 & Hbuf).
  rewrite Hcl2, Hcl.
  assert (Hrows : drawRows fuel (Z.to_nat (h t2)) 0 t2 = Ok t2).
  { apply drawRows_clean.
    - now rewrite Hw.
    - now rewrite Hw.
    - intros x' y' Hx' Hy'. rewrite Hc. rewrite Hw in Hx'. rewrite Hh in Hy'.
      apply Hclean; [exact Hx'|lia]. }
  rewrite Hrows. cbn [bindR].
  pose proof (showCursor_cursor_only t t2 Hf2)
    as (Hb3 & Ho3 & Hc3 & _ & _ & _ & _ & _ & _ & Hbuf3).
  eexists. exists (buf (showCursor t2)). split; [reflexivity|].
  cbn. rewrite Ho3. repeat split; assumption.
Qed.

End DrawFacts.

Section DrawOutput.
Context `{Collaborators}.

































End DrawOutput.

(** * The further properties on the concrete screen *)

Lemma demo_keycodes_wf : keycodes_wf (keycodes demo_screen).
Proof.
  split; [reflexivity|].
  change (NoDup (map fst demo_keycodes)). vm_compute.
  repeat (constructor;
          [rewrite list_elem_of_In; cbn [In]; intros Hin;
           repeat (destruct Hin as [Hin|Hin]; [discriminate Hin|]);
           exact Hin|]).
  constructor.
Qed.

Lemma demo_scan_ready : scan_ready demo_screen.
Proof.
  split; [reflexivity|]. split; [reflexivity|].
  intros [|c src]; cbn; [discriminate|lia].
Qed.

Lemma X1_witness_new_sequence :
  nonempty (ESC :: bytes "[Z") = true /\
  keycodes_lookup (keycodes demo_screen) (ESC :: bytes "[Z") = None /\
  keycodes_lookup
    (keycodes (prepareKeyMod 300 0 (ESC :: bytes "[Z") demo_screen))
    (ESC :: bytes "[Z") = Some (mkKeyCode 300 0) /\
  HasKey 300 (prepareKeyMod 300 0 (ESC :: bytes "[Z") demo_screen) = true.
Proof.
  split; [reflexivity|]. split; [reflexivity|].
  exact (proj1 (X1_prepareKeyMod_adds_and_never_overrides demo_screen 300 0
                  (ESC :: bytes "[Z")) eq_refl eq_refl).
Defined.

Lemma X2_witness_replace_up_key :
  nonempty (ESC :: bytes "[A") = true /\
  keycodes_lookup (keycodes demo_screen) (ESC :: bytes "[A") =
    Some (mkKeyCode 257 0) /\
  keycodes_lookup
    (keycodes (prepareKeyModReplace 400 257 1 (ESC :: bytes "[A") demo_screen))
    (ESC :: bytes "[A") = Some (mkKeyCode 400 1) /\
  HasKey 400 (prepareKeyModReplace 400 257 1 (ESC :: bytes "[A") demo_screen) =
    true.
Proof.
  split; [reflexivity|]. split; [reflexivity|].
  exact (proj1 (X2_prepareKeyModReplace_overrides_named_key demo_screen
                  400 257 1 (ESC :: bytes "[A"))
           (mkKeyCode 257 0) eq_refl eq_refl eq_refl).
Defined.

Lemma X3_witness_demo_table :
  keycodes_wf (keycodes demo_screen) /\
  keycodes_wf (keycodes (prepareKeyMod 300 0 (ESC :: bytes "[Z") demo_screen)) /\
  keycodes_wf (keycodes (prepareControlKeys demo_screen)).
Proof.
  split; [exact demo_keycodes_wf|].
  destruct (X3_key_table_keeps_no_empty_sequence demo_screen demo_keycodes_wf)
    as (Hmod & _ & Hctl).
  split; [apply Hmod|exact Hctl].
Defined.

Lemma X4_witness_ctrl_b_and_escape :
  keycodes_nonempty (keycodes demo_screen) = true /\
  starts_with (z2b 2) (keycodes demo_screen) = false /\
  keycodes_lookup (keycodes (prepareControlKeys demo_screen)) [z2b 2] =
    Some (mkKeyCode 2 (controlMod 2)) /\
  starts_with (z2b 27) (keycodes demo_screen) = true /\
  keycodes_lookup (keycodes (prepareControlKeys demo_screen)) [z2b 27] = None.
Proof.
  split; [reflexivity|]. split; [reflexivity|].
  split.
  - exact (proj1 (proj1 (X4_control_keys_skip_ambiguous_bytes demo_screen 2
                           eq_refl ltac:(lia)) eq_refl)).
  - split; [reflexivity|].
    exact (proj1 (proj2 (X4_control_keys_skip_ambiguous_bytes demo_screen 27
                           eq_refl ltac:(lia))) eq_refl).
Defined.

Lemma X5_witness_demo_screen :
  scan_ready demo_screen /\
  exists evs t' rest,
    (forall fuel, (length (ESC :: bytes "[<0;1") < fuel)%nat ->
       collectEventsFromInput fuel demo_screen (ESC :: bytes "[<0;1") false =
       Ok (evs, t', rest)) /\
    (exists k, rest = skipn k (ESC :: bytes "[<0;1")) /\
    (false = true -> rest = []).
Proof.
  split; [exact demo_scan_ready|].
  exact (X5_scan_terminates demo_screen (ESC :: bytes "[<0;1") false
           demo_scan_ready).
Defined.

Lemma X6_witness_demo_screen :
  keycodes_nonempty (keycodes demo_screen) = true /\
  no_rawseq_prefix (rawseq demo_screen) [ESC] = true /\
  collectEventsFromInput 1000 (RegisterRawSeq [] demo_screen) [ESC] true =
    OutOfFuel.
Proof.
  split; [reflexivity|]. split; [reflexivity|].
  exact (X6_empty_raw_sequence_never_ends demo_screen 1000 eq_refl eq_refl).
Defined.

Lemma X7_witness_two_letters :
  paste demo_screen = false /\
  forallb printable (bytes "hi") = true /\
  collectEventsFromInput 3 demo_screen (bytes "hi") false =
  Ok ([NewEventKey KeyRune 104 ModNone (bytes "h");
       NewEventKey KeyRune 105 ModNone (bytes "i")],
      set_escbuf [] demo_screen, []).
Proof.
  split; [reflexivity|]. split; [reflexivity|].
  exact (X7_printable_bytes_one_key_each demo_screen (bytes "hi") false 3
           eq_refl eq_refl ltac:(cbn; lia)).
Defined.

Lemma X8_witness_pasted_line :
  paste (SetPaste true demo_screen) = true /\
  Forall (fun c => c <> ESC) ["a"%byte; x0d; "b"%byte] /\
  2 <= len ["a"%byte; x0d; "b"%byte] /\
  scanStep false
    (SetPaste true demo_screen, ["a"%byte; x0d; "b"%byte] ++ [], []) =
  Ok (true,
      (set_escbuf [] (SetPaste true demo_screen), [],
       [NewEventPaste ["a"%byte; x0a; "b"%byte] ["a"%byte; x0d; "b"%byte]])).
Proof.
  assert (Hrun : Forall (fun c => c <> ESC) ["a"%byte; x0d; "b"%byte])
    by (repeat constructor; discriminate).
  split; [reflexivity|]. split; [exact Hrun|].
  split; [unfold len; cbn; lia|].
  exact (proj1 (X8_paste_mode_run_is_one_paste (SetPaste true demo_screen)
                  ["a"%byte; x0d; "b"%byte] [] [] false eq_refl Hrun eq_refl)
           ltac:(unfold len; cbn; lia)).
Defined.

Lemma X9_witness_primary_register :
  Forall (fun c => c <> ESC) ("p"%byte :: "!"%byte :: bytes "aGk=") /\
  scanStep false
    (demo_screen,
     pasteOSC52Begin ++ ("p"%byte :: "!"%byte :: bytes "aGk=") ++
     pasteOSC52End ++ bytes "x", []) =
  Ok (true,
      (set_escbuf [] demo_screen, bytes "x",
       [NewEventPaste (bytes "hi")
          (pasteOSC52Begin ++ ("p"%byte :: "!"%byte :: bytes "aGk=") ++
           pasteOSC52End ++ bytes "x")])).
Proof.
  assert (Hh : Forall (fun c => c <> ESC)
                 ("p"%byte :: "!"%byte :: bytes "aGk="))
    by (repeat constructor; discriminate).
  split; [exact Hh|].
  exact (X9_osc52_reply_any_register demo_screen "p"%byte "!"%byte
           (bytes "aGk=") (bytes "x") [] false Hh).
Defined.

Lemma X10_witness_up_key :
  NoDup (map fst (keycodes demo_screen)) /\
  keycodes_lookup (keycodes demo_screen) (ESC :: bytes "[A") =
    Some (mkKeyCode 257 0) /\
  parseFunctionKey (demo_screen, (ESC :: bytes "[A") ++ bytes "x", []) =
  (true, true,
   (set_escbuf [] demo_screen, bytes "x",
    [NewEventKey 257 0 0 (ESC :: bytes "[A")])).
Proof.
  split; [exact (proj2 demo_keycodes_wf)|]. split; [reflexivity|].
  refine (X10_function_key_match demo_screen (ESC :: bytes "[A") (bytes "x")
            (mkKeyCode 257 0) [] (proj2 demo_keycodes_wf) eq_refl
            ltac:(discriminate) ltac:(discriminate) _).
  intros e He Hp. cbn in He.
  repeat (destruct He as [<- | He]; [first [now left|discriminate Hp]|]).
  contradiction.
Defined.

Lemma X11_witness_partial_sequence :
  no_key_prefix (keycodes demo_screen) (ESC :: bytes "[") = true /\
  parseFunctionKey (demo_screen, ESC :: bytes "[", []) =
  (true, false, (demo_screen, ESC :: bytes "[", [])).
Proof.
  split; [reflexivity|].
  exact (X11_function_key_partial demo_screen (ESC :: bytes "[") [] eq_refl).
Defined.

Lemma X12_witness_press_at_10_5 :
  escaped demo_screen = false /\
  forallb is_digit (bytes "0") = true /\
  forallb is_digit (bytes "10") = true /\
  forallb is_digit (bytes "5") = true /\
  decimal (bytes "10") = 10 /\
  Z.land (decimal (bytes "0")) 32 = 0 /\
  parseSgrMouse (demo_screen, sgr_press ++ [], []) =
  (true, true,
   (fst (buildMouseEvent
           (set_escbuf (escbuf demo_screen ++ sgr_press)
              (set_buttondn true demo_screen)) 9 4 0),
    [],
    [] ++ [snd (buildMouseEvent
                  (set_escbuf (escbuf demo_screen ++ sgr_press)
                     (set_buttondn true demo_screen)) 9 4 0)])).
Proof.
  repeat (split; [reflexivity|]).
  exact (proj1 (X12_sgr_report_numbers demo_screen (bytes "0") (bytes "10")
                  (bytes "5") [] [] eq_refl eq_refl eq_refl eq_refl
                  ltac:(cbn; lia) ltac:(cbn; lia) ltac:(cbn; lia))
           eq_refl).
Defined.

Lemma X13_witness_wheel_during_drag :
  forallb (fun r => is_wheel (snd r)) [(3, 4, 64); (3, 5, 65)] = true /\
  is_press 0 = true /\
  map mouse_button
    (snd (mouseReports (fst (buildMouseEvent demo_screen 3 3 0))
            [(3, 4, 64); (3, 5, 65)])) =
  [Some Button1; Some Button1].
Proof.
  split; [reflexivity|]. split; [reflexivity|].
  exact (proj1 (X13_wheel_after_press_is_button1 demo_screen 3 3 0
                  [(3, 4, 64); (3, 5, 65)] eq_refl) eq_refl).
Defined.

Lemma X14_witness_demo_screen :
  scan_ready demo_screen /\
  exists evs t1 rest r,
    (forall fuel, (length (bytes "hi") < fuel)%nat ->
       collectEventsFromInput fuel demo_screen (bytes "hi") false =
         Ok (evs, t1, rest) /\
       scanInput fuel demo_screen (bytes "hi") false = Ok r) /\
    evch t1 = evch demo_screen /\ posted_rest r = rest /\
    kept (evch (posted_state r)) ++ waiting r =
      kept (evch demo_screen) ++ kept evs /\
    (forall t2 ev pending inp2, r = Blocked t2 ev pending inp2 ->
       is_mouse_event ev = false /\ 10 <= len (evch t2)) /\
    (len (evch demo_screen) + len evs <= 10 ->
     r = Sent (set_evch (evch demo_screen ++ evs) t1) rest) /\
    (10 <= len (evch demo_screen) ->
     posted_state r = t1 /\ waiting r = kept evs).
Proof.
  split; [exact demo_scan_ready|].
  exact (X14_scanInput_drops_only_mouse_events demo_screen (bytes "hi") false
           demo_scan_ready).
Defined.

Lemma X15_witness_cjk_rune :
  CanDisplay 19990 true demo_screen = false /\
  encodeRune demo_screen 19990 [] = bytes "?" /\
  encodeRune demo_screen 19990 (bytes "a") = bytes "a".
Proof.
  split; [reflexivity|].
  destruct (X15_rejected_rune_draws_question_mark demo_screen 19990 eq_refl)
    as [Hq Hc].
  split; [exact Hq|]. apply Hc. discriminate.
Defined.

Lemma X16_witness_cjk_rune :
  CanDisplay 19990 false demo_screen = false /\
  encodeRune (RegisterRuneFallback 19990 (bytes "#") demo_screen) 19990 [] =
    bytes "#" /\
  CanDisplay 65 false demo_screen = true /\
  encodeRune (RegisterRuneFallback 65 (bytes "#") demo_screen) 65 [] =
    encodeRune demo_screen 65 [].
Proof.
  split; [reflexivity|].
  destruct (X16_fallback_only_for_unencodable_runes demo_screen 19990
              (bytes "#")) as (Hun & _ & _).
  split; [exact (proj1 (Hun eq_refl))|].
  split; [reflexivity|].
  destruct (X16_fallback_only_for_unencodable_runes demo_screen 65
              (bytes "#")) as (_ & Hen & _).
  exact (Hen eq_refl []).
Defined.

Lemma X17_witness_single_pair :
  demo_acs_names "a"%byte = Some 9618 /\
  buildAcsMap demo_acs_names (bytes "aa") (bytes "<") (bytes ">") !! 9618 =
    None /\
  acsPairs demo_acs_names (bytes "<") (bytes ">") (bytes "aa") empty !! 9618 =
    Some (bytes "<a>").
Proof.
  split; [reflexivity|]. split; [|reflexivity].
  exact (proj2 (proj2 (X17_acs_map_leaves_out_last_pair demo_acs_names
                         (bytes "<") (bytes ">") [] "a"%byte "a"%byte empty))
           9618 eq_refl (List.Forall_nil _)).
Defined.

Lemma X18_witness_demo_screen :
  finiOnce demo_screen = false /\
  written (Fini demo_screen) = written demo_screen ++ teardown demo_ti /\
  Fini (Fini demo_screen) = Fini demo_screen.
Proof.
  split; [reflexivity|].
  destruct (X18_Fini_tears_down_once demo_screen eq_refl)
    as (Hw & _ & _ & Hi & _).
  split; [exact Hw|exact Hi].
Defined.

Lemma X19_witness_size_changed :
  getWinSize = Some (80, 24) /\
  (w (set_w 40 demo_screen) <> 80 \/ h (set_w 40 demo_screen) <> 24) /\
  w (resize (set_w 40 demo_screen)) = 80 /\
  evch (resize (set_w 40 demo_screen)) = [NewEventResize 80 24] /\
  resize (resize (set_w 40 demo_screen)) = resize (set_w 40 demo_screen).
Proof.
  assert (Hne : w (set_w 40 demo_screen) <> 80 \/ h (set_w 40 demo_screen) <> 24)
    by (left; discriminate).
  split; [reflexivity|]. split; [exact Hne|].
  destruct (X19_resize_once (set_w 40 demo_screen)) as (Hidem & _ & Hsz).
  destruct (Hsz 80 24 eq_refl) as (Hw & _ & _ & Hev).
  split; [exact Hw|]. split; [exact (Hev Hne)|exact Hidem].
Defined.

Lemma demo_clean_cells (x y : Z) :
  0 <= x < w demo_clean_screen -> 0 <= y < h demo_clean_screen ->
  cells_Dirty (cells demo_clean_screen) x y = false /\
  snd (cells_GetContent (cells demo_clean_screen) x y) = 1.
Proof.
  intros Hx Hy. change (w demo_clean_screen) with 80 in Hx.
  change (h demo_clean_screen) with 24 in Hy.
  assert (Hin : grid_inside (cells demo_clean_screen) x y = true).
  { unfold grid_inside. change (g_w (cells demo_clean_screen)) with 80.
    change (g_h (cells demo_clean_screen)) with 24.
    repeat (apply andb_true_intro; split);
      first [apply Z.leb_le | apply Z.ltb_lt]; lia. }
  change (cells_Dirty (cells demo_clean_screen) x y)
    with (if grid_inside (cells demo_clean_screen) x y then false else false).
  change (cells_GetContent (cells demo_clean_screen) x y)
    with (if grid_inside (cells demo_clean_screen) x y
          then (32, @nil Z, (0, 0, 0), 1)
          else (0, [], (0, 0, 0), 0)).
  rewrite Hin. split; reflexivity.
Qed.

Lemma X20_witness_clean_screen :
  clear demo_clean_screen = false /\
  int_ok (w demo_clean_screen) /\
  exists t' items,
    draw 80 demo_clean_screen = Ok t' /\
    out t' = out demo_clean_screen ++ items /\
    forallb is_tputs items = true /\ cells t' = cells demo_clean_screen /\
    buffering t' = false /\ buf t' = [].
Proof.
  assert (Hi : int_ok (w demo_clean_screen)) by (unfold int_ok; cbn; lia).
  split; [reflexivity|]. split; [exact Hi|].
  exact (X20_clean_screen_draws_cursor_only demo_clean_screen 80 eq_refl Hi
           ltac:(cbn; lia) demo_clean_cells).
Defined.

